(** * Offline download manager (src/lib/offline-download-manager.ts)

    A shallow embedding of the download-task engine: the string and path
    helpers of the JavaScript runtime it calls, the playlist parser, the
    AES-128-CBC segment decryptor, the task store and the life cycle of a
    download, followed by the properties of the specification. *)

From Stdlib Require Import ZArith Ascii String List Lia Bool.
From Stdlib Require Import Floats.SpecFloat.
From Stdlib Require Import Numbers.DecimalString.
From stdpp Require Import base option list strings gmap.

Local Open Scope string_scope.
Local Open Scope Z_scope.

(** ** JavaScript strings

    A string is a sequence of code units; the embedding keeps the code
    units below 256 (the Latin-1 range), which is where every literal of
    the source lives. *)

Module JS.

(** [s.startsWith(p)] *)
Fixpoint startsWith (p s : string) : bool :=
  match p, s with
  | EmptyString, _ => true
  | String a p', String b s' => Ascii.eqb a b && startsWith p' s'
  | String _ _, EmptyString => false
  end.

(** [s.includes(sub)]: [sub] starts at some position of [s]. *)
Fixpoint includes (sub s : string) : bool :=
  startsWith sub s ||
  match s with
  | EmptyString => false
  | String _ s' => includes sub s'
  end.

(** [s.endsWith(suf)]: some tail of [s] is [suf]. *)
Fixpoint endsWith (suf s : string) : bool :=
  String.eqb s suf ||
  match s with
  | EmptyString => false
  | String _ s' => endsWith suf s'
  end.

(** White space of [String.prototype.trim] in the Latin-1 range: TAB, LF,
    VT, FF, CR, SP and NBSP. *)
Definition isWhiteSpace (c : ascii) : bool :=
  let n := nat_of_ascii c in
  ((9 <=? n) && (n <=? 13))%nat || (n =? 32)%nat || (n =? 160)%nat.

Fixpoint trimStart (s : string) : string :=
  match s with
  | EmptyString => EmptyString
  | String c s' => if isWhiteSpace c then trimStart s' else s
  end.

Fixpoint trimEnd (s : string) : string :=
  match s with
  | EmptyString => EmptyString
  | String c s' =>
      match trimEnd s' with
      | EmptyString => if isWhiteSpace c then EmptyString else String c EmptyString
      | r => String c r
      end
  end.

(** [s.trim()] *)
Definition trim (s : string) : string := trimEnd (trimStart s).

(** Truthiness of a string: the empty string is falsy. *)
Definition truthy (s : string) : bool :=
  match s with EmptyString => false | _ => true end.

(** [s.split(sep)] for a one-character separator. *)
Fixpoint split (sep : ascii) (s : string) : list string :=
  match s with
  | EmptyString => [EmptyString]
  | String c s' =>
      if Ascii.eqb c sep then EmptyString :: split sep s'
      else match split sep s' with
           | h :: t => String c h :: t
           | [] => [String c EmptyString]
           end
  end.

(** [s.split('\n')] *)
Definition split_lines : string -> list string := split "010"%char.

(** [parts.join(sep)] *)
Fixpoint join (sep : string) (parts : list string) : string :=
  match parts with
  | [] => EmptyString
  | [x] => x
  | x :: rest => x +:+ sep +:+ join sep rest
  end.

(** [s.toLowerCase()] on Latin-1: A-Z, and the letters of 0xC0-0xDE but
    the multiplication sign 0xD7, move up by 32. *)
Definition lowerChar (c : ascii) : ascii :=
  let n := nat_of_ascii c in
  if ((65 <=? n) && (n <=? 90))%nat
     || ((192 <=? n) && (n <=? 222) && negb (n =? 215))%nat
  then ascii_of_nat (n + 32) else c.

Fixpoint toLowerCase (s : string) : string :=
  match s with
  | EmptyString => EmptyString
  | String c s' => String (lowerChar c) (toLowerCase s')
  end.

(** [s.lastIndexOf(c)] for a one-character needle; [-1] when absent. *)
Fixpoint lastIndexOf (c : ascii) (s : string) : Z :=
  match s with
  | EmptyString => -1
  | String a s' =>
      let r := lastIndexOf c s' in
      if 0 <=? r then r + 1
      else if Ascii.eqb a c then 0 else -1
  end.

Fixpoint take (n : nat) (s : string) : string :=
  match n, s with
  | O, _ => EmptyString
  | S _, EmptyString => EmptyString
  | S n', String c s' => String c (take n' s')
  end.

(** [s.substring(0, e)]: a negative end counts as 0, an end past the
    length as the length. *)
Definition substring0 (e : Z) (s : string) : string := take (Z.to_nat e) s.

(** The last code unit of a string. *)
Fixpoint lastChar (s : string) : option ascii :=
  match s with
  | EmptyString => None
  | String c EmptyString => Some c
  | String _ s' => lastChar s'
  end.

(** Template-literal printing of an integer number. *)
Definition numberToString (z : Z) : string :=
  NilZero.string_of_int (Z.to_int z).

(** *** Numbers

    Arithmetic on numbers is IEEE-754 binary64. *)

Definition prec : Z := 53.
Definition emax : Z := 1024.

Definition ofZ (z : Z) : spec_float := binary_normalize prec emax z 0 false.
Definition fdiv : spec_float -> spec_float -> spec_float := SFdiv prec emax.
Definition fmul : spec_float -> spec_float -> spec_float := SFmul prec emax.

(** [Math.round(x)] of a finite [x]: the integer nearest to [x], a tie
    going up; that is [floor (x + 1/2)] computed exactly.  [None] stands
    for the results that are no integer (NaN and the infinities). *)
Definition Math_round (x : spec_float) : option Z :=
  match x with
  | S754_zero _ => Some 0
  | S754_finite s m e =>
      let v := if s then Z.neg m else Z.pos m in
      if 0 <=? e then Some (v * 2 ^ e)
      else Some ((2 * v + 2 ^ (- e)) / 2 ^ (1 - e))
  | _ => None
  end.

(** [Math.round((a / b) * 100)], the percentage both download paths
    compute; a result that is no integer is kept out of the integers'
    range as [-1]. *)
Definition percent (a b : Z) : Z :=
  match Math_round (fmul (fdiv (ofZ a) (ofZ b)) (ofZ 100)) with
  | Some p => p
  | None => -1
  end.

End JS.

(** ** Paths (the POSIX flavour of Node's [path] module) *)

Module Path.

(** One step of [normalizeString]: the segments kept so far are held last
    first. *)
Definition push_segment (allowAboveRoot : bool) (acc : list string) (seg : string)
  : list string :=
  if String.eqb seg "" || String.eqb seg "." then acc
  else if String.eqb seg ".." then
    match acc with
    | last :: rest =>
        if String.eqb last ".." then
          (if allowAboveRoot then seg :: acc else acc)
        else rest
    | [] => if allowAboveRoot then [seg] else []
    end
  else seg :: acc.

Definition normalizeString (path : string) (allowAboveRoot : bool) : string :=
  JS.join "/" (rev (fold_left (push_segment allowAboveRoot) (JS.split "/"%char path) [])).

(** [path.normalize(p)] *)
Definition normalize (path : string) : string :=
  if String.eqb path "" then "." else
  let isAbsolute := JS.startsWith "/" path in
  let trailingSeparator := JS.endsWith "/" path in
  let p := normalizeString path (negb isAbsolute) in
  if String.eqb p "" then
    (if isAbsolute then "/" else if trailingSeparator then "./" else ".")
  else
    let p := if trailingSeparator then p +:+ "/" else p in
    if isAbsolute then "/" +:+ p else p.

(** [path.join(a, b)] *)
Definition join (a b : string) : string :=
  if String.eqb a "" then (if String.eqb b "" then "." else normalize b)
  else if String.eqb b "" then normalize a
  else normalize (a +:+ "/" +:+ b).

Definition isSlash (c : ascii) : bool := Ascii.eqb c "/"%char.
Definition notSlash (c : ascii) : bool := negb (isSlash c).

Fixpoint dropWhile (f : ascii -> bool) (l : list ascii) : list ascii :=
  match l with
  | [] => []
  | c :: l' => if f c then dropWhile f l' else l
  end.

(** [path.dirname(p)]: the scan runs from the last character down to the
    second one, past the trailing separators and the base name. *)
Definition dirname (path : string) : string :=
  match list_ascii_of_string path with
  | [] => "."
  | c0 :: rest =>
      let hasRoot := isSlash c0 in
      match dropWhile notSlash (dropWhile isSlash (rev rest)) with
      | [] => if hasRoot then "/" else "."
      | _ :: before =>
          if hasRoot && Nat.eqb (List.length before) 0 then "//"
          else string_of_list_ascii (c0 :: rev before)
      end
  end.

Definition notDot (c : ascii) : bool := negb (Ascii.eqb c "."%char).

Fixpoint takeWhile (f : ascii -> bool) (l : list ascii) : list ascii :=
  match l with
  | [] => []
  | c :: l' => if f c then c :: takeWhile f l' else []
  end.

(** [path.extname(p)]: the scan runs from the last character down, past
    the trailing separators, over the last part of the path; [ext] is
    what it passes before the first dot it meets and [before] what is
    left of the part beyond that dot.  There is no extension when the
    part has no dot, when the dot is the first character of the part,
    and when the part is two dots. *)
Definition extname (path : string) : string :=
  let part := takeWhile notSlash (dropWhile isSlash (rev (list_ascii_of_string path))) in
  let ext := takeWhile notDot part in
  match drop (List.length ext) part with
  | [] => ""
  | _ :: before =>
      match before, ext with
      | [], _ => ""
      | [c], [] => if Ascii.eqb c "."%char then "" else "."
      | _, _ => string_of_list_ascii ("."%char :: rev ext)
      end
  end.

End Path.

(** ** Results of code that may throw *)

Inductive Result (A : Type) : Type :=
| Ok (a : A)
| Throw (message : string).
Arguments Ok {A} a.
Arguments Throw {A} message.

#[global] Instance Result_ret : MRet Result := fun A a => Ok a.

#[global] Instance Result_fmap : FMap Result := fun A B f r =>
  match r with
  | Ok a => Ok (f a)
  | Throw m => Throw m
  end.

#[global] Instance Result_bind : MBind Result := fun A B k r =>
  match r with
  | Ok a => k a
  | Throw m => Throw m
  end.

(** A buffer is a sequence of bytes. *)
Abbreviation Buffer := (list Z).

(** ** The platform: URL parsing and the AES block cipher

    Both belong to the runtime, not to the repository; the embedding takes
    them as a record of functions. *)

Record URL : Type := {
  protocol : string;   (* scheme with its colon, as in "https:" *)
  host : string;
  href : string
}.

Record Platform : Type := {
  (* [new URL(s)]; [None] when the constructor throws *)
  new_URL : string -> option URL;
  (* [new URL(rel, base)] *)
  new_URL_base : string -> string -> option URL;
  (* the AES-128 block function and its inverse, on 16-byte blocks *)
  aes_encrypt_block : Buffer -> Buffer -> Buffer;
  aes_decrypt_block : Buffer -> Buffer -> Buffer
}.


(** Decryption and encryption of one block under a 16-byte key are
    inverse permutations of the 16-byte blocks. *)
Definition block_cipher (P : Platform) : Prop :=
  forall key b : Buffer,
    length key = 16%nat -> length b = 16%nat ->
    length (aes_decrypt_block P key b) = 16%nat /\
    aes_encrypt_block P key (aes_decrypt_block P key b) = b.

(** The message of the error a failing [new URL] throws. *)
Definition invalid_url : string := "Invalid URL".

Definition parse_url (P : Platform) (s : string) : Result URL :=
  match new_URL P s with
  | Some u => Ok u
  | None => Throw invalid_url
  end.

Definition parse_url_base (P : Platform) (rel base : string) : Result URL :=
  match new_URL_base P rel base with
  | Some u => Ok u
  | None => Throw invalid_url
  end.

(** ** Segment decryption (decryptAES128, source lines 384-411) *)

Module Crypto.

Definition xor_bytes (a b : Buffer) : Buffer := zip_with Z.lxor a b.

(** The 16-byte blocks of a buffer whose length is a multiple of 16. *)
Definition blocks (data : Buffer) : list Buffer :=
  reshape (replicate (length data / 16) 16%nat) data.

Section Cbc.
Context (P : Platform) (key : Buffer).

(** CBC chaining: a plaintext block is the decrypted cipher block xor
    the previous cipher block (the IV for the first). *)
Fixpoint cbc_decrypt_blocks (prev : Buffer) (cs : list Buffer) : list Buffer :=
  match cs with
  | [] => []
  | c :: cs' => xor_bytes (aes_decrypt_block P key c) prev :: cbc_decrypt_blocks c cs'
  end.

Fixpoint cbc_encrypt_blocks (prev : Buffer) (ps : list Buffer) : list Buffer :=
  match ps with
  | [] => []
  | p :: ps' =>
      let c := aes_encrypt_block P key (xor_bytes p prev) in
      c :: cbc_encrypt_blocks c ps'
  end.
End Cbc.

(** [crypto.createDecipheriv('aes-128-cbc', key, iv)], [setAutoPadding(false)],
    then [Buffer.concat([update(data), final()])]. *)
Definition decipher_aes_128_cbc (P : Platform) (key iv data : Buffer) : Result Buffer :=
  if negb (length key =? 16)%nat then Throw "Invalid key length"
  else if negb (length iv =? 16)%nat then Throw "Invalid initialization vector"
  else if negb (Z.of_nat (length data) mod 16 =? 0) then Throw "wrong final block length"
  else Ok (mjoin (cbc_decrypt_blocks P key iv (blocks data))).

(** The matching cipher of [crypto.createCipheriv], padding off. *)
Definition cipher_aes_128_cbc (P : Platform) (key iv data : Buffer) : Result Buffer :=
  if negb (length key =? 16)%nat then Throw "Invalid key length"
  else if negb (length iv =? 16)%nat then Throw "Invalid initialization vector"
  else if negb (Z.of_nat (length data) mod 16 =? 0) then Throw "wrong final block length"
  else Ok (mjoin (cbc_encrypt_blocks P key iv (blocks data))).

(** [Buffer.alloc(n)] *)
Definition Buffer_alloc (n : nat) : Buffer := replicate n 0.

(** [buf.writeUInt32BE(value, offset)]: a range error when the value is
    no unsigned 32-bit integer or the four bytes do not fit. *)
Definition writeUInt32BE (buf : Buffer) (value : Z) (offset : nat) : Result Buffer :=
  if negb ((0 <=? value) && (value <=? 4294967295)) then
    Throw "ERR_OUT_OF_RANGE"
  else if negb (offset + 4 <=? length buf)%nat then
    Throw "ERR_OUT_OF_RANGE"
  else
    Ok (<[(offset + 3)%nat := Z.land value 255]>
        (<[(offset + 2)%nat := Z.land (Z.shiftr value 8) 255]>
         (<[(offset + 1)%nat := Z.land (Z.shiftr value 16) 255]>
          (<[offset := Z.land (Z.shiftr value 24) 255]> buf)))).

(** The IV used when the playlist declares none. *)
Definition defaultIV (segmentIndex : Z) : Result Buffer :=
  writeUInt32BE (Buffer_alloc 16) segmentIndex 12.

(** The body of the [try] block. *)
Definition decryptAES128_try (P : Platform) (data key : Buffer) (iv : option Buffer)
    (segmentIndex : Z) : Result Buffer :=
  if negb (Z.of_nat (length data) mod 16 =? 0) then Ok data
  else
    ivBuffer ← match iv with
               | Some b => Ok b
               | None => defaultIV segmentIndex
               end;
    decipher_aes_128_cbc P key ivBuffer data.

(** [decryptAES128(data, key, iv, segmentIndex)]: the [catch] returns the
    data as they came. *)
Definition decryptAES128 (P : Platform) (data key : Buffer) (iv : option Buffer)
    (segmentIndex : Z) : Buffer :=
  match decryptAES128_try P data key iv segmentIndex with
  | Ok plain => plain
  | Throw _ => data
  end.

(** A block of the cipher. *)
Definition whole (b : Buffer) : Prop := length b = 16%nat.

End Crypto.

(** ** The network

    What the HTTP client answers is an input of the engine: an oracle per
    kind of request, keyed by the URL (and, for a segment, by the number
    of the attempt). *)

Inductive Answer (A : Type) : Type :=
| NetError (message : string)               (* the request emits 'error' *)
| Response (statusCode : Z) (body : A).
Arguments NetError {A} message.
Arguments Response {A} statusCode body.

(** The body of a streamed response: the advertised length (absent, or
    the digits the HTTP parser accepted), the chunks in order of arrival,
    and the error of the file stream if the transfer ends with one. *)
Record Stream : Type := {
  contentLength : option Z;
  chunks : list Buffer;
  streamError : option string
}.

Record Network : Type := {
  get_text : string -> Answer string;
  get_bytes : string -> nat -> Answer Buffer;
  get_stream : string -> Answer Stream
}.

Section Fetch.
Context (net : Network).

Definition http_status_error (statusCode : Z) : string :=
  "HTTP " +:+ JS.numberToString statusCode.

(** fetchContent (lines 413-435) *)
Definition fetchContent (url : string) : Result string :=
  match get_text net url with
  | NetError m => Throw m
  | Response code body =>
      if negb (code =? 200) then Throw (http_status_error code) else Ok body
  end.

Definition get_segment (url : string) (attempt : nat) : Result Buffer :=
  match get_bytes net url attempt with
  | NetError m => Throw m
  | Response code body =>
      if negb (code =? 200) then Throw (http_status_error code) else Ok body
  end.

(** The loop of downloadSegmentToBuffer (lines 437-475): [left] more
    attempts from number [attempt] on; the last error is kept. *)
Fixpoint segment_attempts (url : string) (left attempt : nat)
    (lastError : option string) : Result Buffer :=
  match left with
  | O => Throw (default "下载失败" lastError)
  | S left' =>
      match get_segment url attempt with
      | Ok b => Ok b
      | Throw m => segment_attempts url left' (S attempt) (Some m)
      end
  end.

Definition downloadSegmentToBuffer (url : string) : Result Buffer :=
  segment_attempts url 3 0 None.
End Fetch.

(** ** Playlists (downloadM3u8, lines 212-333) *)

Module Playlist.

Definition isHttp (s : string) : bool :=
  JS.startsWith "http://" s || JS.startsWith "https://" s.

(** A line that names a resource: not blank and not a comment. *)
Definition isUri (trimmed : string) : bool :=
  JS.truthy trimmed && negb (JS.startsWith "#" trimmed).

(** The scan of the master playlist (lines 226-236). *)
Fixpoint findMediaPlaylistUrl (isNextLineUrl : bool) (lines : list string)
  : option string :=
  match lines with
  | [] => None
  | line :: rest =>
      let trimmed := JS.trim line in
      if JS.startsWith "#EXT-X-STREAM-INF" trimmed then findMediaPlaylistUrl true rest
      else if isNextLineUrl && isUri trimmed then Some trimmed
      else findMediaPlaylistUrl isNextLineUrl rest
  end.

(** [`${m3u8Url.protocol}//${m3u8Url.host}${ref}`] *)
Definition onHost (m3u8Url : URL) (ref : string) : string :=
  protocol m3u8Url +:+ "//" +:+ host m3u8Url +:+ ref.

(** [s.substring(0, s.lastIndexOf('/') + 1)] *)
Definition directoryOf (s : string) : string :=
  JS.substring0 (JS.lastIndexOf "/"%char s + 1) s.

(** Resolution of the media playlist reference (lines 243-254). *)
Definition resolveMediaPlaylistUrl (P : Platform) (taskUrl mediaPlaylistUrl : string)
  : Result string :=
  m3u8Url ← parse_url P taskUrl;
  if negb (JS.startsWith "http://" mediaPlaylistUrl)
     && negb (JS.startsWith "https://" mediaPlaylistUrl) then
    if JS.startsWith "/" mediaPlaylistUrl then Ok (onHost m3u8Url mediaPlaylistUrl)
    else
      let baseUrl := directoryOf taskUrl in
      u ← parse_url_base P mediaPlaylistUrl baseUrl;
      Ok (href u)
  else Ok mediaPlaylistUrl.

(** Resolution of a key or segment reference (lines 292-298, 319-325). *)
Definition resolve (m3u8Url : URL) (baseUrl ref : string) : string :=
  if isHttp ref then ref
  else if JS.startsWith "/" ref then onHost m3u8Url ref
  else baseUrl +:+ ref.

(** Segment enumeration, the loop of lines 313-329: [tsUrls] grows by
    [push]. *)
Definition pushSegment (m3u8Url : URL) (baseUrl : string) (tsUrls : list string)
    (line : string) : list string :=
  let trimmed := JS.trim line in
  if isUri trimmed then tsUrls ++ [resolve m3u8Url baseUrl trimmed] else tsUrls.

Definition segmentUrls (m3u8Url : URL) (baseUrl : string) (lines : list string)
  : list string :=
  fold_left (pushSegment m3u8Url baseUrl) lines [].

(** *** Key discovery (lines 277-310) *)

Fixpoint takeWhile (f : ascii -> bool) (s : string) : string :=
  match s with
  | EmptyString => EmptyString
  | String c s' => if f c then String c (takeWhile f s') else EmptyString
  end.

Fixpoint dropStr (n : nat) (s : string) : string :=
  match n, s with
  | O, _ => s
  | S _, EmptyString => EmptyString
  | S n', String _ s' => dropStr n' s'
  end.

(** First match of [/prefix(class+)/] or, with [closing], of
    [/prefix(class+)closing/]: the capture is the longest run of the
    class after the leftmost prefix that has one (and the closing
    character after it). *)
Fixpoint matchAfter (prefix : string) (class : ascii -> bool)
    (closing : option ascii) (s : string) : option string :=
  let here :=
    if JS.startsWith prefix s then
      let rest := dropStr (String.length prefix) s in
      let cap := takeWhile class rest in
      if JS.truthy cap then
        match closing with
        | None => Some cap
        | Some q =>
            match dropStr (String.length cap) rest with
            | String c _ => if Ascii.eqb c q then Some cap else None
            | EmptyString => None
            end
        end
      else None
    else None in
  match here with
  | Some cap => Some cap
  | None =>
      match s with
      | EmptyString => None
      | String _ s' => matchAfter prefix class closing s'
      end
  end.

Definition isHexDigit (c : ascii) : bool :=
  let n := nat_of_ascii c in
  (((48 <=? n) && (n <=? 57)) || ((65 <=? n) && (n <=? 70))
   || ((97 <=? n) && (n <=? 102)))%nat.

Definition hexValue (c : ascii) : Z :=
  let n := Z.of_nat (nat_of_ascii c) in
  if n <=? 57 then n - 48 else if n <=? 70 then n - 55 else n - 87.

(** [Buffer.from(digits, 'hex')] on a string of hex digits: one byte per
    pair, an odd last digit is dropped. *)
Fixpoint hexDecode (s : string) : Buffer :=
  match s with
  | String a (String b rest) => (16 * hexValue a + hexValue b) :: hexDecode rest
  | _ => []
  end.

(** The three patterns of a key line: METHOD= and a run of non-commas;
    URI= and a quoted run of non-quotes; IV=0x and a run of hex digits. *)
Definition dquote : ascii := "034"%char.
Definition methodMatch : string -> option string :=
  matchAfter "METHOD=" (fun c => negb (Ascii.eqb c ","%char)) None.
Definition uriMatch : string -> option string :=
  matchAfter ("URI=" +:+ String dquote EmptyString)
             (fun c => negb (Ascii.eqb c dquote)) (Some dquote).
Definition ivMatch : string -> option string :=
  matchAfter "IV=0x" isHexDigit None.

Record KeyInfo : Type := {
  aesKey : option Buffer;
  aesIV : option Buffer;
  aesMethod : option string
}.

Definition noKey : KeyInfo := {| aesKey := None; aesIV := None; aesMethod := None |}.

Definition keyLine (net : Network) (m3u8Url : URL) (baseUrl : string)
    (k : KeyInfo) (line : string) : Result KeyInfo :=
  let trimmed := JS.trim line in
  if JS.startsWith "#EXT-X-KEY:" trimmed then
    let method := match methodMatch trimmed with
                  | Some m => Some m
                  | None => aesMethod k
                  end in
    let k := {| aesKey := aesKey k; aesIV := aesIV k; aesMethod := method |} in
    match method, uriMatch trimmed with
    | Some m, Some uri =>
        if negb (String.eqb m "NONE") then
          let keyUrl := resolve m3u8Url baseUrl uri in
          key ← downloadSegmentToBuffer net keyUrl;
          Ok {| aesKey := Some key;
                aesIV := match ivMatch trimmed with
                         | Some digits => Some (hexDecode digits)
                         | None => aesIV k
                         end;
                aesMethod := method |}
        else Ok k
    | _, _ => Ok k
    end
  else Ok k.

Fixpoint discoverKey (net : Network) (m3u8Url : URL) (baseUrl : string)
    (k : KeyInfo) (lines : list string) : Result KeyInfo :=
  match lines with
  | [] => Ok k
  | line :: rest =>
      k' ← keyLine net m3u8Url baseUrl k line;
      discoverKey net m3u8Url baseUrl k' rest
  end.

(** What the segment loop works from. *)
Record Plan : Type := {
  tsUrls : list string;
  keyInfo : KeyInfo
}.

(** Lines 218-262: from the fetched manifest to the media playlist and
    the URL the task keeps.  The URL is returned beside the result, as
    the task keeps its value when a later step throws. *)
Definition dereferenceMaster (P : Platform) (net : Network) (taskUrl m3u8Content : string)
  : string * Result string :=
  if JS.includes "#EXT-X-STREAM-INF" m3u8Content then
    match findMediaPlaylistUrl false (JS.split_lines m3u8Content) with
    | None => (taskUrl, Throw "无法从 master playlist 中找到 media playlist URL")
    | Some ref =>
        match resolveMediaPlaylistUrl P taskUrl ref with
        | Throw m => (taskUrl, Throw m)
        | Ok mediaPlaylistUrl =>
            match fetchContent net mediaPlaylistUrl with
            | Throw m => (taskUrl, Throw m)
            | Ok content => (mediaPlaylistUrl, Ok content)
            end
        end
    end
  else (taskUrl, Ok m3u8Content).

(** Lines 266-333: both passes over the media playlist. *)
Definition parseMediaPlaylist (P : Platform) (net : Network) (taskUrl m3u8Content : string)
  : Result Plan :=
  let lines := JS.split_lines m3u8Content in
  m3u8Url ← parse_url P taskUrl;
  let baseUrl := directoryOf (href m3u8Url) in
  k ← discoverKey net m3u8Url baseUrl noKey lines;
  let urls := segmentUrls m3u8Url baseUrl lines in
  if (length urls =? 0)%nat then Throw "未找到视频片段"
  else Ok {| tsUrls := urls; keyInfo := k |}.

(** The two kinds of line the master scan tells apart. *)
Definition isStreamInf (line : string) : bool :=
  JS.startsWith "#EXT-X-STREAM-INF" (JS.trim line).

Definition namesResource (line : string) : bool := isUri (JS.trim line).

End Playlist.


(** ** Tasks and the manager's state *)

Module Status.
Inductive t : Type := pending | downloading | completed | error.

Definition eqb (a b : t) : bool :=
  match a, b with
  | pending, pending | downloading, downloading
  | completed, completed | error, error => true
  | _, _ => false
  end.
End Status.

(** OfflineDownloadTask (lines 15-30) *)
Module Task.
Record t : Type := {
  id : string;
  url : string;
  source : string;
  videoId : string;
  videoTitle : string;
  episodeIndex : Z;
  status : Status.t;
  progress : Z;
  totalSize : Z;
  downloadedSize : Z;
  error : option string;
  createdAt : Z;
  filePath : option string;
  fileName : string
}.

Definition with_url (v : string) (k : t) : t :=
  {| id := id k; url := v; source := source k; videoId := videoId k;
     videoTitle := videoTitle k; episodeIndex := episodeIndex k;
     status := status k; progress := progress k; totalSize := totalSize k;
     downloadedSize := downloadedSize k; error := error k;
     createdAt := createdAt k; filePath := filePath k; fileName := fileName k |}.

Definition with_status (v : Status.t) (k : t) : t :=
  {| id := id k; url := url k; source := source k; videoId := videoId k;
     videoTitle := videoTitle k; episodeIndex := episodeIndex k;
     status := v; progress := progress k; totalSize := totalSize k;
     downloadedSize := downloadedSize k; error := error k;
     createdAt := createdAt k; filePath := filePath k; fileName := fileName k |}.

Definition with_progress (v : Z) (k : t) : t :=
  {| id := id k; url := url k; source := source k; videoId := videoId k;
     videoTitle := videoTitle k; episodeIndex := episodeIndex k;
     status := status k; progress := v; totalSize := totalSize k;
     downloadedSize := downloadedSize k; error := error k;
     createdAt := createdAt k; filePath := filePath k; fileName := fileName k |}.

Definition with_totalSize (v : Z) (k : t) : t :=
  {| id := id k; url := url k; source := source k; videoId := videoId k;
     videoTitle := videoTitle k; episodeIndex := episodeIndex k;
     status := status k; progress := progress k; totalSize := v;
     downloadedSize := downloadedSize k; error := error k;
     createdAt := createdAt k; filePath := filePath k; fileName := fileName k |}.

Definition with_downloadedSize (v : Z) (k : t) : t :=
  {| id := id k; url := url k; source := source k; videoId := videoId k;
     videoTitle := videoTitle k; episodeIndex := episodeIndex k;
     status := status k; progress := progress k; totalSize := totalSize k;
     downloadedSize := v; error := error k;
     createdAt := createdAt k; filePath := filePath k; fileName := fileName k |}.

Definition with_error (v : option string) (k : t) : t :=
  {| id := id k; url := url k; source := source k; videoId := videoId k;
     videoTitle := videoTitle k; episodeIndex := episodeIndex k;
     status := status k; progress := progress k; totalSize := totalSize k;
     downloadedSize := downloadedSize k; error := v;
     createdAt := createdAt k; filePath := filePath k; fileName := fileName k |}.

Definition with_filePath (v : option string) (k : t) : t :=
  {| id := id k; url := url k; source := source k; videoId := videoId k;
     videoTitle := videoTitle k; episodeIndex := episodeIndex k;
     status := status k; progress := progress k; totalSize := totalSize k;
     downloadedSize := downloadedSize k; error := error k;
     createdAt := createdAt k; filePath := v; fileName := fileName k |}.
End Task.

(** A JavaScript [Map] with string keys: the entries in insertion order;
    [set] on a present key replaces the value where the entry stands. *)
Module JsMap.
Section Ops.
Context {V : Type}.

Fixpoint get (k : string) (m : list (string * V)) : option V :=
  match m with
  | [] => None
  | (k', v) :: rest => if String.eqb k' k then Some v else get k rest
  end.

Fixpoint set (k : string) (v : V) (m : list (string * V)) : list (string * V) :=
  match m with
  | [] => [(k, v)]
  | (k', v') :: rest =>
      if String.eqb k' k then (k, v) :: rest else (k', v') :: set k v rest
  end.

Fixpoint delete (k : string) (m : list (string * V)) : list (string * V) :=
  match m with
  | [] => []
  | (k', v') :: rest =>
      if String.eqb k' k then rest else (k', v') :: delete k rest
  end.

Definition values (m : list (string * V)) : list V := map snd m.
End Ops.
End JsMap.

(** The manager's fields (lines 33-36), the objects they refer to, and the
    files.  A task or a controller is an object shared by reference: the
    Map holds its index in [heap] (in [controllers]), and so does a
    running download. *)
Record Manager : Type := {
  heap : list Task.t;
  tasks : list (string * nat);
  controllers : list bool;                (* signal.aborted of each controller *)
  activeDownloads : list (string * nat);
  downloadDir : string;
  disk : gmap string Buffer;              (* the video files, by path *)
  metadataFile : option (list Task.t)     (* what metadata.json holds *)
}.

Definition set_heap (v : list Task.t) (m : Manager) : Manager :=
  {| heap := v; tasks := tasks m; controllers := controllers m;
     activeDownloads := activeDownloads m; downloadDir := downloadDir m;
     disk := disk m; metadataFile := metadataFile m |}.

Definition set_tasks (v : list (string * nat)) (m : Manager) : Manager :=
  {| heap := heap m; tasks := v; controllers := controllers m;
     activeDownloads := activeDownloads m; downloadDir := downloadDir m;
     disk := disk m; metadataFile := metadataFile m |}.

Definition set_controllers (v : list bool) (m : Manager) : Manager :=
  {| heap := heap m; tasks := tasks m; controllers := v;
     activeDownloads := activeDownloads m; downloadDir := downloadDir m;
     disk := disk m; metadataFile := metadataFile m |}.

Definition set_activeDownloads (v : list (string * nat)) (m : Manager) : Manager :=
  {| heap := heap m; tasks := tasks m; controllers := controllers m;
     activeDownloads := v; downloadDir := downloadDir m;
     disk := disk m; metadataFile := metadataFile m |}.

Definition set_disk (v : gmap string Buffer) (m : Manager) : Manager :=
  {| heap := heap m; tasks := tasks m; controllers := controllers m;
     activeDownloads := activeDownloads m; downloadDir := downloadDir m;
     disk := v; metadataFile := metadataFile m |}.

Definition set_metadataFile (v : option (list Task.t)) (m : Manager) : Manager :=
  {| heap := heap m; tasks := tasks m; controllers := controllers m;
     activeDownloads := activeDownloads m; downloadDir := downloadDir m;
     disk := disk m; metadataFile := v |}.

(** The manager of a process that found no metadata file. *)
Definition emptyManager (dir : string) : Manager :=
  {| heap := []; tasks := []; controllers := []; activeDownloads := [];
     downloadDir := dir; disk := ∅; metadataFile := None |}.

(** Assignment to a field of the task object at [ref]. *)
Definition mutate (ref : nat) (f : Task.t -> Task.t) (m : Manager) : Manager :=
  set_heap (alter f ref (heap m)) m.

(** [Array.from(this.tasks.values())] *)
Definition taskValues (m : Manager) : list Task.t :=
  omap (fun ref => heap m !! ref) (JsMap.values (tasks m)).

(** getTask (lines 502-504) and getTasks (lines 498-500) *)
Definition getTask (m : Manager) (taskId : string) : option Task.t :=
  ref ← JsMap.get taskId (tasks m); heap m !! ref.
Definition getTasks (m : Manager) : list Task.t := taskValues m.

(** saveMetadata (lines 67-74); the write is taken to succeed (a failing
    one is logged and changes nothing). *)
Definition saveMetadata (m : Manager) : Manager :=
  set_metadataFile (Some (taskValues m)) m.

(** generateFileName (lines 76-78) *)
Definition generateFileName (source videoId : string) (episodeIndex : Z) : string :=
  source +:+ "_" +:+ videoId +:+ "_" +:+ JS.numberToString episodeIndex +:+ ".ts".

(** ** Downloads

    An [async] function runs without interruption from one [await] to the
    next.  A download in progress is the [await] it is suspended at,
    together with its local variables; [resume] runs it to its next
    [await].  Other calls of the manager take place between two such
    steps.  The awaits of the playlist phase that follow the fetch of the
    manifest (media playlist, key) and the back-off of a segment's
    attempts are passed without suspending. *)

Inductive Run : Type :=
| AwaitCallerSave (taskId : string)
    (* addTask line 123, retryTask line 492: startDownload(taskId) comes next *)
| AwaitStartSave (task : nat)                               (* line 137 *)
| AwaitManifest (task controller : nat) (url : string)      (* line 214 *)
| AwaitSegment (task controller : nat) (plan : Playlist.Plan) (i : nat)
    (segmentBuffers : list Buffer)                          (* line 351 *)
| AwaitSegmentSave (task controller : nat) (plan : Playlist.Plan) (i : nat)
    (segmentBuffers : list Buffer)                          (* line 362 *)
| AwaitWrite (task : nat) (videoFilePath : string) (mergedBuffer : Buffer)
                                                            (* line 372 *)
| AwaitResponse (task : nat) (filePath url : string)        (* line 166 *)
| AwaitChunk (task : nat) (filePath : string) (totalSize downloadedSize : Z)
    (rest : list Buffer) (streamError : option string)      (* lines 178-197 *)
| AwaitEndSave                                              (* lines 149, 154 *)
| Finished.

Definition forget (taskId : string) (m : Manager) : Manager :=
  set_activeDownloads (JsMap.delete taskId (activeDownloads m)) m.

Definition cancelled : string := "下载已取消".

(** The [catch] of startDownload (lines 150-155). *)
Definition failed (task : nat) (message : string) (m : Manager) : Manager * Run :=
  let m := mutate task (Task.with_status Status.error) m in
  let m := mutate task (Task.with_error (Some message)) m in
  (saveMetadata m, AwaitEndSave).

(** The [catch] of downloadM3u8 (lines 378-381), then that of
    startDownload. *)
Definition failedM3u8 (task : nat) (taskId message : string) (m : Manager)
  : Manager * Run :=
  failed task message (forget taskId m).

(** The end of startDownload's [try] (lines 147-149). *)
Definition succeeded (task : nat) (m : Manager) : Manager * Run :=
  let m := mutate task (Task.with_status Status.completed) m in
  let m := mutate task (Task.with_progress 100) m in
  (saveMetadata m, AwaitEndSave).

(** startDownload up to its first [await] (lines 131-137). *)
Definition startDownload (m : Manager) (taskId : string) : Manager * Run :=
  match JsMap.get taskId (tasks m) with
  | None => (m, Finished)
  | Some task =>
      let m := mutate task (Task.with_status Status.downloading) m in
      (saveMetadata m, AwaitStartSave task)
  end.

(** The head of the segment loop (lines 343-351) and, past the last
    segment, the merge (lines 365-372). *)
Definition segmentLoop (m : Manager) (task controller : nat) (plan : Playlist.Plan)
    (i : nat) (segmentBuffers : list Buffer) : Manager * Run :=
  match heap m !! task with
  | None => (m, Finished)
  | Some t =>
      if (i <? length (Playlist.tsUrls plan))%nat then
        if default false (controllers m !! controller)
        then failedM3u8 task (Task.id t) cancelled m
        else (m, AwaitSegment task controller plan i segmentBuffers)
      else
        let mergedBuffer := mjoin segmentBuffers in
        let videoFileName :=
          Task.source t +:+ "_" +:+ Task.videoId t +:+ "_"
          +:+ JS.numberToString (Task.episodeIndex t) +:+ ".ts" in
        let videoFilePath := Path.join (downloadDir m) videoFileName in
        (m, AwaitWrite task videoFilePath mergedBuffer)
  end.

(** [aesKey && aesMethod === 'AES-128'] (line 354) *)
Definition decryptIfNeeded (P : Platform) (k : Playlist.KeyInfo) (segmentBuffer : Buffer)
    (i : nat) : Buffer :=
  match Playlist.aesKey k, Playlist.aesMethod k with
  | Some key, Some method =>
      if String.eqb method "AES-128"
      then Crypto.decryptAES128 P segmentBuffer key (Playlist.aesIV k) (Z.of_nat i)
      else segmentBuffer
  | _, _ => segmentBuffer
  end.

(** [task.progress] of the direct download (line 181). *)
Definition fileProgress (downloadedSize totalSize : Z) : Z :=
  if 0 <? totalSize then JS.percent downloadedSize totalSize else 0.

Section Engine.
Context (P : Platform) (net : Network).

Definition resume (m : Manager) (r : Run) : Manager * Run :=
  match r with
  | AwaitCallerSave taskId => startDownload m taskId
  | AwaitStartSave task =>
      match heap m !! task with
      | None => (m, Finished)
      | Some t =>
          let isM3u8 := JS.includes ".m3u8" (JS.toLowerCase (Task.url t)) in
          let controller := length (controllers m) in
          if isM3u8 then
            (* downloadM3u8, lines 208-214 *)
            let m := set_controllers (controllers m ++ [false]) m in
            let m := set_activeDownloads
                       (JsMap.set (Task.id t) controller (activeDownloads m)) m in
            (m, AwaitManifest task controller (Task.url t))
          else
            (* downloadFile, lines 159-166 *)
            let filePath := Path.join (downloadDir m) (Task.fileName t) in
            let m := set_controllers (controllers m ++ [false]) m in
            let m := set_activeDownloads
                       (JsMap.set (Task.id t) controller (activeDownloads m)) m in
            (m, AwaitResponse task filePath (Task.url t))
      end
  | AwaitManifest task controller url =>
      match heap m !! task with
      | None => (m, Finished)
      | Some t =>
          match fetchContent net url with
          | Throw e => failedM3u8 task (Task.id t) e m
          | Ok m3u8Content =>
              let '(url', content) :=
                Playlist.dereferenceMaster P net (Task.url t) m3u8Content in
              let m := mutate task (Task.with_url url') m in
              match content ≫= Playlist.parseMediaPlaylist P net url' with
              | Throw e => failedM3u8 task (Task.id t) e m
              | Ok plan =>
                  let m := mutate task
                    (Task.with_totalSize (Z.of_nat (length (Playlist.tsUrls plan)))) m in
                  segmentLoop m task controller plan 0 []
              end
          end
      end
  | AwaitSegment task controller plan i segmentBuffers =>
      match heap m !! task, Playlist.tsUrls plan !! i with
      | Some t, Some tsUrl =>
          match downloadSegmentToBuffer net tsUrl with
          | Throw e => failedM3u8 task (Task.id t) e m
          | Ok segmentBuffer =>
              let segmentBuffer :=
                decryptIfNeeded P (Playlist.keyInfo plan) segmentBuffer i in
              let m := mutate task (Task.with_downloadedSize (Z.of_nat i + 1)) m in
              let m := mutate task
                (Task.with_progress
                   (JS.percent (Z.of_nat i + 1)
                               (Z.of_nat (length (Playlist.tsUrls plan))))) m in
              (saveMetadata m,
               AwaitSegmentSave task controller plan i (segmentBuffers ++ [segmentBuffer]))
          end
      | _, _ => (m, Finished)
      end
  | AwaitSegmentSave task controller plan i segmentBuffers =>
      segmentLoop m task controller plan (S i) segmentBuffers
  | AwaitWrite task videoFilePath mergedBuffer =>
      match heap m !! task with
      | None => (m, Finished)
      | Some t =>
          let m := set_disk (<[videoFilePath := mergedBuffer]> (disk m)) m in
          let m := mutate task (Task.with_filePath (Some videoFilePath)) m in
          succeeded task (forget (Task.id t) m)
      end
  | AwaitResponse task filePath url =>
      match heap m !! task with
      | None => (m, Finished)
      | Some t =>
          match get_stream net url with
          | NetError e => failed task e (forget (Task.id t) m)
          | Response statusCode body =>
              if negb (statusCode =? 200) then
                failed task (http_status_error statusCode) m
              else
                let totalSize := default 0 (contentLength body) in
                let m := mutate task (Task.with_totalSize totalSize) m in
                let m := set_disk (<[filePath := []]> (disk m)) m in
                (m, AwaitChunk task filePath totalSize 0 (chunks body) (streamError body))
          end
      end
  | AwaitChunk task filePath totalSize downloadedSize rest streamError =>
      match heap m !! task with
      | None => (m, Finished)
      | Some t =>
          match rest with
          | chunk :: rest' =>
              let downloadedSize := downloadedSize + Z.of_nat (length chunk) in
              let m := mutate task (Task.with_downloadedSize downloadedSize) m in
              let m := mutate task
                (Task.with_progress (fileProgress downloadedSize totalSize)) m in
              let m := set_disk (alter (fun b : Buffer => (b ++ chunk)%list) filePath (disk m)) m in
              (m, AwaitChunk task filePath totalSize downloadedSize rest' streamError)
          | [] =>
              match streamError with
              | Some e => failed task e (forget (Task.id t) m)
              | None =>
                  let m := mutate task (Task.with_filePath (Some filePath)) m in
                  succeeded task (forget (Task.id t) m)
              end
          end
      end
  | AwaitEndSave => (m, Finished)
  | Finished => (m, Finished)
  end.

(** [n] steps of one download, nothing else happening in between. *)
Fixpoint resumeN (n : nat) (m : Manager) (r : Run) : Manager * Run :=
  match n with
  | O => (m, r)
  | S n' => let '(m', r') := resume m r in resumeN n' m' r'
  end.
End Engine.

(** ** The calls of the manager *)

Module TaskData.
Record t : Type := {
  url : string;
  source : string;
  videoId : string;
  videoTitle : string;
  episodeIndex : Z
}.
End TaskData.

Definition sameContent (taskData : TaskData.t) (task : Task.t) : bool :=
  String.eqb (Task.source task) (TaskData.source taskData)
  && String.eqb (Task.videoId task) (TaskData.videoId taskData)
  && (Task.episodeIndex task =? TaskData.episodeIndex taskData).

(** The test of line 97. *)
Definition blocksResubmission (s : Status.t) : bool :=
  Status.eqb s Status.completed || Status.eqb s Status.downloading
  || Status.eqb s Status.pending.

Definition newTask (taskData : TaskData.t) (taskId : string) (now : Z) : Task.t :=
  {| Task.id := taskId;
     Task.url := TaskData.url taskData;
     Task.source := TaskData.source taskData;
     Task.videoId := TaskData.videoId taskData;
     Task.videoTitle := TaskData.videoTitle taskData;
     Task.episodeIndex := TaskData.episodeIndex taskData;
     Task.status := Status.pending;
     Task.progress := 0;
     Task.totalSize := 0;
     Task.downloadedSize := 0;
     Task.error := None;
     Task.createdAt := now;
     Task.filePath := None;
     Task.fileName := generateFileName (TaskData.source taskData)
                        (TaskData.videoId taskData) (TaskData.episodeIndex taskData) |}.

(** [this.tasks.set(task.id, task)] for a new object. *)
Definition store (task : Task.t) (m : Manager) : Manager :=
  let ref := length (heap m) in
  set_tasks (JsMap.set (Task.id task) ref (tasks m)) (set_heap (heap m ++ [task]) m).

(** addTask (lines 80-129).  [taskId] is the draw of
    [crypto.randomBytes(16).toString('hex')] and [now] that of
    [Date.now()].  The result is the manager, the id returned, and the
    download started (suspended at line 123), if any. *)
Definition addTask (m : Manager) (taskData : TaskData.t) (taskId : string) (now : Z)
  : Manager * string * Run :=
  let create :=
    let m := store (newTask taskData taskId now) m in
    (saveMetadata m, taskId, AwaitCallerSave taskId) in
  match List.find (sameContent taskData) (taskValues m) with
  | Some existingTask =>
      if blocksResubmission (Task.status existingTask)
      then (m, Task.id existingTask, Finished)
      else create
  | None => create
  end.

(** retryTask (lines 477-496), up to its [await]. *)
Definition retryTask (m : Manager) (taskId : string) : Result (Manager * Run) :=
  match JsMap.get taskId (tasks m) with
  | None => Throw "任务不存在"
  | Some task =>
      match heap m !! task with
      | None => Throw "任务不存在"
      | Some t =>
          if Status.eqb (Task.status t) Status.downloading then Throw "任务正在下载中"
          else
            let m := mutate task (Task.with_status Status.pending) m in
            let m := mutate task (Task.with_progress 0) m in
            let m := mutate task (Task.with_downloadedSize 0) m in
            let m := mutate task (Task.with_error None) m in
            Ok (saveMetadata m, AwaitCallerSave taskId)
      end
  end.

(** The removal of the output (lines 518-537).  The directory branch
    unlinks the files of the directory; a failing removal is logged and
    nothing more. *)
Definition removeOutput (filePath : string) (m : Manager) : Manager :=
  let isM3u8 := JS.endsWith ".m3u8" filePath in
  if isM3u8 then
    let videoDir := Path.dirname filePath in
    set_disk (filter (fun entry => Path.dirname entry.1 <> videoDir) (disk m)) m
  else set_disk (delete filePath (disk m)) m.

(** deleteTask (lines 506-541), its awaits passed without suspending. *)
Definition deleteTask (m : Manager) (taskId : string) : Manager :=
  match getTask m taskId with
  | None => m
  | Some task =>
      let m :=
        match JsMap.get taskId (activeDownloads m) with
        | Some controller =>
            forget taskId (set_controllers (<[controller := true]> (controllers m)) m)
        | None => m
        end in
      let m :=
        match Task.filePath task with
        | Some filePath => if JS.truthy filePath then removeOutput filePath m else m
        | None => m
        end in
      saveMetadata (set_tasks (JsMap.delete taskId (tasks m)) m)
  end.

(** The loop of init (lines 53-60) over the tasks read from the metadata
    file: the downloads restarted come back in the order of the file. *)
Fixpoint restore (m : Manager) (persisted : list Task.t) : Manager * list Run :=
  match persisted with
  | [] => (m, [])
  | task :: rest =>
      let ref := length (heap m) in
      let m := store task m in
      if Status.eqb (Task.status task) Status.downloading
         || Status.eqb (Task.status task) Status.pending then
        let m := mutate ref (Task.with_status Status.pending) m in
        let '(m, r) := startDownload m (Task.id task) in
        let '(m, rs) := restore m rest in
        (m, r :: rs)
      else restore m rest
  end.

(** init (lines 44-65) of a process that finds [files] on the disk and
    [metadata] in the metadata file. *)
Definition init (dir : string) (files : gmap string Buffer)
    (metadata : option (list Task.t)) : Manager * list Run :=
  let m := set_metadataFile metadata (set_disk files (emptyManager dir)) in
  match metadata with
  | None => (m, [])
  | Some persisted => restore m persisted
  end.

(** getOfflineVideo (lines 543-552) *)
Definition getOfflineVideo (m : Manager) (source videoId : string) (episodeIndex : Z)
  : option string :=
  let filePath := Path.join (downloadDir m) (generateFileName source videoId episodeIndex) in
  if decide (is_Some (disk m !! filePath)) then Some filePath else None.

(** The progress values that the segments of a playlist of [n] segments
    set one after the other (line 361), and the test that they stay
    within 0 and 100 and never go down. *)
Definition segmentProgress (n : nat) : list Z :=
  map (fun i => JS.percent (Z.of_nat i + 1) (Z.of_nat n)) (seq 0 n).

Fixpoint ascending (previous : Z) (values : list Z) : bool :=
  match values with
  | [] => true
  | v :: rest => (previous <=? v) && (v <=? 100) && ascending v rest
  end.

Definition statusOf (m : Manager) (ref : nat) : option Status.t :=
  Task.status <$> heap m !! ref.
Definition progressOf (m : Manager) (ref : nat) : option Z :=
  Task.progress <$> heap m !! ref.
Definition errorOf (m : Manager) (ref : nat) : option (option string) :=
  Task.error <$> heap m !! ref.

(** ** The manager and its downloads together *)

Record World : Type := {
  manager : Manager;
  runs : list Run
}.

Definition initialWorld (dir : string) : World :=
  {| manager := emptyManager dir; runs := [] |}.

(** One event of the process: a call of the manager, or one download
    running to its next [await]. *)
Inductive step (P : Platform) (net : Network) : World -> World -> Prop :=
| step_addTask w taskData taskId now m' returned r :
    addTask (manager w) taskData taskId now = (m', returned, r) ->
    step P net w {| manager := m'; runs := runs w ++ [r] |}
| step_retryTask w taskId m' r :
    retryTask (manager w) taskId = Ok (m', r) ->
    step P net w {| manager := m'; runs := runs w ++ [r] |}
| step_deleteTask w taskId :
    step P net w {| manager := deleteTask (manager w) taskId; runs := runs w |}
| step_resume w i r m' r' :
    runs w !! i = Some r ->
    resume P net (manager w) r = (m', r') ->
    step P net w {| manager := m'; runs := <[i := r']> (runs w) |}.

Definition reachable (P : Platform) (net : Network) (dir : string) (w : World) : Prop :=
  rtc (step P net) (initialWorld dir) w.

(** A schedule is a sequence of events to perform; a call that throws and
    the resumption of a download that does not exist change nothing. *)
Inductive Event : Type :=
| CallAddTask (taskData : TaskData.t) (taskId : string) (now : Z)
| CallRetryTask (taskId : string)
| CallDeleteTask (taskId : string)
| Resume (i : nat).

Definition perform (P : Platform) (net : Network) (w : World) (e : Event) : World :=
  match e with
  | CallAddTask taskData taskId now =>
      let '(m', _, r) := addTask (manager w) taskData taskId now in
      {| manager := m'; runs := runs w ++ [r] |}
  | CallRetryTask taskId =>
      match retryTask (manager w) taskId with
      | Ok (m', r) => {| manager := m'; runs := runs w ++ [r] |}
      | Throw _ => w
      end
  | CallDeleteTask taskId =>
      {| manager := deleteTask (manager w) taskId; runs := runs w |}
  | Resume i =>
      match runs w !! i with
      | Some r =>
          let '(m', r') := resume P net (manager w) r in
          {| manager := m'; runs := <[i := r']> (runs w) |}
      | None => w
      end
  end.

Definition schedule (P : Platform) (net : Network) (dir : string)
    (events : list Event) : World :=
  fold_left (perform P net) events (initialWorld dir).

(** What every task and download of the manager satisfies: the file name
    is the generated one, and a path held for the output ends in .ts. *)
Definition tidyTask (t : Task.t) : Prop :=
  Task.fileName t
    = generateFileName (Task.source t) (Task.videoId t) (Task.episodeIndex t)
  /\ forall p, Task.filePath t = Some p -> JS.endsWith ".ts" p = true.

Definition tidyRun (r : Run) : Prop :=
  match r with
  | AwaitWrite _ p _ | AwaitResponse _ p _ | AwaitChunk _ p _ _ _ _ =>
      JS.endsWith ".ts" p = true
  | _ => True
  end.

Definition tidy (w : World) : Prop :=
  Forall tidyTask (heap (manager w)) /\ Forall tidyRun (runs w).


Definition isHlsRun (r : Run) : bool :=
  match r with AwaitManifest _ _ _ => true | _ => false end.

Definition isFileRun (r : Run) : bool :=
  match r with AwaitResponse _ _ _ => true | _ => false end.

(** ** Readings of the specification's words, for comparison *)

Module Spec.

(** The part of a URL before its query and fragment. *)
Fixpoint withoutQuery (s : string) : string :=
  match s with
  | EmptyString => EmptyString
  | String c s' =>
      if Ascii.eqb c "?"%char || Ascii.eqb c "#"%char then EmptyString
      else String c (withoutQuery s')
  end.

(** "The URL denotes an HLS manifest (detected by file extension of the
    URL)": the path ends in .m3u8, in either case. *)
Definition hasM3u8Extension (url : string) : bool :=
  JS.endsWith ".m3u8" (JS.toLowerCase (withoutQuery url)).

(** "Standard relative-URL rules (scheme-relative, absolute path, or
    same-directory relative)": a reference that starts with two slashes
    takes the scheme of the base, one that starts with one slash its
    scheme and host, any other its directory. *)
Definition resolveReference (base : URL) (ref : string) : string :=
  if JS.startsWith "//" ref then protocol base +:+ ref
  else if JS.startsWith "/" ref then protocol base +:+ "//" +:+ host base +:+ ref
  else Playlist.directoryOf (href base) +:+ ref.


(** The big-endian bytes of an unsigned 32-bit integer. *)
Definition bigEndian32 (i : Z) : Buffer :=
  [i / 2 ^ 24 mod 256; i / 2 ^ 16 mod 256; i / 2 ^ 8 mod 256; i mod 256].

End Spec.

(** ** A platform and networks to compute with

    A URL parser for plain http and https URLs in lower case (no
    credentials, dot segments, or characters the parser would escape),
    and a block function in place of AES. *)

Module Sample.

Definition endsHost (c : ascii) : bool :=
  Ascii.eqb c "/"%char || Ascii.eqb c "?"%char || Ascii.eqb c "#"%char.

Definition parseWith (scheme : string) (s : string) : option URL :=
  let prefix := scheme +:+ "//" in
  if JS.startsWith prefix s then
    let rest := Playlist.dropStr (String.length prefix) s in
    let h := Playlist.takeWhile (fun c => negb (endsHost c)) rest in
    let path := Playlist.dropStr (String.length h) rest in
    if JS.truthy h then
      Some {| protocol := scheme; host := h;
              href := prefix +:+ h +:+ (if JS.startsWith "/" path then path else "/" +:+ path) |}
    else None
  else None.

Definition parse (s : string) : option URL :=
  match parseWith "https:" s with
  | Some u => Some u
  | None => parseWith "http:" s
  end.

Definition parseRelative (ref base : string) : option URL :=
  match parse ref with
  | Some u => Some u
  | None => b ← parse base; parse (Spec.resolveReference b ref)
  end.

Definition platform : Platform :=
  {| new_URL := parse;
     new_URL_base := parseRelative;
     aes_encrypt_block := fun key b => Crypto.xor_bytes b key;
     aes_decrypt_block := fun key b => Crypto.xor_bytes b key |}.

(** A network that answers every request with a connection error. *)
Definition offline : Network :=
  {| get_text := fun _ => NetError "ECONNREFUSED";
     get_bytes := fun _ _ => NetError "ECONNREFUSED";
     get_stream := fun _ => NetError "ECONNREFUSED" |}.

(** A network that serves [master] under [masterUrl] and [media] under
    every other URL. *)
Definition site (masterUrl master media : string) : Network :=
  {| get_text := fun url =>
       Response 200 (if String.eqb url masterUrl then master else media);
     get_bytes := fun _ _ => Response 200 [71; 64; 17];
     get_stream := fun _ => NetError "ECONNREFUSED" |}.

Definition masterUrl : string := "https://host/a/master.m3u8".

(** A master playlist whose first variant is named relative to the
    scheme, and one whose first variant is named relative to the
    directory. *)
Definition schemeRelativeMaster : string :=
  "#EXTM3U
#EXT-X-STREAM-INF:BANDWIDTH=1280000
//cdn.example/v/media.m3u8
#EXT-X-STREAM-INF:BANDWIDTH=2560000
//cdn.example/v/high.m3u8
".

Definition relativeMaster : string :=
  "#EXTM3U
#EXT-X-STREAM-INF:BANDWIDTH=1280000

# first rendition
media.m3u8
#EXT-X-STREAM-INF:BANDWIDTH=2560000
high.m3u8
".

Definition mediaPlaylist : string :=
  "#EXTM3U
#EXT-X-TARGETDURATION:10
#EXTINF:9.5,
seg0.ts
#EXTINF:9.5,
/v/seg1.ts

#EXTINF:4,
https://other.example/seg2.ts
#EXT-X-ENDLIST
".

Definition episode : TaskData.t :=
  {| TaskData.url := "https://host/a/index.m3u8";
     TaskData.source := "src";
     TaskData.videoId := "42";
     TaskData.videoTitle := "title";
     TaskData.episodeIndex := 3 |}.

(** A media playlist of one segment. *)
Definition singleSegment : string :=
  "#EXTM3U
#EXTINF:9.5,
seg0.ts
#EXT-X-ENDLIST
".

(** A task as the metadata file holds it when the process stops half way
    through a download of three segments. *)
Definition interrupted : Task.t :=
  Task.with_totalSize 3
    (Task.with_downloadedSize 2
       (Task.with_progress 67
          (Task.with_status Status.downloading (newTask episode "id-a" 1)))).

(** The store after a first submission of [episode] that failed (nothing
    answers on the network) and a second one, just accepted. *)
Definition afterFailure : Manager :=
  let '(m, _, r) := addTask (emptyManager "/d") episode "id-a" 1 in
  (resumeN platform offline 4 m r).1.

Definition afterSecond : Manager := (addTask afterFailure episode "id-b" 2).1.1.

(** A download of [episode] suspended at the fetch of its only segment. *)
Definition inFlight : Manager * Run :=
  let '(m, _, r) := addTask (emptyManager "/d") episode "id-a" 1 in
  resumeN platform (site masterUrl relativeMaster singleSegment) 3 m r.

(** The same download of a playlist of three segments. *)
Definition inFlightOfThree : Manager * Run :=
  let '(m, _, r) := addTask (emptyManager "/d") episode "id-a" 1 in
  resumeN platform (site masterUrl relativeMaster mediaPlaylist) 3 m r.

(** A process that starts on a metadata file holding [interrupted]. *)
Definition restarted : Manager * list Run := init "/d" ∅ (Some [interrupted]).

(** A download of [episode] run to its end with nothing in between. *)
Definition finishedWorld : World :=
  schedule platform (site masterUrl relativeMaster singleSegment) "/d"
    [CallAddTask episode "id-a" 1; Resume 0; Resume 0; Resume 0; Resume 0;
     Resume 0; Resume 0; Resume 0].

Definition finishedTask : Task.t :=
  Task.with_filePath (Some "/d/src_42_3.ts")
    (Task.with_downloadedSize 1
       (Task.with_totalSize 1
          (Task.with_progress 100
             (Task.with_status Status.completed (newTask episode "id-a" 1))))).

(** The task of [afterFailure]. *)
Definition failedTask : Task.t :=
  Task.with_error (Some "ECONNREFUSED")
    (Task.with_status Status.error (newTask episode "id-a" 1)).

(** A segment of one block, a key, and the parsed URL of the playlist. *)
Definition oneBlock : Buffer := [1; 2; 3; 4; 5; 6; 7; 8; 9; 10; 11; 12; 13; 14; 15; 16].
Definition sampleKey : Buffer := replicate 16 7.
Definition playlistUrl : URL :=
  {| protocol := "https:"; host := "host"; href := "https://host/a/index.m3u8" |}.
Definition parsedMasterUrl : URL :=
  {| protocol := "https:"; host := "host"; href := masterUrl |}.

(** A media playlist without a segment. *)
Definition emptyPlaylist : string :=
  "#EXTM3U
#EXT-X-ENDLIST
".

(** A task whose URL names an MP4 file below a directory called a.m3u8.d. *)
Definition movieTask : Task.t :=
  newTask {| TaskData.url := "https://host/a.m3u8.d/movie.mp4";
             TaskData.source := "src"; TaskData.videoId := "42";
             TaskData.videoTitle := "title"; TaskData.episodeIndex := 1 |} "id-a" 0.

End Sample.

(** ** The store as a whole *)

(** The keys of a Map, in insertion order. *)
Definition mapKeys {V : Type} (m : list (string * V)) : list string := map fst m.

(** The fields of a task that no assignment of the source targets. *)
Definition sameIdentity (t t' : Task.t) : Prop :=
  Task.id t' = Task.id t
  /\ Task.source t' = Task.source t
  /\ Task.videoId t' = Task.videoId t
  /\ Task.videoTitle t' = Task.videoTitle t
  /\ Task.episodeIndex t' = Task.episodeIndex t
  /\ Task.createdAt t' = Task.createdAt t
  /\ Task.fileName t' = Task.fileName t.

(** From [m] to [m']: the download directory is the same and every task
    object is still there with its identity. *)
Definition evolves (m m' : Manager) : Prop :=
  downloadDir m' = downloadDir m
  /\ forall ref t, heap m !! ref = Some t ->
       exists t', heap m' !! ref = Some t' /\ sameIdentity t t'.

(** The two Maps hold each key once, and the task under a key is an
    object whose id is that key. *)
Definition storeOk (m : Manager) : Prop :=
  NoDup (mapKeys (tasks m))
  /\ Forall (fun entry => exists t, heap m !! entry.2 = Some t /\ Task.id t = entry.1)
       (tasks m)
  /\ NoDup (mapKeys (activeDownloads m)).

(** ** Where a download ends *)





(** The segment under [url] arrives as [body] (within the attempts of
    downloadSegmentToBuffer). *)
Definition fetched (net : Network) (url : string) (body : Buffer) : Prop :=
  downloadSegmentToBuffer net url = Ok body.

(** ** A start on a metadata file *)

(** The test of line 56. *)
Definition unfinished (t : Task.t) : bool :=
  Status.eqb (Task.status t) Status.downloading
  || Status.eqb (Task.status t) Status.pending.

(** A task of the file as init leaves it, and the downloads init starts
    for the tasks that come to stand at [ref] and after. *)
Definition reloaded (t : Task.t) : Task.t :=
  if unfinished t then Task.with_status Status.downloading t else t.

Fixpoint restartedFrom (ref : nat) (persisted : list Task.t) : list Run :=
  match persisted with
  | [] => []
  | t :: rest =>
      if unfinished t then AwaitStartSave ref :: restartedFrom (S ref) rest
      else restartedFrom (S ref) rest
  end.

(** ** The attempts at a segment *)

(** The request of attempt [attempt] at [url] throws. *)
Definition fails (net : Network) (url : string) (attempt : nat) : Prop :=
  exists e, get_segment net url attempt = Throw e.

(** ** More sample states *)

Module Scenario.

Definition hlsSite : Network :=
  Sample.site Sample.masterUrl Sample.relativeMaster Sample.mediaPlaylist.

Definition shortSite : Network :=
  Sample.site Sample.masterUrl Sample.relativeMaster Sample.singleSegment.

(** The store just after the submission of [Sample.episode]. *)
Definition submitted : World :=
  schedule Sample.platform shortSite "/d" [CallAddTask Sample.episode "id-a" 1].

(** The download of three segments, at the fetch of the first. *)
Definition fetching : World :=
  schedule Sample.platform hlsSite "/d"
    [CallAddTask Sample.episode "id-a" 1; Resume 0; Resume 0; Resume 0].

Definition threeSegments : Playlist.Plan :=
  {| Playlist.tsUrls :=
       ["https://host/a/seg0.ts"; "https://host/v/seg1.ts";
        "https://other.example/seg2.ts"];
     Playlist.keyInfo :=
       {| Playlist.aesKey := None; Playlist.aesIV := None; Playlist.aesMethod := None |} |}.

Definition segmentBody : Buffer := [71; 64; 17].

(** A file of three bytes that arrives in two chunks, on a server that
    answers 200, and a server that answers 404. *)
Definition movie : Stream :=
  {| contentLength := Some 3; chunks := [[1; 2]; [3]]; streamError := None |}.

Definition fileServer : Network :=
  {| get_text := fun _ => NetError "ECONNREFUSED";
     get_bytes := fun _ _ => NetError "ECONNREFUSED";
     get_stream := fun _ => Response 200 movie |}.

Definition refusing : Network :=
  {| get_text := fun _ => NetError "ECONNREFUSED";
     get_bytes := fun _ _ => NetError "ECONNREFUSED";
     get_stream := fun _ => Response 404 movie |}.

(** The store that holds [Sample.movieTask] and nothing else. *)
Definition withMovie : Manager := store Sample.movieTask (emptyManager "/d").

(** A network on which the first two requests of a segment fail. *)
Definition flaky : Network :=
  {| get_text := fun _ => NetError "ECONNREFUSED";
     get_bytes := fun _ attempt =>
       if (attempt <? 2)%nat then NetError "ECONNRESET" else Response 200 segmentBody;
     get_stream := fun _ => NetError "ECONNREFUSED" |}.

End Scenario.

(** ** The advertisement filter (filterAdsFromM3U8Default) *)

Module AdFilter.

Definition discontinuity : string := "#EXT-X-DISCONTINUITY".

(** The durations of lines 26-32. *)
Definition adDurations : list string :=
  ["EXTINF:5.640000"; "EXTINF:2.960000"; "EXTINF:3.480000"; "EXTINF:4.000000";
   "EXTINF:0.960000"; "EXTINF:10.000000"; "EXTINF:1.266667"].

(** The test of lines 25-32. *)
Definition isAdLine (type line : string) : bool :=
  String.eqb type "ruyi" && existsb (fun d => JS.includes d line) adDurations.

(** The loop of lines 14-40; [nextdelete] is the flag of line 13. *)
Fixpoint filterLines (type : string) (nextdelete : bool) (lines : list string)
  : list string :=
  match lines with
  | [] => []
  | line :: rest =>
      if nextdelete then filterLines type false rest
      else if negb (JS.includes discontinuity line) then
        if isAdLine type line then filterLines type true rest
        else line :: filterLines type false rest
      else filterLines type false rest
  end.

Definition filterAdsFromM3U8Default (type m3u8Content : string) : string :=
  if negb (JS.truthy m3u8Content) then ""
  else JS.join (String "010"%char "")
         (filterLines type false (JS.split_lines m3u8Content)).

(** A line that the loop keeps when it meets it with the flag down. *)
Definition kept (type line : string) : bool :=
  negb (JS.includes discontinuity line) && negb (isAdLine type line).

(** [c] is among the characters of [s]. *)
Fixpoint occurs (c : ascii) (s : string) : bool :=
  match s with
  | EmptyString => false
  | String x s' => Ascii.eqb x c || occurs c s'
  end.

End AdFilter.

Module AdSample.

(** A playlist with an inserted segment of 5.64 seconds between two
    discontinuity tags, and its lines without the tags and the segment. *)
Definition withAd : string :=
  "#EXTM3U
#EXTINF:9.5,
seg0.ts
#EXT-X-DISCONTINUITY
#EXTINF:5.640000,
ad0.ts
#EXT-X-DISCONTINUITY
#EXTINF:9.5,
seg1.ts
#EXT-X-ENDLIST".

Definition clean : string :=
  "#EXTM3U
#EXTINF:9.5,
seg0.ts
#EXTINF:9.5,
seg1.ts
#EXT-X-ENDLIST".

Definition tagsOnly : string :=
  "#EXTM3U
#EXTINF:9.5,
seg0.ts
#EXTINF:5.640000,
ad0.ts
#EXTINF:9.5,
seg1.ts
#EXT-X-ENDLIST".

End AdSample.

(** ** The handlers of /api/offline-download (route.ts)

    A handler takes the environment of the process, what
    getAuthInfoFromCookie returns for the request, the part of the
    request it reads and the manager; it returns the manager, the
    downloads it started and the response.  The awaits of a handler are
    passed with no step of another download in between. *)

Module Route.

Record Env : Type := {
  ENABLE_OFFLINE_DOWNLOAD : option string;
  USERNAME : option string
}.

(** What the handlers read of the object of getAuthInfoFromCookie. *)
Record AuthInfo : Type := { username : option string }.

Inductive Body : Type :=
| ErrorBody (error : string)
| MessageBody (message : string)
| TasksBody (tasks : list Task.t)
| CountsBody (success failed : nat) (message : string).

Record Response : Type := { status : Z; body : Body }.

(** [NextResponse.json(body)] and [NextResponse.json({ error }, { status })]. *)
Definition json (b : Body) : Response := {| status := 200; body := b |}.

Definition refuse (code : Z) (error : string) : Response :=
  {| status := code; body := ErrorBody error |}.

Definition disabled : string := "离线下载功能未启用".
Definition unauthorized : string := "未授权".
Definition forbidden : string := "权限不足，只有管理员和站长可以使用离线下载功能".
Definition missingTaskId : string := "缺少任务ID".
Definition deleted : string := "任务已删除".
Definition restartedMessage : string := "任务已重新开始".

(** Line 26 (and 100, 141, 192). *)
Definition userRole (env : Env) (authInfo : AuthInfo) : string :=
  if decide (username authInfo = USERNAME env) then "owner" else "admin".

(** The checks that open every handler (lines 8-32): the response that
    ends the handler, if one does. *)
Definition refusal (env : Env) (authInfo : option AuthInfo) : option Response :=
  let offlineDownloadEnabled :=
    bool_decide (ENABLE_OFFLINE_DOWNLOAD env = Some "true") in
  if negb offlineDownloadEnabled then Some (refuse 403 disabled)
  else
    match authInfo with
    | None => Some (refuse 401 unauthorized)
    | Some authInfo =>
        let userRole := userRole env authInfo in
        if negb (String.eqb userRole "owner") && negb (String.eqb userRole "admin")
        then Some (refuse 403 forbidden)
        else None
    end.

(** The rest of an awaited addTask or retryTask: startDownload up to its
    first await. *)
Definition proceed (m : Manager) (r : Run) : Manager * Run :=
  match r with
  | AwaitCallerSave taskId => startDownload m taskId
  | _ => (m, r)
  end.




(** GET *)
Definition GET (env : Env) (authInfo : option AuthInfo) (m : Manager) : Response :=
  match refusal env authInfo with
  | Some response => response
  | None => json (TasksBody (getTasks m))
  end.

(** DELETE.  [taskId] is [searchParams.get('taskId')]. *)
Definition DELETE (env : Env) (authInfo : option AuthInfo) (taskId : option string)
    (m : Manager) : Manager * Response :=
  match refusal env authInfo with
  | Some response => (m, response)
  | None =>
      match taskId with
      | Some taskId =>
          if negb (JS.truthy taskId) then (m, refuse 400 missingTaskId)
          else (deleteTask m taskId, json (MessageBody deleted))
      | None => (m, refuse 400 missingTaskId)
      end
  end.

(** PUT.  [taskId] is the field of the body, a string or missing. *)
Definition PUT (env : Env) (authInfo : option AuthInfo) (taskId : option string)
    (m : Manager) : Manager * list Run * Response :=
  match refusal env authInfo with
  | Some response => (m, [], response)
  | None =>
      match taskId with
      | Some taskId =>
          if negb (JS.truthy taskId) then (m, [], refuse 400 missingTaskId)
          else
            match retryTask m taskId with
            | Ok (m, r) =>
                let '(m, r) := proceed m r in
                (m, [r], json (MessageBody restartedMessage))
            | Throw message => (m, [], refuse 500 message)
            end
      | None => (m, [], refuse 400 missingTaskId)
      end
  end.

End Route.



Module RouteSample.

Definition env : Route.Env :=
  {| Route.ENABLE_OFFLINE_DOWNLOAD := Some "true"; Route.USERNAME := Some "root" |}.

(** A user who is not the owner of the site. *)
Definition visitor : Route.AuthInfo := {| Route.username := Some "alice" |}.



End RouteSample.

(** ** The handler of the play route (GET) *)

Module Play.

Inductive Response : Type :=
| JsonError (status : Z) (error : string)
| Video (contentType : string) (videoData : Buffer).

Definition missingParameters : string := "缺少必要参数".
Definition invalidEpisode : string := "无效的集数".
Definition noVideo : string := "离线视频不存在".
Definition serverError : string := "服务器错误".

(** Lines 618-627. *)
Definition contentTypeOf (offlineVideoPath : string) : string :=
  let ext := JS.toLowerCase (Path.extname offlineVideoPath) in
  if String.eqb ext ".mp4" then "video/mp4"
  else if String.eqb ext ".webm" then "video/webm"
  else if String.eqb ext ".mkv" then "video/x-matroska"
  else "video/mp2t".

(** [parseInt] is the reading of [parseInt(episodeIndex, 10)], [None]
    when it is NaN; [source], [videoId] and [episodeIndex] are the
    parameters of the query, [None] when absent. *)
Definition GET (parseInt : string -> option Z) (env : Route.Env)
    (authInfo : option Route.AuthInfo) (source videoId episodeIndex : option string)
    (m : Manager) : Response :=
  let offlineDownloadEnabled :=
    bool_decide (Route.ENABLE_OFFLINE_DOWNLOAD env = Some "true") in
  if negb offlineDownloadEnabled then JsonError 403 Route.disabled
  else
    match authInfo with
    | None => JsonError 401 Route.unauthorized
    | Some _ =>
        let source := default "" source in
        let videoId := default "" videoId in
        let episodeIndex := default "" episodeIndex in
        if negb (JS.truthy source) || negb (JS.truthy videoId)
           || negb (JS.truthy episodeIndex)
        then JsonError 400 missingParameters
        else
          match parseInt episodeIndex with
          | None => JsonError 400 invalidEpisode
          | Some episodeNum =>
              match getOfflineVideo m source videoId episodeNum with
              | None => JsonError 404 noVideo
              | Some offlineVideoPath =>
                  if negb (JS.truthy offlineVideoPath) then JsonError 404 noVideo
                  else
                    match disk m !! offlineVideoPath with
                    | Some videoData => Video (contentTypeOf offlineVideoPath) videoData
                    | None => JsonError 500 serverError
                    end
              end
          end
    end.

(** A reading of decimal digits, for the samples. *)
Definition digit (c : ascii) : option Z :=
  let n := Z.of_nat (nat_of_ascii c) in
  if (48 <=? n) && (n <=? 57) then Some (n - 48) else None.

Fixpoint readDigits (acc : Z) (s : string) : option Z :=
  match s with
  | EmptyString => Some acc
  | String c s' => d ← digit c; readDigits (10 * acc + d) s'
  end.

Definition readDecimal (s : string) : option Z :=
  if JS.truthy s then readDigits 0 s else None.

End Play.

(** ** The metadata file and the store *)


(** ** Key lines *)

(** The test of line 279. *)
Definition isKeyLine (line : string) : bool :=
  JS.startsWith "#EXT-X-KEY:" (JS.trim line).

Module KeySample.

(** A key line of method AES-128 with a key beside the playlist, and one
    that ends the encryption. *)
Definition aes128 : string :=
  "#EXT-X-KEY:METHOD=AES-128,URI=" +:+ String Playlist.dquote "key.bin"
  +:+ String Playlist.dquote "".

Definition none : string := "#EXT-X-KEY:METHOD=NONE".

(** A network that serves a key of sixteen bytes and segments of one
    block. *)
Definition keyServer : Network :=
  {| get_text := fun _ => NetError "ECONNREFUSED";
     get_bytes := fun url _ =>
       Response 200 (if JS.endsWith "key.bin" url then Sample.sampleKey
                     else Sample.oneBlock);
     get_stream := fun _ => NetError "ECONNREFUSED" |}.

Definition lines : list string :=
  ["#EXTM3U"; aes128; "#EXTINF:9.5,"; "seg0.ts"].

End KeySample.

(** ** Where the output of a task is *)

(** The file name of a task is the one made of its source, videoId and
    episodeIndex, and a recorded path is that name in [dir]. *)
Definition locatedTask (dir : string) (t : Task.t) : Prop :=
  Task.fileName t
    = generateFileName (Task.source t) (Task.videoId t) (Task.episodeIndex t)
  /\ forall p, Task.filePath t = Some p -> p = Path.join dir (Task.fileName t).

(** A download that holds a path holds the path of its task. *)
Definition locatedRun (dir : string) (h : list Task.t) (r : Run) : Prop :=
  match r with
  | AwaitWrite task p _ | AwaitResponse task p _ | AwaitChunk task p _ _ _ _ =>
      exists t, h !! task = Some t /\ p = Path.join dir (Task.fileName t)
  | _ => True
  end.

Definition located (dir : string) (w : World) : Prop :=
  downloadDir (manager w) = dir
  /\ Forall (locatedTask dir) (heap (manager w))
  /\ Forall (locatedRun dir (heap (manager w))) (runs w).

(** * Properties *)

(** ** Strings *)

Section StringFacts.
Import JS.

Lemma app_cons (x : ascii) (a b : string) : String x a +:+ b = String x (a +:+ b).
Proof. reflexivity. Qed.

Lemma app_nil (b : string) : "" +:+ b = b.
Proof. reflexivity. Qed.

Lemma app_assoc_str (a b c : string) : (a +:+ b) +:+ c = a +:+ (b +:+ c).
Proof. induction a as [|x a IH]; rewrite ?app_cons, ?app_nil; [done | by f_equal]. Qed.

Lemma startsWith_iff (p s : string) :
  startsWith p s = true <-> exists r, s = p +:+ r.
Proof.
  revert s. induction p as [|a p IH]; intros s; cbn [startsWith].
  - split; [intros _; by exists s | done].
  - destruct s as [|b s].
    + split; [done | intros [r Hr]; discriminate].
    + rewrite andb_true_iff, Ascii.eqb_eq, IH. split.
      * intros [-> [r ->]]. by exists r.
      * intros [r Hr]. rewrite app_cons in Hr. injection Hr as -> ->. eauto.
Qed.

Lemma startsWith_app (p r : string) : startsWith p (p +:+ r) = true.
Proof. apply startsWith_iff. by exists r. Qed.

Lemma includes_iff (sub s : string) :
  includes sub s = true <-> exists a b, s = a +:+ sub +:+ b.
Proof.
  induction s as [|c s IH]; cbn [includes].
  - rewrite orb_false_r, startsWith_iff. split.
    + intros [r Hr]. by exists "", r.
    + intros [a [b Hab]]. destruct a; [by exists b | discriminate].
  - rewrite orb_true_iff, startsWith_iff, IH. split.
    + intros [[r Hr] | [a [b Hab]]].
      * by exists "", r.
      * exists (String c a), b. rewrite app_cons. by rewrite Hab.
    + intros [a [b Hab]]. destruct a as [|x a].
      * left. by exists b.
      * right. rewrite app_cons in Hab. injection Hab as -> ->. by exists a, b.
Qed.

Lemma endsWith_iff (suf s : string) :
  endsWith suf s = true <-> exists a, s = a +:+ suf.
Proof.
  induction s as [|c s IH]; cbn [endsWith].
  - rewrite orb_false_r, String.eqb_eq. split.
    + intros <-. by exists "".
    + intros [a Ha]. destruct a; [done | discriminate].
  - rewrite orb_true_iff, String.eqb_eq, IH. split.
    + intros [<- | [a ->]]; [by exists "" | by exists (String c a)].
    + intros [a Ha]. destruct a as [|x a].
      * by left.
      * right. rewrite app_cons in Ha. injection Ha as -> ->. by exists a.
Qed.

Lemma endsWith_app (a suf : string) : endsWith suf (a +:+ suf) = true.
Proof. apply endsWith_iff. by exists a. Qed.

Lemma endsWith_app_l (a s suf : string) :
  endsWith suf s = true -> endsWith suf (a +:+ s) = true.
Proof.
  rewrite !endsWith_iff. intros [b ->]. exists (a +:+ b).
  by rewrite app_assoc_str.
Qed.

Lemma toLowerCase_app (a b : string) :
  toLowerCase (a +:+ b) = toLowerCase a +:+ toLowerCase b.
Proof.
  induction a as [|x a IH]; rewrite ?app_cons, ?app_nil; cbn [toLowerCase];
    rewrite ?app_cons; [done | by f_equal].
Qed.

Lemma length_app_str (a b : string) :
  String.length (a +:+ b) = (String.length a + String.length b)%nat.
Proof.
  induction a as [|x a IH]; rewrite ?app_cons, ?app_nil; simpl;
    [done | by f_equal].
Qed.

End StringFacts.

Lemma withoutQuery_prefix (s : string) : exists r, s = Spec.withoutQuery s +:+ r.
Proof.
  induction s as [|c s [r IH]]; cbn [Spec.withoutQuery].
  - by exists "".
  - destruct (_ || _).
    + by exists (String c s).
    + exists r. rewrite app_cons. by rewrite <- IH.
Qed.

(** ** The branch of startDownload *)

Section Branch.
Context (P : Platform) (net : Network).

Lemma resume_start_branch (m : Manager) (task : nat) (t : Task.t) :
  heap m !! task = Some t ->
  isHlsRun (resume P net m (AwaitStartSave task)).2
    = JS.includes ".m3u8" (JS.toLowerCase (Task.url t))
  /\ isFileRun (resume P net m (AwaitStartSave task)).2
    = negb (JS.includes ".m3u8" (JS.toLowerCase (Task.url t))).
Proof.
  intros Ht. cbn [resume]. rewrite Ht.
  by destruct (JS.includes ".m3u8" (JS.toLowerCase (Task.url t))).
Qed.

Lemma extension_gives_substring (url : string) :
  Spec.hasM3u8Extension url = true ->
  JS.includes ".m3u8" (JS.toLowerCase url) = true.
Proof.
  unfold Spec.hasM3u8Extension. rewrite endsWith_iff, includes_iff.
  intros [a Ha]. destruct (withoutQuery_prefix url) as [r Hr].
  exists a, (JS.toLowerCase r).
  rewrite Hr at 1. rewrite toLowerCase_app, Ha. by rewrite app_assoc_str.
Qed.

(** C8, as the code has it: the HLS path is taken exactly when the URL,
    in lower case, contains ".m3u8" somewhere, and the direct-file path
    otherwise; a URL whose path ends in .m3u8 is one such URL. *)
Theorem hls_path_iff_url_contains_m3u8 (m : Manager) (task : nat) (t : Task.t) :
  heap m !! task = Some t ->
  let r := (resume P net m (AwaitStartSave task)).2 in
  (isHlsRun r = true <-> exists a b, JS.toLowerCase (Task.url t) = a +:+ ".m3u8" +:+ b)
  /\ (isFileRun r = true <-> isHlsRun r = false)
  /\ (Spec.hasM3u8Extension (Task.url t) = true -> isHlsRun r = true).
Proof.
  intros Ht r. destruct (resume_start_branch m task t Ht) as [Hh Hf].
  subst r. rewrite Hh, Hf. split; [apply includes_iff | split].
  - by destruct (JS.includes _ _).
  - apply extension_gives_substring.
Qed.
End Branch.

(** The theorem at a task of a store, on the sample platform. *)
Lemma hls_path_iff_url_contains_m3u8_witness :
  let m := store Sample.movieTask (emptyManager "/d") in
  heap m !! 0%nat = Some Sample.movieTask /\
  let r := (resume Sample.platform Sample.offline m (AwaitStartSave 0)).2 in
  (isHlsRun r = true <->
     exists a b, JS.toLowerCase (Task.url Sample.movieTask) = a +:+ ".m3u8" +:+ b)
  /\ (isFileRun r = true <-> isHlsRun r = false)
  /\ (Spec.hasM3u8Extension (Task.url Sample.movieTask) = true -> isHlsRun r = true).
Proof.
  split; [reflexivity |].
  apply (hls_path_iff_url_contains_m3u8 Sample.platform Sample.offline
           (store Sample.movieTask (emptyManager "/d")) 0 Sample.movieTask).
  reflexivity.
Defined.

(** C8 as stated fails: the file this URL names has the extension .mp4,
    and the download takes the HLS path. *)
Lemma hls_path_taken_without_m3u8_extension :
  let m := store Sample.movieTask (emptyManager "/d") in
  Task.url Sample.movieTask = "https://host/a.m3u8.d/movie.mp4"
  /\ Spec.hasM3u8Extension (Task.url Sample.movieTask) = false
  /\ isHlsRun (resume Sample.platform Sample.offline m (AwaitStartSave 0)).2 = true
  /\ isFileRun (resume Sample.platform Sample.offline m (AwaitStartSave 0)).2 = false.
Proof. vm_compute. auto. Qed.

(** ** Segment enumeration *)

Section Directory.
Import JS.




End Directory.

Section Segments.
Import Playlist.
Context (m3u8Url : URL) (baseUrl : string).




End Segments.


(** ** The master playlist *)

Section Master.
Import Playlist.

Lemma streamInf_not_uri (line : string) :
  isStreamInf line = true -> namesResource line = false.
Proof.
  unfold isStreamInf, namesResource, isUri.
  intros [r Hr]%startsWith_iff. rewrite Hr.
  change ("#EXT-X-STREAM-INF" +:+ r) with ("#" +:+ ("EXT-X-STREAM-INF" +:+ r)).
  rewrite startsWith_app. apply andb_false_r.
Qed.

(** Past a variant line, the scan returns the first line that names a
    resource. *)
Lemma findMediaPlaylistUrl_after (lines : list string) (ref : string) :
  findMediaPlaylistUrl true lines = Some ref <->
  exists skipped line rest,
    lines = (skipped ++ line :: rest)%list
    /\ Forall (fun l => namesResource l = false) skipped
    /\ namesResource line = true /\ ref = JS.trim line.
Proof.
  induction lines as [|l lines IH]; cbn [findMediaPlaylistUrl].
  - split; [done |]. intros (s & x & r & H & _). by destruct s.
  - fold (isStreamInf l). fold (namesResource l). cbn [andb].
    destruct (isStreamInf l) eqn:Ei.
    + pose proof (streamInf_not_uri l Ei) as Hn. rewrite IH. split.
      * intros (s & x & r & -> & Hs & Hx & ->).
        exists (l :: s), x, r. repeat split; auto.
      * intros (s & x & r & H & Hs & Hx & ->). destruct s as [|l' s].
        -- simpl in H. injection H as -> ->. congruence.
        -- simpl in H. injection H as -> ->. inversion Hs; subst.
           exists s, x, r. repeat split; auto.
    + destruct (namesResource l) eqn:En.
      * split.
        -- intros [= <-]. exists [], l, lines. repeat split; auto.
        -- intros (s & x & r & H & Hs & Hx & ->). destruct s as [|l' s].
           ++ simpl in H. by injection H as -> ->.
           ++ simpl in H. injection H as -> ->. inversion Hs; subst. congruence.
      * rewrite IH. split.
        -- intros (s & x & r & -> & Hs & Hx & ->).
           exists (l :: s), x, r. repeat split; auto.
        -- intros (s & x & r & H & Hs & Hx & ->). destruct s as [|l' s].
           ++ simpl in H. injection H as -> ->. congruence.
           ++ simpl in H. injection H as -> ->. inversion Hs; subst.
              exists s, x, r. repeat split; auto.
Qed.

(** From the start, the scan first looks for a variant line. *)
Lemma findMediaPlaylistUrl_first (lines : list string) (ref : string) :
  findMediaPlaylistUrl false lines = Some ref <->
  exists before inf skipped line rest,
    lines = (before ++ inf :: skipped ++ line :: rest)%list
    /\ Forall (fun l => isStreamInf l = false) before
    /\ isStreamInf inf = true
    /\ Forall (fun l => namesResource l = false) skipped
    /\ namesResource line = true /\ ref = JS.trim line.
Proof.
  induction lines as [|l lines IH]; cbn [findMediaPlaylistUrl].
  - split; [done |]. intros (b & i & s & x & r & H & _). by destruct b.
  - fold (isStreamInf l). cbn [andb]. destruct (isStreamInf l) eqn:Ei.
    + rewrite findMediaPlaylistUrl_after. split.
      * intros (s & x & r & -> & Hs & Hx & ->).
        exists [], l, s, x, r. repeat split; auto.
      * intros (b & i & s & x & r & H & Hb & Hi & Hs & Hx & ->).
        destruct b as [|l' b].
        -- simpl in H. injection H as -> ->. by exists s, x, r.
        -- simpl in H. injection H as -> ->. inversion Hb; subst. congruence.
    + rewrite IH. split.
      * intros (b & i & s & x & r & -> & Hb & Hi & Hs & Hx & ->).
        exists (l :: b), i, s, x, r. repeat split; auto.
      * intros (b & i & s & x & r & H & Hb & Hi & Hs & Hx & ->).
        destruct b as [|l' b].
        -- simpl in H. injection H as -> ->. congruence.
        -- simpl in H. injection H as -> ->. inversion Hb; subst.
           exists b, i, s, x, r. repeat split; auto.
Qed.
End Master.

(** *** What a step leaves of a task's url *)

Section UrlKept.
Lemma url_mutate (f : Task.t -> Task.t) (task ref : nat) (m : Manager) :
  (forall t, Task.url (f t) = Task.url t) ->
  (Task.url <$> heap (mutate task f m) !! ref) = (Task.url <$> heap m !! ref).
Proof.
  intros Hf. unfold mutate. cbn. rewrite list_lookup_alter.
  case_decide; [| done]. subst. destruct (heap m !! ref); cbn; [by rewrite Hf | done].
Qed.

Lemma url_failed (task ref : nat) (e : string) (m : Manager) :
  (Task.url <$> heap (failed task e m).1 !! ref) = (Task.url <$> heap m !! ref).
Proof.
  unfold failed, saveMetadata, set_metadataFile. cbn [fst heap].
  by rewrite !url_mutate.
Qed.

Lemma url_failedM3u8 (task ref : nat) (taskId e : string) (m : Manager) :
  (Task.url <$> heap (failedM3u8 task taskId e m).1 !! ref)
  = (Task.url <$> heap m !! ref).
Proof. unfold failedM3u8. rewrite url_failed. by unfold forget. Qed.

Lemma url_segmentLoop (m : Manager) (task controller ref : nat)
    (plan : Playlist.Plan) (i : nat) (buffers : list Buffer) :
  (Task.url <$> heap (segmentLoop m task controller plan i buffers).1 !! ref)
  = (Task.url <$> heap m !! ref).
Proof.
  unfold segmentLoop. destruct (heap m !! task); [| done].
  destruct (_ <? _)%nat; [| done].
  destruct (default false _); [| done]. apply url_failedM3u8.
Qed.
End UrlKept.

Section Dereference.
Import Playlist.
Context (P : Platform) (net : Network).

Lemma resolveMediaPlaylistUrl_cases (taskUrl ref : string) (u : URL) :
  new_URL P taskUrl = Some u ->
  resolveMediaPlaylistUrl P taskUrl ref
  = if isHttp ref then Ok ref
    else if JS.startsWith "/" ref then Ok (protocol u +:+ "//" +:+ host u +:+ ref)
    else href <$> parse_url_base P ref (directoryOf taskUrl).
Proof.
  intros Hu. unfold resolveMediaPlaylistUrl, parse_url, isHttp. rewrite Hu.
  cbn [mbind Result_bind].
  destruct (JS.startsWith "http://" ref), (JS.startsWith "https://" ref),
    (JS.startsWith "/" ref); cbn; try done.
Qed.

(** C3, as the code has it.  In a master playlist the reference chosen
    is the first line naming a resource after the first variant line.
    It is kept when it starts with http:// or https://, put behind the
    scheme and host of the master URL when it starts with a slash (one
    or two), and handed with the directory of the master URL to the URL
    constructor otherwise.  The task's url becomes the result, and key
    and segment references are resolved against it. *)
Theorem master_playlist_first_variant_becomes_task_url
    (taskUrl m3u8Content : string) (u : URL) :
  JS.includes "#EXT-X-STREAM-INF" m3u8Content = true ->
  new_URL P taskUrl = Some u ->
  (forall ref,
      findMediaPlaylistUrl false (JS.split_lines m3u8Content) = Some ref <->
      exists before inf skipped line rest,
        JS.split_lines m3u8Content = (before ++ inf :: skipped ++ line :: rest)%list
        /\ Forall (fun l => isStreamInf l = false) before
        /\ isStreamInf inf = true
        /\ Forall (fun l => namesResource l = false) skipped
        /\ namesResource line = true /\ ref = JS.trim line)
  /\ (forall ref,
      resolveMediaPlaylistUrl P taskUrl ref
      = if isHttp ref then Ok ref
        else if JS.startsWith "/" ref then Ok (protocol u +:+ "//" +:+ host u +:+ ref)
        else href <$> parse_url_base P ref (directoryOf taskUrl))
  /\ (forall ref media content,
      findMediaPlaylistUrl false (JS.split_lines m3u8Content) = Some ref ->
      resolveMediaPlaylistUrl P taskUrl ref = Ok media ->
      fetchContent net media = Ok content ->
      dereferenceMaster P net taskUrl m3u8Content = (media, Ok content)
      /\ forall m task controller t fetched,
          heap m !! task = Some t -> Task.url t = taskUrl ->
          fetchContent net fetched = Ok m3u8Content ->
          let result := resume P net m (AwaitManifest task controller fetched) in
          (Task.url <$> heap result.1 !! task) = Some media
          /\ forall mediaUrl k,
              new_URL P media = Some mediaUrl ->
              let baseUrl := directoryOf (href mediaUrl) in
              let lines := JS.split_lines content in
              discoverKey net mediaUrl baseUrl noKey lines = Ok k ->
              segmentUrls mediaUrl baseUrl lines <> [] ->
              let plan := {| tsUrls := segmentUrls mediaUrl baseUrl lines;
                             keyInfo := k |} in
              result
              = segmentLoop
                  (mutate task (Task.with_totalSize (Z.of_nat (length (tsUrls plan))))
                     (mutate task (Task.with_url media) m))
                  task controller plan 0 []).
Proof.
  intros Hmaster Hu. split; [intros ref; apply findMediaPlaylistUrl_first |].
  split; [intros ref; by apply resolveMediaPlaylistUrl_cases |].
  intros ref media content Hfind Hres Hfetch.
  assert (Hd : dereferenceMaster P net taskUrl m3u8Content = (media, Ok content)).
  { unfold dereferenceMaster. by rewrite Hmaster, Hfind, Hres, Hfetch. }
  split; [done |].
  intros m task controller t fetched Ht Hurl Hf result. subst result.
  cbn [resume]. rewrite Ht, Hf, Hurl, Hd. cbn [mbind Result_bind].
  split.
  - destruct (parseMediaPlaylist P net media content) as [plan | e].
    + rewrite url_segmentLoop. unfold mutate. cbn.
      by rewrite !list_lookup_alter_eq, Ht.
    + rewrite url_failedM3u8. unfold mutate. cbn.
      by rewrite !list_lookup_alter_eq, Ht.
  - intros mediaUrl k Hm Hk Hne.
    unfold parseMediaPlaylist, parse_url. rewrite Hm. cbn [mbind Result_bind].
    rewrite Hk. cbn [mbind Result_bind].
    destruct (segmentUrls mediaUrl _ _) eqn:E; [done |].
    reflexivity.
Qed.
End Dereference.

(** ** Segment decryption *)

Section CryptoFacts.
Import Crypto.

Lemma xor_bytes_cancel (a b : Buffer) :
  length a = length b -> xor_bytes (xor_bytes a b) b = a.
Proof.
  revert b. induction a as [|x a IH]; intros [|y b] Hl; simpl in *; try done.
  f_equal; [| apply IH; lia].
  by rewrite Z.lxor_assoc, Z.lxor_nilpotent, Z.lxor_0_r.
Qed.

Lemma length_xor_bytes (a b : Buffer) :
  length a = length b -> length (xor_bytes a b) = length a.
Proof. intros H. unfold xor_bytes. rewrite length_zip_with. lia. Qed.

Lemma blocks_whole_from (k : nat) (data : Buffer) :
  length data = (k * 16)%nat -> Forall whole (reshape (replicate k 16%nat) data).
Proof.
  revert data. induction k as [|k IH]; intros data Hl; cbn [replicate reshape].
  - constructor.
  - constructor.
    + unfold whole. rewrite length_take. lia.
    + apply IH. rewrite length_drop. lia.
Qed.

Lemma aligned_length (data : Buffer) :
  Z.of_nat (length data) mod 16 = 0 -> length data = (length data / 16 * 16)%nat.
Proof.
  intros H. pose proof (Nat.div_mod_eq (length data) 16) as E.
  assert ((length data mod 16)%nat = 0%nat); [| lia].
  apply Nat2Z.inj. rewrite Nat2Z.inj_mod. exact H.
Qed.

Lemma blocks_whole (data : Buffer) :
  Z.of_nat (length data) mod 16 = 0 -> Forall whole (blocks data).
Proof. intros H. apply blocks_whole_from. by apply aligned_length. Qed.

Lemma join_blocks (data : Buffer) :
  Z.of_nat (length data) mod 16 = 0 -> mjoin (blocks data) = data.
Proof.
  intros H. apply join_reshape. rewrite sum_list_replicate.
  symmetry. by apply aligned_length.
Qed.

Lemma length_join_whole (bs : list Buffer) :
  Forall whole bs -> length (mjoin bs) = (length bs * 16)%nat.
Proof.
  induction 1 as [|b bs Hb _ IH]; [done |].
  change (mjoin (b :: bs)) with (b ++ mjoin bs)%list.
  rewrite length_app, IH, Hb. simpl. lia.
Qed.

Lemma blocks_join (bs : list Buffer) : Forall whole bs -> blocks (mjoin bs) = bs.
Proof.
  intros H. unfold blocks. rewrite (length_join_whole bs H).
  rewrite Nat.div_mul by lia.
  induction H as [|b bs Hb _ IH]; [done |].
  change (mjoin (b :: bs)) with (b ++ mjoin bs)%list.
  cbn [length replicate reshape].
  rewrite take_app_length' by (by rewrite Hb).
  rewrite drop_app_length' by (by rewrite Hb). by rewrite IH.
Qed.

Section Chaining.
Context (P : Platform) (key : Buffer).
Hypothesis cipher : block_cipher P.
Hypothesis key16 : length key = 16%nat.

Lemma cbc_decrypt_blocks_whole (cs : list Buffer) (prev : Buffer) :
  whole prev -> Forall whole cs -> Forall whole (cbc_decrypt_blocks P key prev cs).
Proof.
  intros Hp Hcs. revert prev Hp.
  induction Hcs as [|c cs Hc _ IH]; intros prev Hp; cbn [cbc_decrypt_blocks].
  - constructor.
  - destruct (cipher key c key16 Hc) as [Hl _]. constructor.
    + unfold whole in *. rewrite length_xor_bytes; lia.
    + by apply IH.
Qed.

(** Encrypting the blocks that decryption produced gives the cipher
    blocks back. *)
Lemma cbc_encrypt_decrypt_blocks (cs : list Buffer) (prev : Buffer) :
  whole prev -> Forall whole cs ->
  cbc_encrypt_blocks P key prev (cbc_decrypt_blocks P key prev cs) = cs.
Proof.
  intros Hp Hcs. revert prev Hp.
  induction Hcs as [|c cs Hc _ IH]; intros prev Hp;
    cbn [cbc_decrypt_blocks cbc_encrypt_blocks]; [done |].
  destruct (cipher key c key16 Hc) as [Hl He].
  rewrite xor_bytes_cancel by (unfold whole in *; lia).
  rewrite He. f_equal. by apply IH.
Qed.
End Chaining.

Lemma land_255 (x : Z) : Z.land x 255 = x mod 256.
Proof. change 255 with (Z.ones 8). rewrite Z.land_ones by lia. reflexivity. Qed.

Lemma defaultIV_bytes (i : Z) :
  0 <= i < 2 ^ 32 ->
  defaultIV i = Ok (replicate 12 0 ++ Spec.bigEndian32 i)%list.
Proof.
  intros Hi. unfold defaultIV, writeUInt32BE.
  assert ((0 <=? i) && (i <=? 4294967295) = true) as ->.
  { apply andb_true_iff. split; [apply Z.leb_le | apply Z.leb_le]; lia. }
  cbn [negb]. cbn -[Z.land Z.shiftr Z.div Z.modulo Z.pow].
  rewrite !land_255, !Z.shiftr_div_pow2 by lia. reflexivity.
Qed.

Lemma bigEndian32_value (i : Z) :
  0 <= i < 2 ^ 32 ->
  (i / 2 ^ 24 mod 256) * 2 ^ 24 + (i / 2 ^ 16 mod 256) * 2 ^ 16
  + (i / 2 ^ 8 mod 256) * 2 ^ 8 + i mod 256 = i.
Proof.
  intros Hi.
  assert (i / 2 ^ 24 mod 256 = i / 2 ^ 24) as ->.
  { apply Z.mod_small. split; [apply Z.div_pos; lia |].
    apply Z.div_lt_upper_bound; lia. }
  pose proof (Z.div_mod i 256 ltac:(lia)).
  pose proof (Z.div_mod (i / 256) 256 ltac:(lia)).
  pose proof (Z.div_mod (i / 256 / 256) 256 ltac:(lia)).
  change (2 ^ 8) with 256. change (2 ^ 16) with (256 * 256).
  change (2 ^ 24) with (256 * 256 * 256).
  rewrite <- !Z.div_div by lia. lia.
Qed.
End CryptoFacts.

(** C5: with no IV declared, the segment of index [i] is decrypted under
    the IV of twelve zero bytes followed by the four bytes of [i], most
    significant first; and encrypting the result under the same key and
    IV gives the segment back. *)
Theorem default_iv_is_big_endian_index_and_roundtrip
    (P : Platform) (data key : Buffer) (i : Z) :
  block_cipher P ->
  length key = 16%nat ->
  Z.of_nat (length data) mod 16 = 0 ->
  0 <= i < 2 ^ 32 ->
  let iv := (replicate 12 0 ++ Spec.bigEndian32 i)%list in
  Crypto.defaultIV i = Ok iv
  /\ length iv = 16%nat
  /\ Forall (fun b => 0 <= b < 256) (Spec.bigEndian32 i)
  /\ (i / 2 ^ 24 mod 256) * 2 ^ 24 + (i / 2 ^ 16 mod 256) * 2 ^ 16
     + (i / 2 ^ 8 mod 256) * 2 ^ 8 + i mod 256 = i
  /\ Crypto.decipher_aes_128_cbc P key iv data = Ok (Crypto.decryptAES128 P data key None i)
  /\ Crypto.cipher_aes_128_cbc P key iv (Crypto.decryptAES128 P data key None i) = Ok data.
Proof.
  intros Hc Hk Hd Hi iv.
  assert (Hiv : Crypto.defaultIV i = Ok iv) by by apply defaultIV_bytes.
  assert (Hl : length iv = 16%nat) by reflexivity.
  assert (Hdec : Crypto.decryptAES128 P data key None i
                 = mjoin (Crypto.cbc_decrypt_blocks P key iv (Crypto.blocks data))).
  { unfold Crypto.decryptAES128, Crypto.decryptAES128_try. rewrite Hd, Hiv.
    cbn [Z.eqb negb mbind Result_bind]. unfold Crypto.decipher_aes_128_cbc.
    by rewrite Hk, Hl, Hd. }
  pose proof (blocks_whole data Hd) as Hb.
  pose proof (cbc_decrypt_blocks_whole P key Hc Hk _ iv Hl Hb) as Hw.
  split; [done |]. split; [done |]. split; [| split; [| split]].
  - unfold Spec.bigEndian32. repeat constructor; apply Z.mod_pos_bound; lia.
  - by apply bigEndian32_value.
  - rewrite Hdec. unfold Crypto.decipher_aes_128_cbc. by rewrite Hk, Hl, Hd.
  - rewrite Hdec. unfold Crypto.cipher_aes_128_cbc. rewrite Hk, Hl.
    rewrite (length_join_whole _ Hw), Nat2Z.inj_mul, Z.mod_mul by lia.
    cbn [Nat.eqb Z.eqb negb]. rewrite (blocks_join _ Hw).
    rewrite (cbc_encrypt_decrypt_blocks P key Hc Hk _ iv Hl Hb).
    by rewrite join_blocks.
Qed.

(** C6: decryptAES128 returns a buffer for every input; data whose length
    is no multiple of 16 come back as they are, and so do the data when
    anything in the [try] block throws: an index that does not fit 32
    bits, a key or an IV that is not 16 bytes long. *)
Theorem decryptAES128_returns_data_on_failure
    (P : Platform) (data key : Buffer) (iv : option Buffer) (i : Z) :
  (exists out, Crypto.decryptAES128 P data key iv i = out)
  /\ (Z.of_nat (length data) mod 16 <> 0 -> Crypto.decryptAES128 P data key iv i = data)
  /\ (forall e, Crypto.decryptAES128_try P data key iv i = Throw e ->
        Crypto.decryptAES128 P data key iv i = data)
  /\ (forall plain, Crypto.decryptAES128_try P data key iv i = Ok plain ->
        Crypto.decryptAES128 P data key iv i = plain)
  /\ (length key <> 16%nat -> Crypto.decryptAES128 P data key iv i = data)
  /\ (forall b, iv = Some b -> length b <> 16%nat ->
        Crypto.decryptAES128 P data key iv i = data)
  /\ (iv = None -> ~ 0 <= i < 2 ^ 32 -> Crypto.decryptAES128 P data key iv i = data).
Proof.
  unfold Crypto.decryptAES128.
  split; [eauto |]. split.
  { intros Hn. unfold Crypto.decryptAES128_try.
    apply Z.eqb_neq in Hn. by rewrite Hn. }
  split; [by intros e -> |]. split; [by intros plain -> |].
  unfold Crypto.decryptAES128_try.
  destruct (Z.of_nat (length data) mod 16 =? 0) eqn:Hd; cbn [negb]; [| done].
  split; [| split].
  - intros Hk. apply Nat.eqb_neq in Hk.
    destruct iv as [b |]; cbn [mbind Result_bind].
    + unfold Crypto.decipher_aes_128_cbc. by rewrite Hk.
    + destruct (Crypto.defaultIV i) as [b | e]; cbn [mbind Result_bind]; [| done].
      unfold Crypto.decipher_aes_128_cbc. by rewrite Hk.
  - intros b -> Hb. apply Nat.eqb_neq in Hb. cbn [mbind Result_bind].
    unfold Crypto.decipher_aes_128_cbc. rewrite Hb.
    by destruct (length key =? 16)%nat.
  - intros -> Hi. unfold Crypto.defaultIV, Crypto.writeUInt32BE.
    assert ((0 <=? i) && (i <=? 4294967295) = false) as ->; [| done].
    apply andb_false_iff. destruct (Z.leb_spec 0 i); [right | by left].
    apply Z.leb_gt. lia.
Qed.

(** ** Behaviour at particular inputs *)

(** The example of the specification: media.m3u8 beside
    https://host/a/master.m3u8. *)
Example first_variant_beside_master :
  Playlist.dereferenceMaster Sample.platform
    (Sample.site Sample.masterUrl Sample.relativeMaster Sample.mediaPlaylist)
    Sample.masterUrl Sample.relativeMaster
  = ("https://host/a/media.m3u8", Ok Sample.mediaPlaylist).
Proof. vm_compute. reflexivity. Qed.

(** C3 as stated fails for a scheme-relative reference: the code puts it
    behind the host of the master URL, where the standard rule gives it
    the scheme alone. *)
Lemma scheme_relative_reference_is_put_behind_the_host :
  let u := {| protocol := "https:"; host := "host"; href := Sample.masterUrl |} in
  let net := Sample.site Sample.masterUrl Sample.schemeRelativeMaster Sample.mediaPlaylist in
  new_URL Sample.platform Sample.masterUrl = Some u
  /\ Playlist.findMediaPlaylistUrl false (JS.split_lines Sample.schemeRelativeMaster)
     = Some "//cdn.example/v/media.m3u8"
  /\ (Playlist.dereferenceMaster Sample.platform net Sample.masterUrl
        Sample.schemeRelativeMaster).1 = "https://host//cdn.example/v/media.m3u8"
  /\ Spec.resolveReference u "//cdn.example/v/media.m3u8"
     = "https://cdn.example/v/media.m3u8"
  /\ (Playlist.dereferenceMaster Sample.platform net Sample.masterUrl
        Sample.schemeRelativeMaster).1
     <> Spec.resolveReference u "//cdn.example/v/media.m3u8".
Proof. vm_compute. repeat split; congruence. Qed.

(** C1 at a store that holds a failed task and, after it, a pending one
    for the same content: a third submission is given a new id and a
    third task, where the claim has it return the id of the pending
    task. *)
Theorem addTask_behind_a_failed_task_duplicates :
  map (fun t => (Task.id t, Task.status t)) (getTasks Sample.afterSecond)
    = [("id-a", Status.error); ("id-b", Status.pending)]
  /\ Forall (fun t => sameContent Sample.episode t = true) (getTasks Sample.afterSecond)
  /\ (let '(m, returned, r) := addTask Sample.afterSecond Sample.episode "id-c" 3 in
      returned = "id-c"
      /\ returned <> "id-b"
      /\ r = AwaitCallerSave "id-c"
      /\ map (fun t => (Task.id t, Task.status t)) (getTasks m)
         = [("id-a", Status.error); ("id-b", Status.pending); ("id-c", Status.pending)]).
Proof.
  vm_compute. split; [done |]. split; [by repeat constructor |].
  repeat split; congruence.
Qed.

(** C2 at a playlist of one segment: deleteTask arrives while the segment
    is being fetched.  The token is aborted and the task leaves the
    store; the download goes on, writes the file and sets the task it
    holds to [completed]. *)
Theorem deleteTask_during_last_segment_leaves_file :
  let net := Sample.site Sample.masterUrl Sample.relativeMaster Sample.singleSegment in
  let '(m, r) := Sample.inFlight in
  let deleted := deleteTask m "id-a" in
  let '(final, r') := resumeN Sample.platform net 3 deleted r in
  (exists plan, r = AwaitSegment 0 0 plan 0 [])
  /\ JsMap.get "id-a" (activeDownloads m) = Some 0%nat
  /\ controllers deleted !! 0%nat = Some true
  /\ getTask deleted "id-a" = None
  /\ r' = AwaitEndSave
  /\ statusOf final 0 = Some Status.completed
  /\ errorOf final 0 = Some None
  /\ disk final !! "/d/src_42_3.ts" = Some [71; 64; 17]
  /\ getOfflineVideo final "src" "42" 3 = Some "/d/src_42_3.ts"
  /\ getTasks final = [].
Proof. vm_compute. repeat split; eauto. Qed.

(** The same call while the first of three segments is being fetched: the
    check before the second segment sees the abort. *)
Example deleteTask_before_a_later_segment_cancels :
  let net := Sample.site Sample.masterUrl Sample.relativeMaster Sample.mediaPlaylist in
  let '(m, r) := Sample.inFlightOfThree in
  let '(final, r') := resumeN Sample.platform net 2 (deleteTask m "id-a") r in
  r' = AwaitEndSave
  /\ statusOf final 0 = Some Status.error
  /\ errorOf final 0 = Some (Some cancelled)
  /\ disk final = ∅.
Proof. vm_compute. repeat split. Qed.

(** C7 at a restart: the task comes back from the metadata file with the
    progress of the run that was interrupted, is [downloading] again at
    once, and the first segment of the new run sets its progress to a
    smaller value. *)
Theorem progress_drops_after_restart :
  let net := Sample.site Sample.masterUrl Sample.relativeMaster Sample.mediaPlaylist in
  let '(m, rs) := Sample.restarted in
  rs = [AwaitStartSave 0]
  /\ statusOf m 0 = Some Status.downloading
  /\ progressOf m 0 = Some 67
  /\ (let '(m', r') := resumeN Sample.platform net 3 m (AwaitStartSave 0) in
      (exists plan buffers, r' = AwaitSegmentSave 0 0 plan 0 buffers)
      /\ statusOf m' 0 = Some Status.downloading
      /\ progressOf m' 0 = Some 33).
Proof. vm_compute. repeat split; eauto. Qed.

(** Within one run that starts from progress 0, the values set by the
    segments are integers from 0 to 100 that never go down; checked for
    every playlist of up to 64 segments. *)
Example segment_progress_ascends_up_to_64_segments :
  forallb (fun n => ascending 0 (segmentProgress n)) (seq 1 64) = true.
Proof. vm_compute. reflexivity. Qed.

(** A playlist without segments ends the task in [error]. *)
Example empty_playlist_fails_the_task :
  let net := Sample.site Sample.masterUrl Sample.relativeMaster Sample.emptyPlaylist in
  let w := schedule Sample.platform net "/d"
             [CallAddTask Sample.episode "id-a" 1; Resume 0; Resume 0; Resume 0] in
  runs w = [AwaitEndSave]
  /\ statusOf (manager w) 0 = Some Status.error
  /\ errorOf (manager w) 0 = Some (Some "未找到视频片段")
  /\ disk (manager w) = ∅.
Proof. vm_compute. repeat split. Qed.

(** ** Retry *)



Section Retry.
Context (P : Platform) (net : Network).





End Retry.

(** ** Output paths *)

Section Suffixes.
Import JS.

Lemma lastChar_app (x y : string) : y <> "" -> lastChar (x +:+ y) = lastChar y.
Proof.
  intros Hy. induction x as [|c x IH]; [done |].
  rewrite app_cons. cbn [lastChar]. rewrite IH.
  destruct (x +:+ y) eqn:E; [| done].
  destruct x; [by rewrite app_nil in E | by rewrite app_cons in E].
Qed.

Lemma endsWith_lastChar (suf s : string) :
  suf <> "" -> endsWith suf s = true -> lastChar s = lastChar suf.
Proof. intros Hs [a ->]%endsWith_iff. by apply lastChar_app. Qed.

(** Two endings with different last characters exclude each other. *)
Lemma endsWith_exclusive (a b s : string) :
  a <> "" -> b <> "" -> lastChar a <> lastChar b ->
  endsWith a s = true -> endsWith b s = false.
Proof.
  intros Ha Hb Hne Hs. destruct (endsWith b s) eqn:E; [| done].
  apply endsWith_lastChar in Hs, E; congruence.
Qed.

Lemma ts_not_m3u8 (p : string) :
  endsWith ".ts" p = true -> endsWith ".m3u8" p = false.
Proof. by apply endsWith_exclusive. Qed.

Lemma ts_not_slash (p : string) :
  endsWith ".ts" p = true -> endsWith "/" p = false.
Proof. by apply endsWith_exclusive. Qed.

Lemma ts_truthy (p : string) : endsWith ".ts" p = true -> truthy p = true.
Proof. intros [a ->]%endsWith_iff. by destruct a. Qed.

Lemma ts_length (l : string) : (3 <= String.length (l +:+ ".ts"))%nat.
Proof. rewrite length_app_str. simpl. lia. Qed.

Lemma ts_segment_kept (l : string) :
  String.eqb (l +:+ ".ts") "" || String.eqb (l +:+ ".ts") "." = false
  /\ String.eqb (l +:+ ".ts") ".." = false.
Proof.
  pose proof (ts_length l) as Hl.
  split; [apply orb_false_iff; split |]; apply String.eqb_neq;
    intros E; rewrite E in Hl; simpl in Hl; lia.
Qed.

(** The last segment of a path that ends in .ts ends in .ts. *)
Lemma split_ts (x : string) :
  exists init l, split "/" (x +:+ ".ts") = (init ++ [l +:+ ".ts"])%list.
Proof.
  induction x as [|c x (init & l & IH)].
  - by exists [], "".
  - rewrite app_cons. cbn [split]. rewrite IH.
    destruct (Ascii.eqb c "/").
    + by exists ("" :: init), l.
    + destruct init as [|h init]; cbn [app].
      * exists [], (String c l). reflexivity.
      * exists (String c h :: init), l. reflexivity.
Qed.

Lemma join_snoc (sep : string) (xs : list string) (y : string) :
  exists pre, join sep (xs ++ [y]) = pre +:+ y.
Proof.
  induction xs as [|x xs [pre IH]].
  - by exists "".
  - exists (x +:+ sep +:+ pre). cbn [app].
    destruct (xs ++ [y])%list as [|z rest] eqn:E; [by destruct xs |].
    change (join sep (x :: z :: rest)) with (x +:+ sep +:+ join sep (z :: rest)).
    rewrite IH. by rewrite !app_assoc_str.
Qed.
End Suffixes.

Section Join.
Lemma normalizeString_ts (x : string) (allowAboveRoot : bool) :
  JS.endsWith ".ts" (Path.normalizeString (x +:+ ".ts") allowAboveRoot) = true.
Proof.
  unfold Path.normalizeString.
  destruct (split_ts x) as (init & l & ->).
  rewrite fold_left_app. cbn [fold_left].
  unfold Path.push_segment at 1.
  destruct (ts_segment_kept l) as [-> ->]. cbn [rev].
  destruct (join_snoc "/" (rev (fold_left (Path.push_segment allowAboveRoot) init []))
              (l +:+ ".ts")) as [pre ->].
  rewrite <- app_assoc_str. apply endsWith_app.
Qed.

Lemma normalize_ts (p : string) :
  JS.endsWith ".ts" p = true -> JS.endsWith ".ts" (Path.normalize p) = true.
Proof.
  intros Hp. pose proof (ts_not_slash p Hp) as Hs.
  apply endsWith_iff in Hp as [x ->]. unfold Path.normalize.
  destruct (String.eqb (x +:+ ".ts") "") eqn:E.
  { apply String.eqb_eq in E. by destruct x. }
  rewrite Hs.
  pose proof (normalizeString_ts x (negb (JS.startsWith "/" (x +:+ ".ts")))) as Hn.
  destruct (String.eqb (Path.normalizeString _ _) "") eqn:En.
  { apply String.eqb_eq in En. by rewrite En in Hn. }
  destruct (JS.startsWith "/" (x +:+ ".ts")); [by apply endsWith_app_l | done].
Qed.

(** Joining a directory and a file name that ends in .ts gives a path
    that ends in .ts. *)
Lemma join_ts (dir file : string) :
  JS.endsWith ".ts" file = true -> JS.endsWith ".ts" (Path.join dir file) = true.
Proof.
  intros Hf. unfold Path.join.
  assert (String.eqb file "" = false) as ->.
  { apply String.eqb_neq. intros ->. discriminate. }
  destruct (String.eqb dir ""); apply normalize_ts; [done |].
  by do 2 apply endsWith_app_l.
Qed.

Lemma generateFileName_ts (source videoId : string) (episodeIndex : Z) :
  JS.endsWith ".ts" (generateFileName source videoId episodeIndex) = true.
Proof. unfold generateFileName. do 4 apply endsWith_app_l. apply endsWith_app. Qed.
End Join.

(** ** The invariant of the manager *)

Section Tidy.
Context (P : Platform) (net : Network).

Lemma tidy_mutate (task : nat) (f : Task.t -> Task.t) (m : Manager) :
  (forall t, tidyTask t -> tidyTask (f t)) ->
  Forall tidyTask (heap m) -> Forall tidyTask (heap (mutate task f m)).
Proof. intros Hf Hm. unfold mutate. cbn [heap set_heap]. apply Forall_alter; auto. Qed.

Lemma tidy_with_filePath (p : string) (t : Task.t) :
  JS.endsWith ".ts" p = true -> tidyTask t -> tidyTask (Task.with_filePath (Some p) t).
Proof. intros Hp [Hn _]. split; [done |]. cbn. by intros ? [= <-]. Qed.

Lemma tidy_failed (task : nat) (e : string) (m : Manager) :
  Forall tidyTask (heap m) ->
  Forall tidyTask (heap (failed task e m).1) /\ tidyRun (failed task e m).2.
Proof.
  intros Hm. split; [| done]. unfold failed, saveMetadata. cbn [fst heap set_metadataFile].
  by do 2 (apply tidy_mutate; [by intros t [? ?] |]).
Qed.

Lemma tidy_succeeded (task : nat) (m : Manager) :
  Forall tidyTask (heap m) ->
  Forall tidyTask (heap (succeeded task m).1) /\ tidyRun (succeeded task m).2.
Proof.
  intros Hm. split; [| done]. unfold succeeded, saveMetadata.
  cbn [fst heap set_metadataFile].
  by do 2 (apply tidy_mutate; [by intros t [? ?] |]).
Qed.

Lemma tidy_startDownload (m : Manager) (taskId : string) :
  Forall tidyTask (heap m) ->
  Forall tidyTask (heap (startDownload m taskId).1) /\ tidyRun (startDownload m taskId).2.
Proof.
  intros Hm. unfold startDownload. destruct (JsMap.get taskId (tasks m)); [| done].
  split; [| done]. unfold saveMetadata. cbn [fst heap set_metadataFile].
  apply tidy_mutate; [by intros t [? ?] | done].
Qed.

Lemma tidy_segmentLoop (m : Manager) (task controller : nat) (plan : Playlist.Plan)
    (i : nat) (buffers : list Buffer) :
  Forall tidyTask (heap m) ->
  Forall tidyTask (heap (segmentLoop m task controller plan i buffers).1)
  /\ tidyRun (segmentLoop m task controller plan i buffers).2.
Proof.
  intros Hm. unfold segmentLoop. destruct (heap m !! task) as [t |]; [| done].
  destruct (_ <? _)%nat.
  - destruct (default false _); [| done]. by apply tidy_failed.
  - split; [done |]. cbn [snd tidyRun]. apply join_ts.
    apply (generateFileName_ts (Task.source t) (Task.videoId t) (Task.episodeIndex t)).
Qed.

Lemma tidy_resume (m : Manager) (r : Run) :
  Forall tidyTask (heap m) -> tidyRun r ->
  Forall tidyTask (heap (resume P net m r).1) /\ tidyRun (resume P net m r).2.
Proof.
  intros Hm Hr.
  destruct r as [taskId | task | task controller url
                | task controller plan i buffers | task controller plan i buffers
                | task path merged | task path url
                | task path total downloaded rest err | |];
    cbn [resume]; try done.
  - by apply tidy_startDownload.
  - destruct (heap m !! task) as [t |] eqn:Ht; [| done].
    destruct (JS.includes _ _); [done |]. split; [done |].
    cbn [snd tidyRun]. apply join_ts.
    destruct (Forall_lookup_1 _ _ _ _ Hm Ht) as [-> _]. apply generateFileName_ts.
  - destruct (heap m !! task) as [t |]; [| done].
    destruct (fetchContent net url) as [content | e]; [| by apply tidy_failed].
    destruct (Playlist.dereferenceMaster _ _ _ _) as [url' c].
    assert (Forall tidyTask (heap (mutate task (Task.with_url url') m))) as Hm'
      by (apply tidy_mutate; [by intros ? [? ?] | done]).
    destruct (c ≫= _) as [plan | e]; [| by apply tidy_failed].
    apply tidy_segmentLoop. apply tidy_mutate; [by intros ? [? ?] | done].
  - destruct (heap m !! task) as [t |]; [| done].
    destruct (Playlist.tsUrls plan !! i) as [tsUrl |]; [| done].
    destruct (downloadSegmentToBuffer net tsUrl); [| by apply tidy_failed].
    split; [| done]. unfold saveMetadata. cbn [fst heap set_metadataFile].
    by do 2 (apply tidy_mutate; [by intros ? [? ?] |]).
  - by apply tidy_segmentLoop.
  - destruct (heap m !! task) as [t |]; [| done].
    apply tidy_succeeded. unfold forget. cbn [heap set_activeDownloads].
    apply tidy_mutate; [intros; by apply tidy_with_filePath | done].
  - destruct (heap m !! task) as [t |]; [| done].
    destruct (get_stream net url) as [e | code body]; [by apply tidy_failed |].
    destruct (negb _); [by apply tidy_failed |].
    split; [| done]. cbn [fst heap set_disk].
    apply tidy_mutate; [by intros ? [? ?] | done].
  - destruct (heap m !! task) as [t |]; [| done].
    destruct rest as [| chunk rest].
    + destruct err; [by apply tidy_failed |].
      apply tidy_succeeded. unfold forget. cbn [heap set_activeDownloads].
      apply tidy_mutate; [intros; by apply tidy_with_filePath | done].
    + split; [| done]. cbn [fst heap set_disk].
      by do 2 (apply tidy_mutate; [by intros ? [? ?] |]).
Qed.

Lemma tidy_newTask (taskData : TaskData.t) (taskId : string) (now : Z) :
  tidyTask (newTask taskData taskId now).
Proof. split; [reflexivity | done]. Qed.

Lemma tidy_addTask (m : Manager) (taskData : TaskData.t) (taskId : string) (now : Z) :
  Forall tidyTask (heap m) ->
  Forall tidyTask (heap (addTask m taskData taskId now).1.1)
  /\ tidyRun (addTask m taskData taskId now).2.
Proof.
  intros Hm. unfold addTask.
  assert (Forall tidyTask (heap m ++ [newTask taskData taskId now])) as Hnew.
  { apply Forall_app. split; [done |]. repeat constructor; apply tidy_newTask. }
  destruct (find _ _) as [existing |]; [destruct (blocksResubmission _) |]; done.
Qed.

Lemma tidy_retryTask (m m' : Manager) (taskId : string) (r : Run) :
  Forall tidyTask (heap m) -> retryTask m taskId = Ok (m', r) ->
  Forall tidyTask (heap m') /\ tidyRun r.
Proof.
  intros Hm. unfold retryTask.
  destruct (JsMap.get taskId (tasks m)) as [task |]; [| done].
  destruct (heap m !! task); [| done]. destruct (Status.eqb _ _); [done |].
  intros [= <- <-]. split; [| done]. unfold saveMetadata. cbn [heap set_metadataFile].
  by do 4 (apply tidy_mutate; [by intros ? [? ?] |]).
Qed.

Lemma heap_deleteTask (m : Manager) (taskId : string) :
  heap (deleteTask m taskId) = heap m.
Proof.
  unfold deleteTask. destruct (getTask m taskId) as [t |]; [| done].
  destruct (JsMap.get taskId (activeDownloads m)); destruct (Task.filePath t) as [p |];
    try destruct (JS.truthy p); try reflexivity;
    unfold removeOutput; by destruct (JS.endsWith ".m3u8" p).
Qed.

Lemma tidy_step (w w' : World) : step P net w w' -> tidy w -> tidy w'.
Proof.
  intros Hstep [Hm Hr]. destruct Hstep as [w d i n m' ret r H | w i m' r H | w i | w i r m' r' Hi H].
  - pose proof (tidy_addTask (manager w) d i n Hm) as [H1 H2]. rewrite H in H1, H2.
    split; [done |]. apply Forall_app. split; [done | by repeat constructor].
  - destruct (tidy_retryTask _ _ _ _ Hm H) as [H1 H2].
    split; [done |]. apply Forall_app. split; [done | by repeat constructor].
  - split; [| done]. cbn [manager]. by rewrite heap_deleteTask.
  - pose proof (tidy_resume (manager w) r Hm (Forall_lookup_1 _ _ _ _ Hr Hi)) as [H1 H2].
    rewrite H in H1, H2. split; [done |]. cbn [runs]. by apply Forall_insert.
Qed.

Lemma reachable_tidy (dir : string) (w : World) : reachable P net dir w -> tidy w.
Proof.
  unfold reachable. intros H.
  assert (tidy (initialWorld dir)) as H0 by (split; constructor).
  revert H0. induction H as [| w1 w2 w3 Hs _ IH]; [done |].
  intros H0. apply IH. by eapply tidy_step.
Qed.

Lemma disk_deleteTask (m : Manager) (taskId : string) (t : Task.t) :
  getTask m taskId = Some t ->
  disk (deleteTask m taskId)
  = match Task.filePath t with
    | Some p => if JS.truthy p then disk (removeOutput p m) else disk m
    | None => disk m
    end.
Proof.
  intros Ht. unfold deleteTask. rewrite Ht.
  destruct (JsMap.get taskId (activeDownloads m)); destruct (Task.filePath t) as [p |];
    try destruct (JS.truthy p); try reflexivity;
    unfold removeOutput; by destruct (JS.endsWith ".m3u8" p).
Qed.

(** C10: in every state the manager reaches from an empty store, a task
    has the generated file name, which ends in .ts, and a recorded
    output path ends in .ts; so deleteTask never takes the branch for a
    path that ends in .m3u8, and what it removes from the disk is at
    most the one file under the recorded path. *)
Theorem recorded_output_paths_end_in_ts (dir : string) (w : World)
    (taskId : string) (t : Task.t) :
  reachable P net dir w ->
  getTask (manager w) taskId = Some t ->
  Task.fileName t
    = generateFileName (Task.source t) (Task.videoId t) (Task.episodeIndex t)
  /\ JS.endsWith ".ts" (Task.fileName t) = true
  /\ match Task.filePath t with
     | Some p =>
         JS.endsWith ".ts" p = true
         /\ JS.endsWith ".m3u8" p = false
         /\ removeOutput p (manager w)
            = set_disk (delete p (disk (manager w))) (manager w)
         /\ disk (deleteTask (manager w) taskId) = delete p (disk (manager w))
     | None => disk (deleteTask (manager w) taskId) = disk (manager w)
     end.
Proof.
  intros Hreach Hget. destruct (reachable_tidy dir w Hreach) as [Hm _].
  assert (tidyTask t) as [Hname Hpath].
  { unfold getTask in Hget. destruct (JsMap.get taskId _) as [ref |]; [| done].
    cbn in Hget. by eapply Forall_lookup_1. }
  split; [done |]. split; [rewrite Hname; apply generateFileName_ts |].
  rewrite (disk_deleteTask _ _ _ Hget).
  destruct (Task.filePath t) as [p |]; [| done].
  pose proof (Hpath p eq_refl) as Hp.
  pose proof (ts_not_m3u8 p Hp) as Hn.
  rewrite (ts_truthy p Hp). unfold removeOutput. rewrite Hn. done.
Qed.
End Tidy.

(** ** Schedules *)

Section Schedules.
Context (P : Platform) (net : Network).

Lemma perform_step (w : World) (e : Event) :
  perform P net w e = w \/ step P net w (perform P net w e).
Proof.
  destruct e as [d i n | i | i | i]; cbn [perform].
  - right. destruct (addTask (manager w) d i n) as [[m' ret] r] eqn:E.
    by eapply step_addTask.
  - destruct (retryTask (manager w) i) as [[m' r] | e] eqn:E; [right | by left].
    by eapply step_retryTask.
  - right. apply step_deleteTask.
  - destruct (runs w !! i) as [r |] eqn:E; [right | by left].
    destruct (resume P net (manager w) r) as [m' r'] eqn:E'.
    by eapply step_resume.
Qed.

Lemma reachable_perform (dir : string) (w : World) (e : Event) :
  reachable P net dir w -> reachable P net dir (perform P net w e).
Proof.
  intros H. destruct (perform_step w e) as [-> | Hs]; [done |].
  by eapply rtc_r.
Qed.

Lemma reachable_schedule (dir : string) (events : list Event) :
  reachable P net dir (schedule P net dir events).
Proof.
  unfold schedule.
  assert (reachable P net dir (initialWorld dir)) as H by apply rtc_refl.
  revert H. generalize (initialWorld dir).
  induction events as [|e events IH]; intros w H; cbn [fold_left]; [done |].
  apply IH. by apply reachable_perform.
Qed.
End Schedules.

(** ** Submission *)

Section Submission.
Context (m : Manager) (taskData : TaskData.t) (taskId : string) (now : Z).

(** When the first task of the store with the same content is pending,
    downloading or completed, its id is returned and nothing changes. *)
Lemma addTask_first_match_blocks (existing : Task.t) :
  List.find (sameContent taskData) (taskValues m) = Some existing ->
  Task.status existing <> Status.error ->
  addTask m taskData taskId now = (m, Task.id existing, Finished).
Proof.
  intros Hf Hs. unfold addTask. rewrite Hf.
  by destruct (Task.status existing).
Qed.

(** When it has failed, or when there is none, a task is created under
    the id drawn. *)
Lemma addTask_creates :
  match List.find (sameContent taskData) (taskValues m) with
  | Some existing => Task.status existing = Status.error
  | None => True
  end ->
  addTask m taskData taskId now
  = (saveMetadata (store (newTask taskData taskId now) m), taskId,
     AwaitCallerSave taskId).
Proof.
  unfold addTask. destruct (find _ _) as [existing |]; [| done].
  by intros ->.
Qed.
End Submission.

(** An id that is not in the store makes retryTask throw. *)
Lemma retryTask_unknown (m : Manager) (taskId : string) :
  JsMap.get taskId (tasks m) = None -> retryTask m taskId = Throw "任务不存在".
Proof. intros H. unfold retryTask. by rewrite H. Qed.

(** ** Instances *)

(** The sample block function is its own inverse. *)
Lemma sample_block_cipher : block_cipher Sample.platform.
Proof.
  intros key b Hk Hb. cbn [aes_decrypt_block aes_encrypt_block Sample.platform]. split.
  - rewrite length_xor_bytes; congruence.
  - apply xor_bytes_cancel. congruence.
Qed.


(** The master playlist beside https://host/a/master.m3u8. *)
Lemma master_playlist_first_variant_becomes_task_url_witness :
  JS.includes "#EXT-X-STREAM-INF" Sample.relativeMaster = true
  /\ new_URL Sample.platform Sample.masterUrl = Some Sample.parsedMasterUrl
  /\ Playlist.resolveMediaPlaylistUrl Sample.platform Sample.masterUrl "/v/media.m3u8"
     = Ok "https://host/v/media.m3u8".
Proof.
  split; [reflexivity |]. split; [reflexivity |].
  destruct (master_playlist_first_variant_becomes_task_url Sample.platform
              (Sample.site Sample.masterUrl Sample.relativeMaster Sample.mediaPlaylist)
              Sample.masterUrl Sample.relativeMaster Sample.parsedMasterUrl
              eq_refl eq_refl) as (_ & H & _).
  exact (H "/v/media.m3u8").
Defined.


(** Segment 5 of one block, the example of the specification. *)
Lemma default_iv_is_big_endian_index_and_roundtrip_witness :
  block_cipher Sample.platform
  /\ length Sample.sampleKey = 16%nat
  /\ Z.of_nat (length Sample.oneBlock) mod 16 = 0
  /\ 0 <= 5 < 2 ^ 32
  /\ Crypto.defaultIV 5 = Ok (replicate 12 0 ++ Spec.bigEndian32 5)%list
  /\ Crypto.cipher_aes_128_cbc Sample.platform Sample.sampleKey
       (replicate 12 0 ++ Spec.bigEndian32 5)%list
       (Crypto.decryptAES128 Sample.platform Sample.oneBlock Sample.sampleKey None 5)
     = Ok Sample.oneBlock.
Proof.
  split; [exact sample_block_cipher |]. split; [reflexivity |].
  split; [reflexivity |]. split; [lia |].
  destruct (default_iv_is_big_endian_index_and_roundtrip Sample.platform
              Sample.oneBlock Sample.sampleKey 5 sample_block_cipher eq_refl eq_refl
              ltac:(lia)) as (H1 & _ & _ & _ & _ & H2).
  split; [exact H1 | exact H2].
Defined.


(** The task of a download that ran to its end. *)
Lemma recorded_output_paths_end_in_ts_witness :
  let net := Sample.site Sample.masterUrl Sample.relativeMaster Sample.singleSegment in
  reachable Sample.platform net "/d" Sample.finishedWorld
  /\ getTask (manager Sample.finishedWorld) "id-a" = Some Sample.finishedTask
  /\ JS.endsWith ".m3u8" "/d/src_42_3.ts" = false
  /\ disk (deleteTask (manager Sample.finishedWorld) "id-a")
     = delete "/d/src_42_3.ts" (disk (manager Sample.finishedWorld)).
Proof.
  intros net.
  assert (reachable Sample.platform net "/d" Sample.finishedWorld) as Hr
    by apply reachable_schedule.
  assert (getTask (manager Sample.finishedWorld) "id-a" = Some Sample.finishedTask) as Hg
    by (vm_compute; reflexivity).
  split; [exact Hr |]. split; [exact Hg |].
  destruct (recorded_output_paths_end_in_ts Sample.platform net "/d"
              Sample.finishedWorld "id-a" Sample.finishedTask Hr Hg) as (_ & _ & H).
  change (Task.filePath Sample.finishedTask) with (Some "/d/src_42_3.ts") in H.
  destruct H as (_ & H1 & _ & H2). split; [exact H1 | exact H2].
Defined.

(** ** Maps in insertion order *)

Section MapFacts.
Context {V : Type}.
Implicit Types (m : list (string * V)) (k : string) (v : V).

Lemma get_set_eq m k v : JsMap.get k (JsMap.set k v m) = Some v.
Proof.
  induction m as [|[k' v'] m IH]; cbn [JsMap.set JsMap.get].
  - by rewrite String.eqb_refl.
  - destruct (String.eqb_spec k' k) as [-> | Hne]; cbn [JsMap.get].
    + by rewrite String.eqb_refl.
    + by apply String.eqb_neq in Hne as ->.
Qed.

Lemma get_set_ne m k k' v : k <> k' -> JsMap.get k' (JsMap.set k v m) = JsMap.get k' m.
Proof.
  intros Hne. induction m as [|[k0 v0] m IH]; cbn [JsMap.set JsMap.get].
  - by apply String.eqb_neq in Hne as ->.
  - destruct (String.eqb_spec k0 k) as [-> | Hne0]; cbn [JsMap.get].
    + by apply String.eqb_neq in Hne as ->.
    + by rewrite IH.
Qed.

Lemma elem_of_set m k v entry :
  entry ∈ JsMap.set k v m -> entry = (k, v) \/ entry ∈ m.
Proof.
  induction m as [|[k0 v0] m IH]; cbn [JsMap.set].
  - intros ->%list_elem_of_singleton. by left.
  - destruct (String.eqb_spec k0 k) as [-> | Hne0].
    + intros [-> | H]%elem_of_cons; [by left | right; by right].
    + intros [-> | H]%elem_of_cons; [right; by left |].
      destruct (IH H) as [-> | H']; [by left | right; by right].
Qed.

Lemma keys_set m k v k' :
  k' ∈ mapKeys (JsMap.set k v m) <-> k' = k \/ k' ∈ mapKeys m.
Proof.
  unfold mapKeys. induction m as [|[k0 v0] m IH]; cbn [JsMap.set map fst].
  - rewrite list_elem_of_singleton. split; [by left | intros [? | H]; [done | inversion H]].
  - destruct (String.eqb_spec k0 k) as [-> | Hne0]; cbn [map fst];
      rewrite !elem_of_cons; [| rewrite IH]; tauto.
Qed.

Lemma NoDup_keys_set m k v : NoDup (mapKeys m) -> NoDup (mapKeys (JsMap.set k v m)).
Proof.
  unfold mapKeys. induction m as [|[k0 v0] m IH]; cbn [JsMap.set map fst]; intros Hn.
  - apply NoDup_singleton.
  - apply NoDup_cons in Hn as [Hk0 Hn].
    destruct (String.eqb_spec k0 k) as [-> | Hne0]; cbn [map fst].
    + by apply NoDup_cons.
    + apply NoDup_cons. split; [| by apply IH].
      intros [-> | H]%keys_set; done.
Qed.

Lemma elem_of_delete m k entry : entry ∈ JsMap.delete k m -> entry ∈ m.
Proof.
  induction m as [|[k0 v0] m IH]; cbn [JsMap.delete]; [done |].
  destruct (String.eqb k0 k); [by right |].
  intros [-> | H]%elem_of_cons; [by left | right; auto].
Qed.

Lemma keys_delete m k k' : k' ∈ mapKeys (JsMap.delete k m) -> k' ∈ mapKeys m.
Proof.
  unfold mapKeys. intros ([k0 v0] & -> & H)%list_elem_of_fmap.
  apply list_elem_of_fmap. exists (k0, v0). split; [done | by eapply elem_of_delete].
Qed.

Lemma NoDup_keys_delete m k : NoDup (mapKeys m) -> NoDup (mapKeys (JsMap.delete k m)).
Proof.
  unfold mapKeys. induction m as [|[k0 v0] m IH]; cbn [JsMap.delete map fst]; intros Hn.
  - constructor.
  - apply NoDup_cons in Hn as [Hk0 Hn]. destruct (String.eqb k0 k); [done |].
    cbn [map fst]. apply NoDup_cons. split; [| by apply IH].
    intros H. by apply keys_delete in H.
Qed.

Lemma get_None m k : JsMap.get k m = None <-> k ∉ mapKeys m.
Proof.
  unfold mapKeys. induction m as [|[k0 v0] m IH]; cbn [JsMap.get map fst].
  - split; [intros _ H; inversion H | done].
  - rewrite not_elem_of_cons.
    destruct (String.eqb_spec k0 k) as [-> | Hne0]; [split; [done | tauto] |].
    rewrite IH. split; [by intros | tauto].
Qed.

Lemma get_delete_eq m k : NoDup (mapKeys m) -> JsMap.get k (JsMap.delete k m) = None.
Proof.
  unfold mapKeys. induction m as [|[k0 v0] m IH]; cbn [JsMap.delete map fst]; intros Hn.
  - done.
  - apply NoDup_cons in Hn as [Hk0 Hn].
    destruct (String.eqb_spec k0 k) as [-> | Hne0].
    + by apply get_None.
    + cbn [JsMap.get]. apply String.eqb_neq in Hne0 as ->. by apply IH.
Qed.

Lemma get_delete_ne m k k' : k <> k' -> JsMap.get k' (JsMap.delete k m) = JsMap.get k' m.
Proof.
  intros Hne. induction m as [|[k0 v0] m IH]; cbn [JsMap.delete JsMap.get]; [done |].
  destruct (String.eqb_spec k0 k) as [-> | Hne0]; cbn [JsMap.get].
  - by apply String.eqb_neq in Hne as ->.
  - by rewrite IH.
Qed.

Lemma get_Some_elem m k v : JsMap.get k m = Some v -> (k, v) ∈ m.
Proof.
  induction m as [|[k0 v0] m IH]; cbn [JsMap.get]; [done |].
  destruct (String.eqb_spec k0 k) as [-> | Hne0].
  - intros [= ->]. by left.
  - intros H. right. auto.
Qed.

Lemma elem_get m k v : NoDup (mapKeys m) -> (k, v) ∈ m -> JsMap.get k m = Some v.
Proof.
  unfold mapKeys. induction m as [|[k0 v0] m IH]; cbn [JsMap.get map fst]; intros Hn Hin.
  - inversion Hin.
  - apply NoDup_cons in Hn as [Hk0 Hn]. apply elem_of_cons in Hin as [[= -> ->] | Hin].
    + by rewrite String.eqb_refl.
    + destruct (String.eqb_spec k0 k) as [-> | Hne0]; [| by apply IH].
      exfalso. apply Hk0. apply list_elem_of_fmap. by exists (k, v).
Qed.
End MapFacts.

(** ** What no step changes *)

Section Evolution.
Lemma sameIdentity_refl (t : Task.t) : sameIdentity t t.
Proof. by repeat split. Qed.

Lemma sameIdentity_trans (a b c : Task.t) :
  sameIdentity a b -> sameIdentity b c -> sameIdentity a c.
Proof.
  intros (? & ? & ? & ? & ? & ? & ?) (? & ? & ? & ? & ? & ? & ?).
  repeat split; congruence.
Qed.

Lemma evolves_refl (m : Manager) : evolves m m.
Proof. split; [done |]. intros ref t H. exists t. split; [done | apply sameIdentity_refl]. Qed.

Lemma evolves_trans (a b c : Manager) : evolves a b -> evolves b c -> evolves a c.
Proof.
  intros [Hd1 H1] [Hd2 H2]. split; [congruence |].
  intros ref t Ht. destruct (H1 ref t Ht) as (t1 & Ht1 & Hs1).
  destruct (H2 ref t1 Ht1) as (t2 & Ht2 & Hs2).
  exists t2. split; [done | by eapply sameIdentity_trans].
Qed.

Lemma evolves_heap (m x : Manager) (h : list Task.t) :
  downloadDir x = downloadDir m ->
  (forall ref t, heap m !! ref = Some t -> exists t', h !! ref = Some t' /\ sameIdentity t t') ->
  evolves m (set_heap h x).
Proof. intros Hd H. by split. Qed.

Lemma evolves_mutate (m x : Manager) (task : nat) (f : Task.t -> Task.t) :
  (forall t, sameIdentity t (f t)) -> evolves m x -> evolves m (mutate task f x).
Proof.
  intros Hf [Hd H]. split; [done |]. intros ref t Ht.
  destruct (H ref t Ht) as (t1 & Ht1 & Hs1). unfold mutate. cbn [heap set_heap].
  rewrite list_lookup_alter. case_decide; [subst | eauto].
  rewrite Ht1. eexists. split; [reflexivity |].
  eapply sameIdentity_trans; [exact Hs1 | apply Hf].
Qed.

Lemma evolves_store (m x : Manager) (t : Task.t) : evolves m x -> evolves m (store t x).
Proof.
  intros [Hd H]. split; [done |]. intros ref t0 Ht0.
  destruct (H ref t0 Ht0) as (t1 & Ht1 & Hs1). exists t1. split; [| done].
  unfold store. cbn [heap set_heap set_tasks]. by apply lookup_app_l_Some.
Qed.

Lemma evolves_fields (m x y : Manager) :
  heap y = heap x -> downloadDir y = downloadDir x -> evolves m x -> evolves m y.
Proof. intros Hh Hd [Hd' H]. split; [congruence |]. by rewrite Hh. Qed.
End Evolution.

(** Every assignment of the source to a task leaves the identity alone. *)
Ltac identity := intros; repeat split.

(** Walks down a manager built by the assignments of one step. *)
Ltac evolve :=
  repeat first
    [ apply evolves_refl
    | apply evolves_mutate; [identity |]
    | apply evolves_store
    | match goal with
      | |- evolves _ (saveMetadata ?x) => apply (evolves_fields _ x); [reflexivity | reflexivity |]
      | |- evolves _ (forget _ ?x) => apply (evolves_fields _ x); [reflexivity | reflexivity |]
      | |- evolves _ (set_disk _ ?x) => apply (evolves_fields _ x); [reflexivity | reflexivity |]
      | |- evolves _ (set_controllers _ ?x) =>
          apply (evolves_fields _ x); [reflexivity | reflexivity |]
      | |- evolves _ (set_activeDownloads _ ?x) =>
          apply (evolves_fields _ x); [reflexivity | reflexivity |]
      | |- evolves _ (set_tasks _ ?x) => apply (evolves_fields _ x); [reflexivity | reflexivity |]
      | |- evolves _ (set_metadataFile _ ?x) =>
          apply (evolves_fields _ x); [reflexivity | reflexivity |]
      end ].

Section EvolutionOfSteps.
Context (P : Platform) (net : Network).

Lemma evolves_failed (m x : Manager) (task : nat) (e : string) :
  evolves m x -> evolves m (failed task e x).1.
Proof. intros H. unfold failed. cbn [fst]. by evolve. Qed.

Lemma evolves_failedM3u8 (m x : Manager) (task : nat) (taskId e : string) :
  evolves m x -> evolves m (failedM3u8 task taskId e x).1.
Proof. intros H. unfold failedM3u8. apply evolves_failed. by evolve. Qed.

Lemma evolves_succeeded (m x : Manager) (task : nat) :
  evolves m x -> evolves m (succeeded task x).1.
Proof. intros H. unfold succeeded. cbn [fst]. by evolve. Qed.

Lemma evolves_startDownload (m x : Manager) (taskId : string) :
  evolves m x -> evolves m (startDownload x taskId).1.
Proof.
  intros H. unfold startDownload. destruct (JsMap.get taskId (tasks x)); [| done].
  cbn [fst]. by evolve.
Qed.

Lemma evolves_segmentLoop (m x : Manager) (task controller : nat)
    (plan : Playlist.Plan) (i : nat) (buffers : list Buffer) :
  evolves m x -> evolves m (segmentLoop x task controller plan i buffers).1.
Proof.
  intros H. unfold segmentLoop. destruct (heap x !! task); [| done].
  destruct (_ <? _)%nat; [| done].
  destruct (default false _); [| done]. by apply evolves_failedM3u8.
Qed.

Lemma evolves_resume (m : Manager) (r : Run) : evolves m (resume P net m r).1.
Proof.
  pose proof (evolves_refl m) as H.
  destruct r as [taskId | task | task controller url
                | task controller plan i buffers | task controller plan i buffers
                | task path merged | task path url
                | task path total downloaded rest err | |];
    cbn [resume]; try done.
  - by apply evolves_startDownload.
  - destruct (heap m !! task); [| done]. destruct (JS.includes _ _); cbn [fst]; by evolve.
  - destruct (heap m !! task); [| done].
    destruct (fetchContent net url); [| by apply evolves_failedM3u8].
    destruct (Playlist.dereferenceMaster _ _ _ _) as [url' c].
    destruct (c ≫= _); [apply evolves_segmentLoop | apply evolves_failedM3u8]; by evolve.
  - destruct (heap m !! task); [| done].
    destruct (Playlist.tsUrls plan !! i); [| done].
    destruct (downloadSegmentToBuffer net _); [| by apply evolves_failedM3u8].
    cbn [fst]. by evolve.
  - by apply evolves_segmentLoop.
  - destruct (heap m !! task); [| done]. apply evolves_succeeded. by evolve.
  - destruct (heap m !! task); [| done].
    destruct (get_stream net url); [apply evolves_failed; by evolve |].
    destruct (negb _); [by apply evolves_failed |]. cbn [fst]. by evolve.
  - destruct (heap m !! task); [| done]. destruct rest.
    + destruct err; [apply evolves_failed | apply evolves_succeeded]; by evolve.
    + cbn [fst]. by evolve.
Qed.

Lemma evolves_addTask (m : Manager) (taskData : TaskData.t) (taskId : string) (now : Z) :
  evolves m (addTask m taskData taskId now).1.1.
Proof.
  pose proof (evolves_refl m) as H. unfold addTask.
  destruct (find _ _) as [existing |]; [destruct (blocksResubmission _) |];
    cbn [fst]; by evolve.
Qed.

Lemma evolves_retryTask (m m' : Manager) (taskId : string) (r : Run) :
  retryTask m taskId = Ok (m', r) -> evolves m m'.
Proof.
  pose proof (evolves_refl m) as H. unfold retryTask.
  destruct (JsMap.get taskId (tasks m)) as [task |]; [| done].
  destruct (heap m !! task); [| done]. destruct (Status.eqb _ _); [done |].
  intros [= <- <-]. by evolve.
Qed.

Lemma evolves_deleteTask (m : Manager) (taskId : string) :
  evolves m (deleteTask m taskId).
Proof.
  pose proof (evolves_refl m) as H. unfold deleteTask.
  destruct (getTask m taskId) as [t |]; [| done].
  destruct (JsMap.get taskId (activeDownloads m)); destruct (Task.filePath t) as [p |];
    try destruct (JS.truthy p); unfold removeOutput;
    try destruct (JS.endsWith ".m3u8" p); by evolve.
Qed.

Lemma evolves_step (w w' : World) : step P net w w' -> evolves (manager w) (manager w').
Proof.
  intros [w0 d i n m' ret r H | w0 i m' r H | w0 i | w0 i r m' r' Hi H]; cbn [manager].
  - pose proof (evolves_addTask (manager w0) d i n) as He. by rewrite H in He.
  - by eapply evolves_retryTask.
  - apply evolves_deleteTask.
  - pose proof (evolves_resume (manager w0) r) as He. by rewrite H in He.
Qed.

Lemma evolves_steps (w w' : World) :
  rtc (step P net) w w' -> evolves (manager w) (manager w').
Proof.
  induction 1 as [| w1 w2 w3 Hs _ IH]; [apply evolves_refl |].
  eapply evolves_trans; [by apply evolves_step | done].
Qed.

(** X1: a task object keeps its id, source, videoId, videoTitle,
    episodeIndex, createdAt and fileName through every call of the
    manager and every step of every download, and the download
    directory stays the same. *)
Theorem task_identity_is_kept (w w' : World) (ref : nat) (t : Task.t) :
  rtc (step P net) w w' ->
  heap (manager w) !! ref = Some t ->
  downloadDir (manager w') = downloadDir (manager w)
  /\ exists t', heap (manager w') !! ref = Some t' /\ sameIdentity t t'.
Proof.
  intros Hsteps Ht. destruct (evolves_steps w w' Hsteps) as [Hd H].
  split; [done | by apply H].
Qed.
End EvolutionOfSteps.

(** ** The consistency of the store *)

Section StoreOk.
Lemma storeOk_fields (x y : Manager) :
  heap y = heap x -> tasks y = tasks x -> activeDownloads y = activeDownloads x ->
  storeOk x -> storeOk y.
Proof. unfold storeOk. by intros -> -> ->. Qed.

Lemma storeOk_mutate (x : Manager) (task : nat) (f : Task.t -> Task.t) :
  (forall t, sameIdentity t (f t)) -> storeOk x -> storeOk (mutate task f x).
Proof.
  intros Hf (Hk & He & Ha). split; [done |]. split; [| done].
  unfold mutate. cbn [heap tasks set_heap].
  eapply Forall_impl; [exact He |]. intros [k ref] (t & Ht & Hid). cbn [fst snd] in *.
  rewrite list_lookup_alter. case_decide; [subst | eauto].
  rewrite Ht. eexists. split; [reflexivity |]. destruct (Hf t) as [-> _]. done.
Qed.

Lemma storeOk_forget (x : Manager) (taskId : string) :
  storeOk x -> storeOk (forget taskId x).
Proof.
  intros (Hk & He & Ha). split; [done |]. split; [done |].
  by apply NoDup_keys_delete.
Qed.

Lemma storeOk_register (x : Manager) (taskId : string) (c : nat) :
  storeOk x -> storeOk (set_activeDownloads (JsMap.set taskId c (activeDownloads x)) x).
Proof.
  intros (Hk & He & Ha). split; [done |]. split; [done |].
  by apply NoDup_keys_set.
Qed.

Lemma storeOk_store (x : Manager) (t : Task.t) : storeOk x -> storeOk (store t x).
Proof.
  intros (Hk & He & Ha). unfold store. split; [by apply NoDup_keys_set |].
  split; [| done]. cbn [heap tasks set_heap set_tasks].
  apply Forall_forall. intros [k ref] [[= -> ->] | Hin]%elem_of_set; cbn [fst snd].
  - exists t. split; [| done]. by rewrite lookup_app_r, Nat.sub_diag.
  - rewrite Forall_forall in He. destruct (He _ Hin) as (t0 & Ht0 & Hid).
    exists t0. split; [by apply lookup_app_l_Some | done].
Qed.

Lemma storeOk_remove (x : Manager) (taskId : string) :
  storeOk x -> storeOk (set_tasks (JsMap.delete taskId (tasks x)) x).
Proof.
  intros (Hk & He & Ha). split; [by apply NoDup_keys_delete |]. split; [| done].
  cbn [heap tasks set_tasks]. apply Forall_forall. intros entry Hin%elem_of_delete.
  rewrite Forall_forall in He. by apply He.
Qed.
End StoreOk.

Ltac keep_store :=
  repeat first
    [ assumption
    | apply storeOk_mutate; [identity |]
    | apply storeOk_store
    | apply storeOk_forget
    | apply storeOk_register
    | apply storeOk_remove
    | match goal with
      | |- storeOk (saveMetadata ?x) =>
          apply (storeOk_fields x); [reflexivity | reflexivity | reflexivity |]
      | |- storeOk (set_disk _ ?x) =>
          apply (storeOk_fields x); [reflexivity | reflexivity | reflexivity |]
      | |- storeOk (set_controllers _ ?x) =>
          apply (storeOk_fields x); [reflexivity | reflexivity | reflexivity |]
      | |- storeOk (set_metadataFile _ ?x) =>
          apply (storeOk_fields x); [reflexivity | reflexivity | reflexivity |]
      end ].

Section StoreOkOfSteps.
Context (P : Platform) (net : Network).

Lemma storeOk_failed (x : Manager) (task : nat) (e : string) :
  storeOk x -> storeOk (failed task e x).1.
Proof. intros H. unfold failed. cbn [fst]. keep_store. Qed.

Lemma storeOk_failedM3u8 (x : Manager) (task : nat) (taskId e : string) :
  storeOk x -> storeOk (failedM3u8 task taskId e x).1.
Proof. intros H. unfold failedM3u8. apply storeOk_failed. keep_store. Qed.

Lemma storeOk_succeeded (x : Manager) (task : nat) :
  storeOk x -> storeOk (succeeded task x).1.
Proof. intros H. unfold succeeded. cbn [fst]. keep_store. Qed.

Lemma storeOk_startDownload (x : Manager) (taskId : string) :
  storeOk x -> storeOk (startDownload x taskId).1.
Proof.
  intros H. unfold startDownload. destruct (JsMap.get taskId (tasks x)); [| done].
  cbn [fst]. keep_store.
Qed.

Lemma storeOk_segmentLoop (x : Manager) (task controller : nat)
    (plan : Playlist.Plan) (i : nat) (buffers : list Buffer) :
  storeOk x -> storeOk (segmentLoop x task controller plan i buffers).1.
Proof.
  intros H. unfold segmentLoop. destruct (heap x !! task); [| done].
  destruct (_ <? _)%nat; [| done].
  destruct (default false _); [| done]. by apply storeOk_failedM3u8.
Qed.

Lemma storeOk_resume (m : Manager) (r : Run) : storeOk m -> storeOk (resume P net m r).1.
Proof.
  intros H.
  destruct r as [taskId | task | task controller url
                | task controller plan i buffers | task controller plan i buffers
                | task path merged | task path url
                | task path total downloaded rest err | |];
    cbn [resume]; try done.
  - by apply storeOk_startDownload.
  - destruct (heap m !! task); [| done].
    destruct (JS.includes _ _); cbn [fst]; apply storeOk_register; keep_store.
  - destruct (heap m !! task); [| done].
    destruct (fetchContent net url); [| by apply storeOk_failedM3u8].
    destruct (Playlist.dereferenceMaster _ _ _ _) as [url' c].
    destruct (c ≫= _); [apply storeOk_segmentLoop | apply storeOk_failedM3u8]; keep_store.
  - destruct (heap m !! task); [| done].
    destruct (Playlist.tsUrls plan !! i); [| done].
    destruct (downloadSegmentToBuffer net _); [| by apply storeOk_failedM3u8].
    cbn [fst]. keep_store.
  - by apply storeOk_segmentLoop.
  - destruct (heap m !! task); [| done]. apply storeOk_succeeded. keep_store.
  - destruct (heap m !! task); [| done].
    destruct (get_stream net url); [apply storeOk_failed; keep_store |].
    destruct (negb _); [by apply storeOk_failed |]. cbn [fst]. keep_store.
  - destruct (heap m !! task); [| done]. destruct rest.
    + destruct err; [apply storeOk_failed | apply storeOk_succeeded]; keep_store.
    + cbn [fst]. keep_store.
Qed.

Lemma storeOk_addTask (m : Manager) (taskData : TaskData.t) (taskId : string) (now : Z) :
  storeOk m -> storeOk (addTask m taskData taskId now).1.1.
Proof.
  intros H. unfold addTask.
  destruct (find _ _) as [existing |]; [destruct (blocksResubmission _) |];
    cbn [fst]; keep_store.
Qed.

Lemma storeOk_retryTask (m m' : Manager) (taskId : string) (r : Run) :
  storeOk m -> retryTask m taskId = Ok (m', r) -> storeOk m'.
Proof.
  intros H. unfold retryTask.
  destruct (JsMap.get taskId (tasks m)) as [task |]; [| done].
  destruct (heap m !! task); [| done]. destruct (Status.eqb _ _); [done |].
  intros [= <- <-]. keep_store.
Qed.

Lemma storeOk_deleteTask (m : Manager) (taskId : string) :
  storeOk m -> storeOk (deleteTask m taskId).
Proof.
  intros H. unfold deleteTask.
  destruct (getTask m taskId) as [t |]; [| done].
  destruct (JsMap.get taskId (activeDownloads m)); destruct (Task.filePath t) as [p |];
    try destruct (JS.truthy p); unfold removeOutput;
    try destruct (JS.endsWith ".m3u8" p); keep_store.
Qed.

Lemma storeOk_step (w w' : World) :
  step P net w w' -> storeOk (manager w) -> storeOk (manager w').
Proof.
  intros [w0 d i n m' ret r H | w0 i m' r H | w0 i | w0 i r m' r' Hi H] Hok; cbn [manager] in *.
  - pose proof (storeOk_addTask (manager w0) d i n Hok) as He. by rewrite H in He.
  - by eapply storeOk_retryTask.
  - by apply storeOk_deleteTask.
  - pose proof (storeOk_resume (manager w0) r Hok) as He. by rewrite H in He.
Qed.

Lemma storeOk_reachable (dir : string) (w : World) :
  reachable P net dir w -> storeOk (manager w).
Proof.
  unfold reachable. intros H.
  assert (storeOk (manager (initialWorld dir))) as H0
    by (repeat split; constructor).
  revert H0. induction H as [| w1 w2 w3 Hs _ IH]; [done |].
  intros H0. apply IH. by eapply storeOk_step.
Qed.
End StoreOkOfSteps.

(** ** Listing and lookup *)

Section Listing.
Lemma getTask_id (m : Manager) (taskId : string) (t : Task.t) :
  storeOk m -> getTask m taskId = Some t -> Task.id t = taskId.
Proof.
  intros (_ & He & _). unfold getTask.
  destruct (JsMap.get taskId (tasks m)) as [ref |] eqn:E; [| done]. cbn.
  intros Ht. apply get_Some_elem in E. rewrite Forall_forall in He.
  destruct (He _ E) as (t0 & Ht0 & Hid). cbn [fst snd] in *. congruence.
Qed.

Lemma taskValues_ids (m : Manager) :
  storeOk m -> map Task.id (taskValues m) = mapKeys (tasks m).
Proof.
  intros (_ & He & _). unfold taskValues, JsMap.values, mapKeys.
  induction He as [|[k ref] entries (t & Ht & Hid) _ IH]; [done |].
  cbn [map fst snd omap list_omap] in *. rewrite Ht. cbn. by rewrite Hid, IH.
Qed.

Lemma elem_of_taskValues (m : Manager) (t : Task.t) :
  storeOk m -> t ∈ taskValues m -> getTask m (Task.id t) = Some t.
Proof.
  intros Hok. destruct Hok as (Hk & He & Ha). unfold taskValues, JsMap.values.
  intros (ref & Href & Ht)%list_elem_of_omap.
  apply list_elem_of_fmap in Href as ([k ref'] & -> & Hin). cbn [snd] in *.
  rewrite Forall_forall in He. destruct (He _ Hin) as (t0 & Ht0 & Hid).
  cbn [fst snd] in *. assert (t0 = t) as -> by congruence. subst k.
  unfold getTask. rewrite (elem_get _ _ _ Hk Hin). done.
Qed.
End Listing.

Section ListingReachable.
Context (P : Platform) (net : Network).

(** X2: in every state the manager reaches from an empty store, the task
    found under an id carries that id, and the list of tasks holds no
    id twice. *)
Theorem tasks_are_listed_once_under_their_id (dir : string) (w : World) :
  reachable P net dir w ->
  (forall taskId t, getTask (manager w) taskId = Some t -> Task.id t = taskId)
  /\ NoDup (map Task.id (getTasks (manager w)))
  /\ (forall t, t ∈ getTasks (manager w) -> getTask (manager w) (Task.id t) = Some t).
Proof.
  intros Hr. pose proof (storeOk_reachable P net dir w Hr) as Hok.
  split; [intros taskId t; by apply getTask_id |]. split.
  - unfold getTasks. rewrite taskValues_ids by done. apply Hok.
  - intros t. by apply elem_of_taskValues.
Qed.
End ListingReachable.

(** ** Submission, once more *)

Section AddTask.
Context (m : Manager) (taskData : TaskData.t).

Lemma sameContent_newTask (taskId : string) (now : Z) :
  sameContent taskData (newTask taskData taskId now) = true.
Proof.
  unfold sameContent, newTask. cbn. by rewrite !String.eqb_refl, Z.eqb_refl.
Qed.

Lemma blocksResubmission_iff (s : Status.t) :
  blocksResubmission s = true <-> s <> Status.error.
Proof. destruct s; cbn; split; congruence. Qed.

Lemma getTask_store (t : Task.t) :
  getTask (saveMetadata (store t m)) (Task.id t) = Some t.
Proof.
  unfold getTask, store, saveMetadata.
  cbn [tasks heap set_tasks set_heap set_metadataFile].
  rewrite get_set_eq. cbn. by rewrite lookup_app_r, Nat.sub_diag.
Qed.

Lemma taskValues_store (t x : Task.t) :
  storeOk m -> x ∈ taskValues (store t m) -> x = t \/ x ∈ taskValues m.
Proof.
  intros (Hk & He & Ha). unfold taskValues, JsMap.values, store.
  cbn [tasks heap set_tasks set_heap].
  intros (ref & Href & Hx)%list_elem_of_omap.
  apply list_elem_of_fmap in Href as ([k ref'] & -> & Hin). cbn [snd] in *.
  apply elem_of_set in Hin as [[= -> ->] | Hin].
  - left. rewrite lookup_app_r, Nat.sub_diag in Hx by done. by injection Hx.
  - right. rewrite Forall_forall in He. destruct (He _ Hin) as (t0 & Ht0 & Hid).
    cbn [fst snd] in *. rewrite (lookup_app_l_Some _ _ _ _ Ht0) in Hx.
    injection Hx as <-. apply list_elem_of_omap. exists ref'. split; [| done].
    apply list_elem_of_fmap. by exists (k, ref').
Qed.

Lemma taskValues_store_new (t : Task.t) : t ∈ taskValues (store t m).
Proof.
  unfold taskValues, JsMap.values, store. cbn [tasks heap set_tasks set_heap].
  apply list_elem_of_omap. exists (length (heap m)). split.
  - apply list_elem_of_fmap. exists (Task.id t, length (heap m)). split; [done |].
    apply get_Some_elem, get_set_eq.
  - by rewrite lookup_app_r, Nat.sub_diag.
Qed.

Lemma find_only (f : Task.t -> bool) (l : list Task.t) (a : Task.t) :
  (forall x, x ∈ l -> f x = true -> x = a) -> a ∈ l -> f a = true ->
  List.find f l = Some a.
Proof.
  intros Hu Hin Ha. induction l as [|y l IH]; [inversion Hin |]. cbn [find].
  destruct (f y) eqn:E.
  - f_equal. apply Hu; [by left | done].
  - apply IH.
    + intros x Hx. apply Hu. by right.
    + apply elem_of_cons in Hin as [-> | Hin]; [congruence | done].
Qed.

Lemma find_none_elem (f : Task.t -> bool) (l : list Task.t) (x : Task.t) :
  List.find f l = None -> x ∈ l -> f x = false.
Proof.
  intros Hf Hin. apply list_elem_of_In in Hin. by eapply find_none in Hf.
Qed.

(** X3: the id that addTask returns names a task of the store that has the
    submitted source, videoId and episodeIndex and is pending,
    downloading or completed. *)
Theorem addTask_returns_a_stored_task_of_that_content (taskId : string) (now : Z) :
  storeOk m ->
  exists t,
    getTask (addTask m taskData taskId now).1.1 (addTask m taskData taskId now).1.2 = Some t
    /\ Task.id t = (addTask m taskData taskId now).1.2
    /\ Task.source t = TaskData.source taskData
    /\ Task.videoId t = TaskData.videoId taskData
    /\ Task.episodeIndex t = TaskData.episodeIndex taskData
    /\ Task.status t <> Status.error.
Proof.
  intros Hok. unfold addTask.
  assert (Hcreate : exists t,
    getTask (saveMetadata (store (newTask taskData taskId now) m)) taskId = Some t
    /\ Task.id t = taskId
    /\ Task.source t = TaskData.source taskData
    /\ Task.videoId t = TaskData.videoId taskData
    /\ Task.episodeIndex t = TaskData.episodeIndex taskData
    /\ Task.status t <> Status.error).
  { exists (newTask taskData taskId now). split; [apply (getTask_store (newTask _ _ _)) |].
    by repeat split. }
  destruct (find _ _) as [existing |] eqn:E; [| exact Hcreate].
  destruct (blocksResubmission _) eqn:Eb; [| exact Hcreate].
  apply find_some in E as [Hin Hc]. apply list_elem_of_In in Hin.
  exists existing. cbn [fst snd]. split; [by apply elem_of_taskValues |].
  unfold sameContent in Hc.
  apply andb_true_iff in Hc as [[Hs Hv]%andb_true_iff He].
  apply String.eqb_eq in Hs, Hv. apply Z.eqb_eq in He.
  repeat split; try done. by apply blocksResubmission_iff.
Qed.

(** X4: when no task of the store with that content has failed, submitting
    the content a second time returns the id of the first submission
    and changes nothing. *)
Theorem addTask_again_returns_the_same_id (id1 id2 : string) (now1 now2 : Z) :
  storeOk m ->
  (forall t, t ∈ getTasks m -> sameContent taskData t = true ->
             Task.status t <> Status.error) ->
  addTask (addTask m taskData id1 now1).1.1 taskData id2 now2
  = ((addTask m taskData id1 now1).1.1, (addTask m taskData id1 now1).1.2, Finished).
Proof.
  intros Hok Hlive. unfold addTask at 2 3 4.
  destruct (find _ _) as [existing |] eqn:E.
  - apply find_some in E as HE. destruct HE as [Hin Hc]. apply list_elem_of_In in Hin.
    assert (blocksResubmission (Task.status existing) = true) as Hb
      by (apply blocksResubmission_iff; by apply Hlive).
    rewrite Hb.
    cbn [fst snd]. unfold addTask. by rewrite E, Hb.
  - cbn [fst snd]. unfold addTask.
    set (t := newTask taskData id1 now1).
    assert (List.find (sameContent taskData) (taskValues (saveMetadata (store t m)))
            = Some t) as ->.
    { apply find_only.
      - intros x [-> | Hx]%taskValues_store Hc; [done | | done].
        by rewrite (find_none_elem _ _ _ E Hx) in Hc.
      - apply taskValues_store_new.
      - apply sameContent_newTask. }
    reflexivity.
Qed.
End AddTask.

(** ** Deletion *)

Section DeleteTask.
Context (m : Manager) (taskId : string) (t : Task.t).
Hypothesis found : getTask m taskId = Some t.

Lemma deleteTask_fields :
  heap (deleteTask m taskId) = heap m
  /\ tasks (deleteTask m taskId) = JsMap.delete taskId (tasks m)
  /\ metadataFile (deleteTask m taskId) = Some (getTasks (deleteTask m taskId))
  /\ activeDownloads (deleteTask m taskId)
     = match JsMap.get taskId (activeDownloads m) with
       | Some _ => JsMap.delete taskId (activeDownloads m)
       | None => activeDownloads m
       end
  /\ controllers (deleteTask m taskId)
     = match JsMap.get taskId (activeDownloads m) with
       | Some c => <[c := true]> (controllers m)
       | None => controllers m
       end.
Proof.
  unfold deleteTask. rewrite found.
  destruct (JsMap.get taskId (activeDownloads m)); destruct (Task.filePath t) as [p |];
    try destruct (JS.truthy p); unfold removeOutput;
    try destruct (JS.endsWith ".m3u8" p); by repeat split.
Qed.

End DeleteTask.

(** ** A download left to itself *)

Section Ends.
Context (P : Platform) (net : Network) (task : nat).

Lemma lookup_mutate_eq (m : Manager) (f : Task.t -> Task.t) :
  heap (mutate task f m) !! task = f <$> heap m !! task.
Proof. unfold mutate. cbn [heap set_heap]. apply list_lookup_alter_eq. Qed.








End Ends.

(** ** What a download writes *)

Section Output.
Context (P : Platform) (net : Network) (task controller : nat) (plan : Playlist.Plan).




End Output.

(** ** Cancellation that takes effect *)

Section Cancel.
Context (P : Platform) (net : Network).

(** X8: deleteTask while a segment other than the last is being fetched:
    the download ends within three steps, its task is in error, with
    the message of the cancellation when the segment arrived, and the
    disk is as deleteTask left it. *)
Theorem deleteTask_before_the_last_segment_cancels
    (m : Manager) (taskId : string) (t running : Task.t) (task controller : nat)
    (plan : Playlist.Plan) (i : nat) (buffers : list Buffer) :
  getTask m taskId = Some t ->
  heap m !! task = Some running ->
  JsMap.get taskId (activeDownloads m) = Some controller ->
  (controller < length (controllers m))%nat ->
  (S i < length (Playlist.tsUrls plan))%nat ->
  let deleted := deleteTask m taskId in
  exists m',
    resumeN P net 3 deleted (AwaitSegment task controller plan i buffers)
    = (m', Finished)
    /\ statusOf m' task = Some Status.error
    /\ disk m' = disk deleted
    /\ (forall url body, Playlist.tsUrls plan !! i = Some url -> fetched net url body ->
          errorOf m' task = Some (Some cancelled)).
Proof.
  intros Hget Hrun Hc Hlt Hi deleted.
  destruct (deleteTask_fields m taskId t Hget) as (Hh & _ & _ & _ & Hctl).
  rewrite Hc in Hctl.
  assert (Hr : heap deleted !! task = Some running) by (subst deleted; by rewrite Hh).
  assert (Ha : controllers deleted !! controller = Some true).
  { subst deleted. rewrite Hctl. by apply list_lookup_insert_eq. }
  destruct (Playlist.tsUrls plan !! i) as [url |] eqn:E.
  2:{ apply lookup_ge_None in E. lia. }
  cbn [resumeN resume]. rewrite Hr, E.
  destruct (downloadSegmentToBuffer net url) as [body |] eqn:Ef.
  - cbn [resume]. unfold segmentLoop, saveMetadata. cbn [heap set_metadataFile].
    rewrite !lookup_mutate_eq, Hr. cbn [fmap option_fmap option_map].
    assert ((S i <? length (Playlist.tsUrls plan))%nat = true) as ->
      by (by apply Nat.ltb_lt).
    cbn [controllers set_metadataFile mutate set_heap]. rewrite Ha.
    change (default false (Some true)) with true. cbv beta iota.
    eexists. split; [reflexivity |]. unfold statusOf, errorOf, failedM3u8, failed,
      saveMetadata, forget. cbn [fst heap disk set_metadataFile].
    repeat (rewrite ?lookup_mutate_eq; cbn [heap set_activeDownloads set_metadataFile]).
    rewrite Hr. by repeat split.
  - eexists. split; [reflexivity |]. unfold statusOf, errorOf, failedM3u8, failed,
      saveMetadata, forget. cbn [fst heap disk set_metadataFile].
    rewrite !lookup_mutate_eq. cbn [heap set_activeDownloads]. rewrite Hr.
    split; [done |]. split; [done |]. intros url' body [= <-] Hb.
    unfold fetched in Hb. congruence.
Qed.
End Cancel.

(** ** The direct download *)

Section Direct.
Context (P : Platform) (net : Network) (task : nat) (path : string).

Lemma chunks_in_order (total : Z) (rest : list Buffer) :
  forall (m : Manager) (downloaded : Z) (t : Task.t) (content : Buffer),
    heap m !! task = Some t -> disk m !! path = Some content ->
    exists m' t',
      resumeN P net (length rest) m (AwaitChunk task path total downloaded rest None)
      = (m', AwaitChunk task path total
               (downloaded + Z.of_nat (length (mjoin rest))) [] None)
      /\ disk m' !! path = Some (content ++ mjoin rest)%list
      /\ (forall other, other <> path -> disk m' !! other = disk m !! other)
      /\ activeDownloads m' = activeDownloads m
      /\ heap m' !! task = Some t' /\ sameIdentity t t'
      /\ Task.totalSize t' = Task.totalSize t
      /\ (rest <> [] ->
          Task.downloadedSize t' = downloaded + Z.of_nat (length (mjoin rest))).
Proof.
  induction rest as [|chunk rest IH]; intros m downloaded t content Ht Hd.
  - exists m, t. cbn [length resumeN mjoin list_join]. rewrite Z.add_0_r, app_nil_r.
    repeat split; try done.
  - cbn [length resumeN resume]. rewrite Ht.
    set (m1 := set_disk _ _).
    assert (heap m1 !! task
            = Some (Task.with_progress
                      (fileProgress (downloaded + Z.of_nat (length chunk)) total)
                      (Task.with_downloadedSize
                         (downloaded + Z.of_nat (length chunk)) t))) as Ht1.
    { subst m1. cbn [heap set_disk]. by rewrite !lookup_mutate_eq, Ht. }
    assert (disk m1 !! path = Some (content ++ chunk)%list) as Hd1.
    { subst m1. unfold mutate. cbn [disk set_disk set_heap].
      by rewrite lookup_alter_eq, Hd. }
    assert (forall other, other <> path -> disk m1 !! other = disk m !! other) as Ho1.
    { intros other Hne. subst m1. unfold mutate. cbn [disk set_disk set_heap].
      by rewrite lookup_alter_ne. }
    destruct (IH m1 (downloaded + Z.of_nat (length chunk)) _ _ Ht1 Hd1)
      as (m' & t' & Hrun & Hdisk & Hother & Hact & Ht' & Hs & Htot & Hsize).
    exists m', t'. rewrite Hrun.
    change (mjoin (chunk :: rest)) with (chunk ++ mjoin rest)%list.
    rewrite length_app, Nat2Z.inj_add, Z.add_assoc, (app_assoc content).
    split; [done |]. split; [done |].
    split; [intros other Hne; rewrite Hother, Ho1; done |].
    split; [done |]. split; [done |].
    split; [destruct Hs as (? & ? & ? & ? & ? & ? & ?); by repeat split |].
    split; [done |]. intros _. destruct rest as [|c rest]; [| by apply Hsize].
    cbn [length resumeN] in Hrun. injection Hrun as <-.
    rewrite Ht1 in Ht'. injection Ht' as <-. cbn. lia.
Qed.

(** X9: a direct download answered with status 200 whose stream ends well:
    the file holds the chunks in order of arrival and nothing else on
    the disk changes; the task is completed at progress 100, records
    the path, has the advertised length (0 if none) as totalSize and,
    if a chunk arrived, the number of bytes received as
    downloadedSize. *)
Theorem direct_download_writes_the_chunks_in_order
    (m : Manager) (t : Task.t) (url : string) (body : Stream) :
  heap m !! task = Some t ->
  get_stream net url = Response 200 body ->
  streamError body = None ->
  exists m' t',
    resumeN P net (length (chunks body) + 2) m (AwaitResponse task path url)
    = (m', AwaitEndSave)
    /\ disk m' !! path = Some (mjoin (chunks body))
    /\ (forall other, other <> path -> disk m' !! other = disk m !! other)
    /\ heap m' !! task = Some t'
    /\ Task.status t' = Status.completed
    /\ Task.progress t' = 100
    /\ Task.filePath t' = Some path
    /\ Task.totalSize t' = default 0 (contentLength body)
    /\ (chunks body <> [] ->
        Task.downloadedSize t' = Z.of_nat (length (mjoin (chunks body)))).
Proof.
  intros Ht Hs He.
  replace (length (chunks body) + 2)%nat with (S (length (chunks body) + 1)) by lia.
  cbn [resumeN resume]. rewrite Ht, Hs. cbn [Z.eqb Pos.eqb negb]. rewrite He.
  set (m1 := set_disk _ _).
  assert (heap m1 !! task
          = Some (Task.with_totalSize (default 0 (contentLength body)) t)) as Ht1.
  { subst m1. cbn [heap set_disk]. by rewrite lookup_mutate_eq, Ht. }
  assert (disk m1 !! path = Some []) as Hd1.
  { subst m1. unfold mutate. cbn [disk set_disk set_heap]. apply lookup_insert_eq. }
  destruct (chunks_in_order (default 0 (contentLength body)) (chunks body) m1 0 _ [] Ht1 Hd1)
    as (m2 & t2 & Hrun & Hdisk & Hother & Hact & Ht2 & Hid & Htot & Hsize).
  assert (forall a b mm rr, resumeN P net (a + b) mm rr
            = let '(m0, r0) := resumeN P net a mm rr in resumeN P net b m0 r0) as Hadd.
  { induction a as [|a IHa]; intros b mm rr; cbn [Nat.add resumeN].
    - by destruct (resumeN P net b mm rr).
    - destruct (resume P net mm rr). apply IHa. }
  rewrite Hadd, Hrun. cbn [resumeN resume]. rewrite Ht2.
  eexists _, _. split; [reflexivity |].
  unfold succeeded, saveMetadata, forget.
  cbn [fst heap disk set_metadataFile mutate set_heap set_activeDownloads].
  rewrite !list_lookup_alter_eq, Ht2. cbn [fmap option_fmap option_map].
  split; [exact Hdisk |].
  split.
  { intros other Hne. rewrite Hother by done. subst m1. unfold mutate.
    cbn [disk set_disk set_heap]. by rewrite lookup_insert_ne. }
  split; [reflexivity |]. do 3 (split; [reflexivity |]).
  split; [exact Htot |]. intros Hne.
  cbn [Task.downloadedSize Task.with_progress Task.with_status Task.with_filePath].
  rewrite (Hsize Hne). lia.
Qed.

(** X10: a direct download answered with another status than 200: the task
    fails with the message HTTP and the status, no file is created,
    and the token of the download stays registered. *)
Theorem direct_download_refused_keeps_its_token
    (m : Manager) (t : Task.t) (url : string) (code : Z) (body : Stream) :
  heap m !! task = Some t ->
  get_stream net url = Response code body ->
  code <> 200 ->
  exists m',
    resume P net m (AwaitResponse task path url) = (m', AwaitEndSave)
    /\ statusOf m' task = Some Status.error
    /\ errorOf m' task = Some (Some ("HTTP " +:+ JS.numberToString code))
    /\ disk m' = disk m
    /\ activeDownloads m' = activeDownloads m.
Proof.
  intros Ht Hs Hc. cbn [resume]. rewrite Ht, Hs.
  apply Z.eqb_neq in Hc as ->. cbn [negb].
  eexists. split; [reflexivity |].
  unfold statusOf, errorOf, failed, saveMetadata. cbn [fst heap set_metadataFile].
  rewrite !lookup_mutate_eq, Ht. by repeat split.
Qed.
End Direct.

(** ** The attempts at a segment *)

Section Attempts.
Context (net : Network) (url : string).

Lemma segment_attempts_ok (left : nat) :
  forall (attempt : nat) (lastError : option string) (body : Buffer),
    segment_attempts net url left attempt lastError = Ok body <->
    exists k, (k < left)%nat
      /\ get_segment net url (attempt + k) = Ok body
      /\ forall j, (j < k)%nat -> fails net url (attempt + j).
Proof.
  induction left as [|left IH]; intros attempt lastError body; cbn [segment_attempts].
  - split; [done | intros (k & Hk & _); lia].
  - destruct (get_segment net url attempt) as [b | e] eqn:E.
    + split.
      * intros [= ->]. exists 0%nat. rewrite Nat.add_0_r.
        split; [lia |]. split; [done |]. intros j Hj. lia.
      * intros (k & Hk & Hok & Hfail). destruct k as [|k].
        -- rewrite Nat.add_0_r in Hok. congruence.
        -- destruct (Hfail 0%nat ltac:(lia)) as [e He].
           rewrite Nat.add_0_r in He. congruence.
    + rewrite IH. split.
      * intros (k & Hk & Hok & Hfail). exists (S k).
        split; [lia |]. rewrite Nat.add_succ_r. split; [done |].
        intros [|j] Hj; [rewrite Nat.add_0_r; by exists e |].
        rewrite Nat.add_succ_r. apply Hfail. lia.
      * intros (k & Hk & Hok & Hfail). destruct k as [|k].
        -- rewrite Nat.add_0_r in Hok. congruence.
        -- exists k. split; [lia |]. rewrite Nat.add_succ_r in Hok. split; [done |].
           intros j Hj. specialize (Hfail (S j) ltac:(lia)).
           by rewrite Nat.add_succ_r in Hfail.
Qed.

Lemma segment_attempts_throw (left : nat) :
  forall (attempt : nat) (lastError : option string) (e : string),
    segment_attempts net url (S left) attempt lastError = Throw e <->
    (forall j, (j < left)%nat -> fails net url (attempt + j))
    /\ get_segment net url (attempt + left) = Throw e.
Proof.
  induction left as [|left IH]; intros attempt lastError e.
  - cbn [segment_attempts]. rewrite Nat.add_0_r.
    destruct (get_segment net url attempt) as [b | e'].
    + split; [done | intros [_ H]; done].
    + cbn [default from_option id]. split.
      * intros [= ->]. split; [intros j Hj; lia | done].
      * by intros [_ [= ->]].
  - change (segment_attempts net url (S (S left)) attempt lastError)
      with (match get_segment net url attempt with
            | Ok b => Ok b
            | Throw m => segment_attempts net url (S left) (S attempt) (Some m)
            end).
    destruct (get_segment net url attempt) as [b | e'] eqn:E.
    + split; [done |]. intros [Hfail _].
      destruct (Hfail 0%nat ltac:(lia)) as [e0 He0].
      rewrite Nat.add_0_r in He0. congruence.
    + rewrite IH. rewrite Nat.add_succ_r. split.
      * intros [Hfail Hlast]. split; [| done].
        intros [|j] Hj; [rewrite Nat.add_0_r; by exists e' |].
        rewrite Nat.add_succ_r. apply Hfail. lia.
      * intros [Hfail Hlast]. split; [| done].
        intros j Hj. specialize (Hfail (S j) ltac:(lia)).
        by rewrite Nat.add_succ_r in Hfail.
Qed.

(** X11: downloadSegmentToBuffer makes up to three requests: it returns the
    body of the first one that succeeds, and throws, with the error of
    the third, exactly when all three fail. *)
Theorem downloadSegmentToBuffer_returns_the_first_success_of_three :
  (forall body,
      downloadSegmentToBuffer net url = Ok body <->
      exists k, (k < 3)%nat /\ get_segment net url k = Ok body
                /\ forall j, (j < k)%nat -> fails net url j)
  /\ (forall e,
      downloadSegmentToBuffer net url = Throw e <->
      fails net url 0 /\ fails net url 1 /\ get_segment net url 2 = Throw e).
Proof.
  unfold downloadSegmentToBuffer. split.
  - intros body. apply (segment_attempts_ok 3 0 None body).
  - intros e. rewrite (segment_attempts_throw 2 0 None e). cbn [Nat.add]. split.
    + intros [Hfail Hlast]. split; [apply (Hfail 0%nat); lia |].
      split; [apply (Hfail 1%nat); lia | done].
    + intros (H0 & H1 & H2). split; [| done].
      intros [|[|j]] Hj; [done | done | lia].
Qed.
End Attempts.

(** ** Restart *)

Section Restore.
Lemma set_fresh {V : Type} (m : list (string * V)) (k : string) (v : V) :
  k ∉ mapKeys m -> JsMap.set k v m = (m ++ [(k, v)])%list.
Proof.
  unfold mapKeys. induction m as [|[k0 v0] m IH]; cbn [JsMap.set map fst app]; [done |].
  intros [Hne Hk]%not_elem_of_cons.
  destruct (String.eqb_spec k0 k) as [-> | _]; [done |]. by rewrite IH.
Qed.

Lemma startDownload_stored (m : Manager) (t : Task.t) :
  startDownload (mutate (length (heap m)) (Task.with_status Status.pending) (store t m))
    (Task.id t)
  = (saveMetadata
       (set_heap (heap m ++ [Task.with_status Status.downloading t]) (store t m)),
     AwaitStartSave (length (heap m))).
Proof.
  unfold startDownload, store, mutate.
  cbn [tasks heap set_heap set_tasks]. rewrite get_set_eq.
  rewrite (alter_app_r_alt _ (heap m) [t] (length (heap m))) by lia.
  rewrite Nat.sub_diag. cbn [alter list_alter].
  rewrite (alter_app_r_alt _ (heap m) [_] (length (heap m))) by lia.
  by rewrite Nat.sub_diag.
Qed.

Lemma restore_heap_and_runs (persisted : list Task.t) :
  forall m : Manager,
    heap (restore m persisted).1 = (heap m ++ map reloaded persisted)%list
    /\ (restore m persisted).2 = restartedFrom (length (heap m)) persisted
    /\ disk (restore m persisted).1 = disk m
    /\ downloadDir (restore m persisted).1 = downloadDir m
    /\ (NoDup (mapKeys (tasks m) ++ map Task.id persisted) ->
        tasks (restore m persisted).1
        = (tasks m ++ imap (fun i t => (Task.id t, length (heap m) + i)%nat) persisted)%list).
Proof.
  induction persisted as [|t persisted IH]; intros m.
  - cbn. rewrite !app_nil_r. by repeat split.
  - cbn [restore]. unfold reloaded at 1. cbn [map restartedFrom]. fold (unfinished t).
    destruct (unfinished t) eqn:E.
    + rewrite startDownload_stored.
      set (m1 := saveMetadata _).
      destruct (IH m1) as (Hh & Hr & Hd & Hdir & Ht).
      destruct (restore m1 persisted) as [m' rs]. cbn [fst snd] in *.
      assert (heap m1 = (heap m ++ [Task.with_status Status.downloading t])%list) as Hm1
        by done.
      rewrite Hm1, length_app, Nat.add_1_r in *. rewrite <- app_assoc in Hh.
      split; [exact Hh |]. split; [by rewrite Hr |].
      split; [done |]. split; [done |].
      intros Hn. cbn [map] in Hn.
      assert (Task.id t ∉ mapKeys (tasks m)) as Hfresh.
      { apply NoDup_app in Hn as (_ & Hn & _). intros Hin. apply (Hn _ Hin). by left. }
      assert (tasks m1 = (tasks m ++ [(Task.id t, length (heap m))])%list) as Hk1.
      { subst m1. unfold store. cbn [tasks saveMetadata set_metadataFile set_heap set_tasks].
        by apply set_fresh. }
      rewrite Ht.
      * rewrite Hk1, <- app_assoc. cbn [app imap]. rewrite Nat.add_0_r.
        do 2 f_equal. apply imap_ext. intros i x _. cbn. f_equal. lia.
      * rewrite Hk1. unfold mapKeys. rewrite map_app. cbn [map fst].
        rewrite <- app_assoc. exact Hn.
    + set (m1 := store t m).
      destruct (IH m1) as (Hh & Hr & Hd & Hdir & Ht).
      assert (heap m1 = (heap m ++ [t])%list) as Hm1 by done.
      rewrite Hm1, length_app, Nat.add_1_r in *. rewrite <- app_assoc in Hh.
      split; [exact Hh |]. split; [exact Hr |].
      split; [done |]. split; [done |].
      intros Hn. cbn [map] in Hn.
      assert (Task.id t ∉ mapKeys (tasks m)) as Hfresh.
      { apply NoDup_app in Hn as (_ & Hn & _). intros Hin. apply (Hn _ Hin). by left. }
      assert (tasks m1 = (tasks m ++ [(Task.id t, length (heap m))])%list) as Hk1.
      { subst m1. unfold store. cbn [tasks set_heap set_tasks]. by apply set_fresh. }
      rewrite Ht.
      * rewrite Hk1, <- app_assoc. cbn [app imap]. rewrite Nat.add_0_r.
        do 2 f_equal. apply imap_ext. intros i x _. cbn. f_equal. lia.
      * rewrite Hk1. unfold mapKeys. rewrite map_app. cbn [map fst].
        rewrite <- app_assoc. exact Hn.
Qed.

Lemma omap_lookup_all (l : list Task.t) :
  forall (k : nat) (pre : list Task.t),
    length pre = k ->
    omap (fun ref => (pre ++ l)%list !! ref)
         (map snd (imap (fun i t => (Task.id t, k + i)%nat) l))
    = l.
Proof.
  induction l as [|x l IH]; intros k pre Hk; [done |].
  cbn [imap map snd omap list_omap]. rewrite Nat.add_0_r.
  rewrite lookup_app_r by lia. rewrite <- Hk, Nat.sub_diag.
  cbn [lookup list_lookup]. f_equal.
  specialize (IH (S (length pre)) (pre ++ [x])%list).
  rewrite <- app_assoc in IH. cbn [app] in IH.
  etransitivity; [| apply IH; rewrite length_app; cbn; lia].
  f_equal. f_equal. apply imap_ext. intros i y _. cbn. f_equal. lia.
Qed.

Lemma reloaded_id (t : Task.t) : Task.id (reloaded t) = Task.id t.
Proof. unfold reloaded. by destruct (unfinished t). Qed.

Lemma imap_reloaded (persisted : list Task.t) :
  forall k : nat,
    imap (fun i t => (Task.id t, k + i)%nat) persisted
    = imap (fun i t => (Task.id t, k + i)%nat) (map reloaded persisted).
Proof.
  induction persisted as [|t l IH]; intros k; [done |].
  cbn [map imap]. rewrite reloaded_id. f_equal.
  etransitivity; [| etransitivity; [apply (IH (S k)) |]];
    apply imap_ext; intros i x _; cbn; f_equal; lia.
Qed.

Lemma length_restartedFrom (persisted : list Task.t) :
  forall ref : nat,
    length (restartedFrom ref persisted) = length (List.filter unfinished persisted).
Proof.
  induction persisted as [|t l IH]; intros ref; [done |].
  cbn [restartedFrom List.filter]. destruct (unfinished t); cbn [length]; by rewrite IH.
Qed.

(** X12: init on a metadata file whose tasks have distinct ids: the store
    lists the tasks of the file in order; a task that was pending or
    downloading is downloading again, all its other fields (progress
    and downloadedSize among them) as the file has them, with one
    download started for it; a completed or failed task is as the file
    has it, with no download; and the files on the disk are untouched. *)
Theorem init_restarts_the_unfinished_tasks
    (dir : string) (files : gmap string Buffer) (persisted : list Task.t) :
  NoDup (map Task.id persisted) ->
  let '(m, started) := init dir files (Some persisted) in
  getTasks m = map reloaded persisted
  /\ heap m = map reloaded persisted
  /\ started = restartedFrom 0 persisted
  /\ length started = length (List.filter unfinished persisted)
  /\ disk m = files
  /\ downloadDir m = dir.
Proof.
  intros Hn. unfold init.
  set (m0 := set_metadataFile _ _).
  destruct (restore_heap_and_runs persisted m0) as (Hh & Hr & Hd & Hdir & Ht).
  destruct (restore m0 persisted) as [m started]. cbn [fst snd] in *.
  specialize (Ht Hn). cbn [app length] in *.
  split; [| split; [done | split; [done | split; [| by split]]]].
  - unfold getTasks, taskValues, JsMap.values. rewrite Ht, Hh.
    etransitivity; [| apply (omap_lookup_all (map reloaded persisted) 0 []); done].
    cbn [app]. f_equal. f_equal. apply imap_reloaded.
  - rewrite Hr. apply length_restartedFrom.
Qed.
End Restore.

(** ** The theorems on sample states *)

Lemma steps_of_events (P : Platform) (net : Network) (events : list Event) :
  forall w : World, rtc (step P net) w (fold_left (perform P net) events w).
Proof.
  induction events as [|e events IH]; intros w; cbn [fold_left]; [apply rtc_refl |].
  destruct (perform_step P net w e) as [-> | Hs]; [apply IH |].
  eapply rtc_l; [exact Hs | apply IH].
Qed.


Lemma storeOk_finished : storeOk (manager Sample.finishedWorld).
Proof.
  eapply (storeOk_reachable Sample.platform Scenario.shortSite "/d").
  apply reachable_schedule.
Qed.

(** The task of [Sample.episode], from its submission to the end of its
    download. *)
Lemma task_identity_is_kept_witness :
  let later := fold_left (perform Sample.platform Scenario.shortSite)
                 (replicate 7 (Resume 0)) Scenario.submitted in
  rtc (step Sample.platform Scenario.shortSite) Scenario.submitted later
  /\ heap (manager Scenario.submitted) !! 0%nat = Some (newTask Sample.episode "id-a" 1)
  /\ exists t', heap (manager later) !! 0%nat = Some t'
                /\ sameIdentity (newTask Sample.episode "id-a" 1) t'.
Proof.
  intros later.
  assert (rtc (step Sample.platform Scenario.shortSite) Scenario.submitted later) as Hsteps
    by apply steps_of_events.
  assert (heap (manager Scenario.submitted) !! 0%nat
          = Some (newTask Sample.episode "id-a" 1)) as Hheap by (vm_compute; reflexivity).
  split; [exact Hsteps |]. split; [exact Hheap |].
  exact (proj2 (task_identity_is_kept Sample.platform Scenario.shortSite
                  Scenario.submitted later 0
                  (newTask Sample.episode "id-a" 1) Hsteps Hheap)).
Defined.

Lemma tasks_are_listed_once_under_their_id_witness :
  reachable Sample.platform Scenario.shortSite "/d" Sample.finishedWorld
  /\ NoDup (map Task.id (getTasks (manager Sample.finishedWorld))).
Proof.
  assert (reachable Sample.platform Scenario.shortSite "/d" Sample.finishedWorld) as Hr
    by apply reachable_schedule.
  split; [exact Hr |].
  exact (proj1 (proj2 (tasks_are_listed_once_under_their_id Sample.platform
                         Scenario.shortSite "/d" Sample.finishedWorld Hr))).
Defined.

(** A second submission of an episode that is stored and completed. *)
Lemma addTask_returns_a_stored_task_of_that_content_witness :
  storeOk (manager Sample.finishedWorld)
  /\ exists t,
      getTask (addTask (manager Sample.finishedWorld) Sample.episode "id-b" 2).1.1
        (addTask (manager Sample.finishedWorld) Sample.episode "id-b" 2).1.2 = Some t
      /\ Task.status t <> Status.error.
Proof.
  split; [exact storeOk_finished |].
  destruct (addTask_returns_a_stored_task_of_that_content (manager Sample.finishedWorld)
              Sample.episode "id-b" 2 storeOk_finished) as (t & H1 & _ & _ & _ & _ & H2).
  exists t. split; assumption.
Defined.

Lemma addTask_again_returns_the_same_id_witness :
  storeOk (emptyManager "/d")
  /\ (forall t, t ∈ getTasks (emptyManager "/d") -> sameContent Sample.episode t = true ->
                Task.status t <> Status.error)
  /\ addTask (addTask (emptyManager "/d") Sample.episode "id-a" 1).1.1 Sample.episode "id-b" 2
     = ((addTask (emptyManager "/d") Sample.episode "id-a" 1).1.1, "id-a", Finished).
Proof.
  assert (storeOk (emptyManager "/d")) as Hok.
  { split; [constructor |]. split; constructor. }
  assert (forall t, t ∈ getTasks (emptyManager "/d") -> sameContent Sample.episode t = true ->
                    Task.status t <> Status.error) as Hnone.
  { intros t Hin. inversion Hin. }
  split; [exact Hok |]. split; [exact Hnone |].
  exact (addTask_again_returns_the_same_id (emptyManager "/d") Sample.episode
           "id-a" "id-b" 1 2 Hok Hnone).
Defined.



Lemma fetched_sample (url : string) :
  fetched Scenario.hlsSite url Scenario.segmentBody.
Proof. reflexivity. Qed.


Lemma deleteTask_before_the_last_segment_cancels_witness :
  let m := manager Scenario.fetching in
  (exists t, getTask m "id-a" = Some t)
  /\ JsMap.get "id-a" (activeDownloads m) = Some 0%nat
  /\ exists m',
      resumeN Sample.platform Scenario.hlsSite 3 (deleteTask m "id-a")
        (AwaitSegment 0 0 Scenario.threeSegments 0 []) = (m', Finished)
      /\ statusOf m' 0 = Some Status.error
      /\ errorOf m' 0 = Some (Some cancelled).
Proof.
  intros m.
  assert (exists t, getTask m "id-a" = Some t) as [t Ht] by (eexists; vm_compute; reflexivity).
  assert (exists t, heap m !! 0%nat = Some t) as [running Hrun]
    by (eexists; vm_compute; reflexivity).
  split; [by exists t |]. split; [reflexivity |].
  destruct (deleteTask_before_the_last_segment_cancels Sample.platform Scenario.hlsSite
              m "id-a" t running 0 0 Scenario.threeSegments 0 [] Ht Hrun eq_refl
              ltac:(vm_compute; lia) ltac:(vm_compute; lia))
    as (m' & H1 & H2 & _ & H3).
  exists m'. split; [exact H1 |]. split; [exact H2 |].
  exact (H3 "https://host/a/seg0.ts" Scenario.segmentBody eq_refl
            (fetched_sample "https://host/a/seg0.ts")).
Defined.

(** The download of [Sample.movieTask] from a server that sends the file. *)
Lemma direct_download_writes_the_chunks_in_order_witness :
  heap Scenario.withMovie !! 0%nat = Some Sample.movieTask
  /\ get_stream Scenario.fileServer (Task.url Sample.movieTask) = Response 200 Scenario.movie
  /\ streamError Scenario.movie = None
  /\ exists m',
      resumeN Sample.platform Scenario.fileServer 4 Scenario.withMovie
        (AwaitResponse 0 "/d/src_42_1.ts" (Task.url Sample.movieTask)) = (m', AwaitEndSave)
      /\ disk m' !! "/d/src_42_1.ts" = Some [1; 2; 3]
      /\ statusOf m' 0 = Some Status.completed.
Proof.
  split; [reflexivity |]. split; [reflexivity |]. split; [reflexivity |].
  destruct (direct_download_writes_the_chunks_in_order Sample.platform Scenario.fileServer
              0 "/d/src_42_1.ts" Scenario.withMovie Sample.movieTask
              (Task.url Sample.movieTask) Scenario.movie eq_refl eq_refl eq_refl)
    as (m' & t' & H1 & H2 & _ & H3 & H4 & _).
  exists m'. split; [exact H1 |]. split; [exact H2 |].
  unfold statusOf. rewrite H3. cbn. by rewrite H4.
Defined.

(** The same download from a server that answers 404. *)
Lemma direct_download_refused_keeps_its_token_witness :
  heap Scenario.withMovie !! 0%nat = Some Sample.movieTask
  /\ get_stream Scenario.refusing (Task.url Sample.movieTask) = Response 404 Scenario.movie
  /\ exists m',
      resume Sample.platform Scenario.refusing Scenario.withMovie
        (AwaitResponse 0 "/d/src_42_1.ts" (Task.url Sample.movieTask)) = (m', AwaitEndSave)
      /\ errorOf m' 0 = Some (Some "HTTP 404")
      /\ disk m' = disk Scenario.withMovie.
Proof.
  split; [reflexivity |]. split; [reflexivity |].
  destruct (direct_download_refused_keeps_its_token Sample.platform Scenario.refusing
              0 "/d/src_42_1.ts" Scenario.withMovie Sample.movieTask
              (Task.url Sample.movieTask) 404 Scenario.movie eq_refl eq_refl
              ltac:(discriminate))
    as (m' & H1 & _ & H2 & H3 & _).
  exists m'. split; [exact H1 |]. split; [exact H2 | exact H3].
Defined.

(** The start on the metadata file of [Sample.restarted]. *)
Lemma init_restarts_the_unfinished_tasks_witness :
  NoDup (map Task.id [Sample.interrupted])
  /\ heap Sample.restarted.1 = [Sample.interrupted]
  /\ Sample.restarted.2 = [AwaitStartSave 0].
Proof.
  assert (NoDup (map Task.id [Sample.interrupted])) as Hn by (apply NoDup_singleton).
  split; [exact Hn |].
  pose proof (init_restarts_the_unfinished_tasks "/d" ∅ [Sample.interrupted] Hn) as H.
  change (init "/d" ∅ (Some [Sample.interrupted])) with Sample.restarted in H.
  destruct Sample.restarted as [m started]. destruct H as (_ & H1 & H2 & _).
  split; [exact H1 | exact H2].
Defined.

(** On a network whose first two answers to a segment fail, the third
    attempt delivers the segment. *)
Example third_attempt_delivers :
  downloadSegmentToBuffer Scenario.flaky "https://host/a/seg0.ts" = Ok Scenario.segmentBody.
Proof. reflexivity. Qed.

(** ** Lines of a text *)

Section Lines.
Import JS AdFilter.
Context (sep : ascii).

Lemma split_nonempty (s : string) : split sep s <> [].
Proof.
  destruct s as [|c s]; cbn [split]; [done |].
  destruct (Ascii.eqb c sep); [done |]. by destruct (split sep s).
Qed.

Lemma join_cons (glue x : string) (rest : list string) :
  rest <> [] -> join glue (x :: rest) = x +:+ glue +:+ join glue rest.
Proof. by destruct rest. Qed.

Lemma join_String (glue : string) (c : ascii) (h : string) (t : list string) :
  join glue (String c h :: t) = String c (join glue (h :: t)).
Proof. by destruct t. Qed.

Lemma join_split (s : string) : join (String sep "") (split sep s) = s.
Proof.
  induction s as [|c s IH]; cbn [split]; [done |].
  destruct (Ascii.eqb_spec c sep) as [-> | _].
  - rewrite join_cons by apply split_nonempty. by rewrite IH.
  - pose proof (split_nonempty s) as Hne.
    destruct (split sep s) as [|h t]; [done |]. by rewrite join_String, IH.
Qed.

Lemma split_free (s : string) : Forall (fun l => occurs sep l = false) (split sep s).
Proof.
  induction s as [|c s IH]; cbn [split]; [by constructor |].
  destruct (Ascii.eqb c sep) eqn:E; [by constructor |].
  destruct (split sep s) as [|h t]; [constructor; [cbn; by rewrite E | done] |].
  inversion IH as [|? ? Hh Ht]; subst. constructor; [| done].
  cbn [occurs]. by rewrite E, Hh.
Qed.

Lemma split_free_line (x : string) : occurs sep x = false -> split sep x = [x].
Proof.
  induction x as [|c x IH]; cbn [occurs split]; [done |].
  intros [Hc Hx]%orb_false_iff. by rewrite Hc, (IH Hx).
Qed.

Lemma split_app_free (x rest : string) :
  occurs sep x = false ->
  split sep (x +:+ String sep rest) = x :: split sep rest.
Proof.
  induction x as [|c x IH]; cbn [occurs]; intros H.
  - rewrite app_nil. cbn [split]. by rewrite Ascii.eqb_refl.
  - apply orb_false_iff in H as [Hc Hx]. rewrite app_cons. cbn [split].
    by rewrite Hc, (IH Hx).
Qed.

Lemma split_join (lines : list string) :
  lines <> [] ->
  Forall (fun l => occurs sep l = false) lines ->
  split sep (join (String sep "") lines) = lines.
Proof.
  induction lines as [|x rest IH]; [done |]. intros _ Hfree.
  inversion Hfree as [|? ? Hx Hrest]; subst.
  destruct rest as [|y rest]; [by apply split_free_line |].
  rewrite join_cons by done. rewrite app_cons, app_nil.
  rewrite split_app_free by done. by rewrite IH.
Qed.

Lemma app_empty_r (s : string) : s +:+ "" = s.
Proof. induction s as [|c s IH]; [done |]. by rewrite app_cons, IH. Qed.

Lemma join_holds_line (l : string) (lines : list string) :
  l ∈ lines -> exists a b, join (String sep "") lines = a +:+ l +:+ b.
Proof.
  induction lines as [|x rest IH]; [by intros ?%elem_of_nil |].
  intros [-> | Hin]%elem_of_cons.
  - destruct rest as [|y rest].
    + exists "", "". cbn [join]. by rewrite app_nil, app_empty_r.
    + rewrite join_cons by done. by exists "", (String sep "" +:+ join (String sep "") (y :: rest)).
  - destruct (IH Hin) as (a & b & Hab).
    destruct rest as [|y rest]; [by apply elem_of_nil in Hin |].
    rewrite join_cons by done. rewrite Hab.
    exists (x +:+ String sep "" +:+ a), b. by rewrite !app_assoc_str.
Qed.

Lemma includes_of_line (sub l s : string) :
  l ∈ split sep s -> includes sub l = true -> includes sub s = true.
Proof.
  intros Hin [a [b ->]]%includes_iff.
  destruct (join_holds_line _ _ Hin) as (a' & b' & Hs).
  rewrite join_split in Hs. apply includes_iff.
  exists (a' +:+ a), (b +:+ b'). rewrite Hs. by rewrite !app_assoc_str.
Qed.

Lemma startsWith_before (sub a b : string) :
  occurs sep sub = false ->
  startsWith sub (a +:+ String sep b) = true -> startsWith sub a = true.
Proof.
  revert a. induction sub as [|c sub IH]; intros a Hfree; [done |].
  cbn [occurs] in Hfree. apply orb_false_iff in Hfree as [Hc Hsub].
  destruct a as [|x a].
  - rewrite app_nil. cbn [startsWith]. intros [Heq _]%andb_true_iff.
    apply Ascii.eqb_eq in Heq as ->. by rewrite Ascii.eqb_refl in Hc.
  - rewrite app_cons. cbn [startsWith]. intros [Heq Hrest]%andb_true_iff.
    rewrite Heq. cbn [andb]. by apply IH.
Qed.

Lemma includes_app_sep (sub a b : string) :
  occurs sep sub = false ->
  includes sub "" = false ->
  includes sub (a +:+ String sep b) = true ->
  includes sub a = true \/ includes sub b = true.
Proof.
  intros Hfree Hne. induction a as [|x a IH].
  - rewrite app_nil. cbn [includes]. intros [Hs | Hb]%orb_true_iff; [| by right].
    apply (startsWith_before sub "" b Hfree) in Hs.
    cbn [includes] in Hne. rewrite Hs in Hne. done.
  - rewrite app_cons. cbn [includes]. intros [Hs | Hrest]%orb_true_iff.
    + left. rewrite <- app_cons in Hs.
      by rewrite (startsWith_before sub (String x a) b Hfree Hs).
    + destruct (IH Hrest) as [Ha | Hb]; [left | by right].
      rewrite Ha. apply orb_true_r.
Qed.

Lemma includes_join (sub : string) (lines : list string) :
  occurs sep sub = false ->
  includes sub "" = false ->
  includes sub (join (String sep "") lines) = true ->
  exists l, l ∈ lines /\ includes sub l = true.
Proof.
  intros Hfree Hne. induction lines as [|x rest IH].
  - cbn [join]. by rewrite Hne.
  - destruct rest as [|y rest].
    + cbn [join]. intros H. exists x. split; [by left | done].
    + rewrite join_cons by done. rewrite app_cons, app_nil.
      intros [Hx | Hrest]%includes_app_sep; [| | done | done].
      * exists x. split; [by left | done].
      * destruct (IH Hrest) as (l & Hl & Hin). exists l. split; [by right | done].
Qed.
End Lines.

(** ** The advertisement filter *)

Section Filter.
Import JS AdFilter.
Context (type : string).

Local Abbreviation newline := ("010"%char).

Lemma filterLines_kept (lines : list string) :
  forall nextdelete,
    Forall (fun l => kept type l = true) (filterLines type nextdelete lines).
Proof.
  induction lines as [|l lines IH]; intros b; cbn [filterLines]; [constructor |].
  destruct b; [apply IH |].
  destruct (includes discontinuity l) eqn:Ed; cbn [negb]; [apply IH |].
  destruct (isAdLine type l) eqn:Ea; [apply IH |].
  constructor; [| apply IH]. unfold kept. by rewrite Ed, Ea.
Qed.

Lemma filterLines_fixed (lines : list string) :
  Forall (fun l => kept type l = true) lines -> filterLines type false lines = lines.
Proof.
  induction 1 as [|l lines Hl _ IH]; cbn [filterLines]; [done |].
  unfold kept in Hl. apply andb_true_iff in Hl as [Hd Ha].
  rewrite Hd. destruct (isAdLine type l); [done |]. by rewrite IH.
Qed.

Lemma filterLines_sublist (lines : list string) :
  forall nextdelete, sublist (filterLines type nextdelete lines) lines.
Proof.
  induction lines as [|l lines IH]; intros b; cbn [filterLines]; [constructor |].
  destruct b; [constructor; apply IH |].
  destruct (negb (includes discontinuity l)); [| constructor; apply IH].
  destruct (isAdLine type l); constructor; apply IH.
Qed.

Lemma filterLines_free (lines : list string) (nextdelete : bool) :
  Forall (fun l => occurs newline l = false) lines ->
  Forall (fun l => occurs newline l = false) (filterLines type nextdelete lines).
Proof.
  rewrite !Forall_forall. intros H l Hin. apply H.
  eapply elem_of_sublist; [exact Hin | apply filterLines_sublist].
Qed.

Lemma filter_without_markers (lines : list string) :
  (forall l, l ∈ lines -> isAdLine type l = false) ->
  filterLines type false lines
  = List.filter (fun l => negb (includes discontinuity l)) lines.
Proof.
  induction lines as [|l lines IH]; intros Hno; cbn [filterLines List.filter]; [done |].
  rewrite (Hno l) by (by left).
  rewrite IH by (intros l' Hl'; apply Hno; by right).
  by destruct (includes discontinuity l).
Qed.

Lemma other_type_has_no_ad_line (l : string) : type <> "ruyi" -> isAdLine type l = false.
Proof.
  intros Hne. unfold isAdLine. by destruct (String.eqb_spec type "ruyi").
Qed.

Lemma isAdLine_marker (l : string) :
  isAdLine type l = true -> exists d, In d adDurations /\ includes d l = true.
Proof.
  unfold isAdLine. intros [_ H]%andb_true_iff. by apply existsb_exists in H.
Qed.

Lemma marker_isAdLine (d l : string) :
  In d adDurations -> includes d l = true -> isAdLine "ruyi" l = true.
Proof.
  intros Hd Hl. unfold isAdLine. cbn [String.eqb Ascii.eqb andb].
  apply existsb_exists. by exists d.
Qed.

Lemma output_lines (m3u8Content : string) :
  filterAdsFromM3U8Default type m3u8Content
  = join (String newline "") (filterLines type false (split_lines m3u8Content)).
Proof.
  unfold filterAdsFromM3U8Default. destruct m3u8Content as [|c s]; [| done].
  cbn [truthy negb split_lines split filterLines].
  change (includes discontinuity "") with false. cbn [negb].
  by destruct (isAdLine type "").
Qed.

(** X13: filtering a filtered playlist changes nothing. *)
Theorem filterAdsFromM3U8Default_is_idempotent (m3u8Content : string) :
  filterAdsFromM3U8Default type (filterAdsFromM3U8Default type m3u8Content)
  = filterAdsFromM3U8Default type m3u8Content.
Proof.
  rewrite (output_lines m3u8Content).
  set (lines := filterLines type false (split_lines m3u8Content)).
  assert (Forall (fun l => kept type l = true) lines) as Hkept by apply filterLines_kept.
  assert (Forall (fun l => occurs newline l = false) lines) as Hfree
    by apply filterLines_free, split_free.
  destruct lines as [|x rest] eqn:E; [done |].
  rewrite output_lines. unfold split_lines.
  rewrite split_join by done. by rewrite filterLines_fixed.
Qed.

(** X14: a playlist without the discontinuity tag, and under the type ruyi
    without any of the seven durations, comes back as it is. *)
Theorem filterAdsFromM3U8Default_keeps_a_clean_playlist (m3u8Content : string) :
  includes discontinuity m3u8Content = false ->
  (type = "ruyi" ->
   forall d, In d adDurations -> includes d m3u8Content = false) ->
  filterAdsFromM3U8Default type m3u8Content = m3u8Content.
Proof.
  intros Hd Ha. rewrite output_lines.
  rewrite filterLines_fixed; [apply join_split |].
  apply Forall_forall. intros l Hin. unfold kept.
  destruct (includes discontinuity l) eqn:El.
  { by rewrite (includes_of_line newline discontinuity l m3u8Content Hin El) in Hd. }
  destruct (isAdLine type l) eqn:Ead; [| done].
  destruct (isAdLine_marker l Ead) as (d & Hin_d & Hl).
  assert (type = "ruyi") as Htype.
  { unfold isAdLine in Ead. apply andb_true_iff in Ead as [Ht _].
    by apply String.eqb_eq in Ht. }
  pose proof (Ha Htype d Hin_d) as Hclean.
  by rewrite (includes_of_line newline d l m3u8Content Hin Hl) in Hclean.
Qed.

Lemma filterLines_app (pre rest : list string) :
  Forall (fun l => kept type l = true) pre ->
  filterLines type false (pre ++ rest)%list = (pre ++ filterLines type false rest)%list.
Proof.
  induction 1 as [|l pre Hl _ IH]; cbn [app filterLines]; [done |].
  unfold kept in Hl. apply andb_true_iff in Hl as [Hd Ha].
  rewrite Hd. destruct (isAdLine type l); [done |]. by rewrite IH.
Qed.

(** X15: under a type other than ruyi the output is the input without the
    lines that contain the discontinuity tag, the other lines in their
    order. *)
Theorem filterAdsFromM3U8Default_drops_the_tagged_lines (m3u8Content : string) :
  type <> "ruyi" ->
  filterAdsFromM3U8Default type m3u8Content
  = join (String newline "")
      (List.filter (fun l => negb (includes discontinuity l)) (split_lines m3u8Content)).
Proof.
  intros Hne. rewrite output_lines. f_equal.
  apply filter_without_markers. intros l _. by apply other_type_has_no_ad_line.
Qed.
End Filter.

Section Ruyi.
Import JS AdFilter.

Local Abbreviation newline := ("010"%char).

(** X16: the filtered playlist never contains the discontinuity tag, and
    under the type ruyi none of the seven durations either. *)
Theorem filterAdsFromM3U8Default_leaves_no_marker (type m3u8Content : string) :
  includes discontinuity (filterAdsFromM3U8Default type m3u8Content) = false
  /\ Forall (fun d => includes d (filterAdsFromM3U8Default "ruyi" m3u8Content) = false)
       adDurations.
Proof.
  split.
  - rewrite output_lines.
    pose proof (filterLines_kept type (split_lines m3u8Content) false) as Hkept.
    rewrite Forall_forall in Hkept.
    destruct (includes discontinuity _) eqn:E; [| done].
    apply includes_join in E as (l & Hin & Hl); [| done | done].
    specialize (Hkept l Hin). unfold kept in Hkept. by rewrite Hl in Hkept.
  - rewrite output_lines.
    pose proof (filterLines_kept "ruyi" (split_lines m3u8Content) false) as Hkept.
    rewrite Forall_forall in Hkept.
    apply List.Forall_forall. intros d Hd.
    destruct (includes d _) eqn:E; [| done].
    apply includes_join in E as (l & Hin & Hl).
    + specialize (Hkept l Hin). unfold kept in Hkept.
      rewrite (marker_isAdLine d l Hd Hl) in Hkept.
      by rewrite andb_false_r in Hkept.
    + cbn in Hd. by repeat destruct Hd as [<- | Hd].
    + cbn in Hd. by repeat destruct Hd as [<- | Hd].
Qed.

(** X17: under the type ruyi, a line with one of the seven durations goes
    together with the line that follows it, whatever that line is:
    the playlist is filtered as the one without the two lines. *)
Theorem filterAdsFromM3U8Default_drops_the_ad_and_the_next_line
    (pre post : list string) (ad next : string) :
  Forall (fun l => kept "ruyi" l = true) pre ->
  Forall (fun l => occurs newline l = false) (pre ++ ad :: next :: post) ->
  isAdLine "ruyi" ad = true ->
  includes discontinuity ad = false ->
  (pre ++ post)%list <> [] ->
  filterAdsFromM3U8Default "ruyi" (join (String newline "") (pre ++ ad :: next :: post))
  = filterAdsFromM3U8Default "ruyi" (join (String newline "") (pre ++ post)).
Proof.
  intros Hpre Hfree Had Hd Hne.
  rewrite !output_lines. unfold split_lines.
  rewrite split_join; [| by destruct pre | done].
  rewrite split_join; [| done |].
  - rewrite !filterLines_app by done. cbn [filterLines]. by rewrite Hd, Had.
  - apply Forall_app in Hfree as [H1 H2]. apply Forall_app. split; [done |].
    by do 2 apply Forall_cons in H2 as [_ H2].
Qed.
End Ruyi.

(** The sample playlist: what the filter returns under ruyi and under
    another type. *)
Example filter_of_the_sample_playlist :
  AdFilter.filterAdsFromM3U8Default "ruyi" AdSample.withAd = AdSample.clean
  /\ AdFilter.filterAdsFromM3U8Default "other" AdSample.withAd = AdSample.tagsOnly.
Proof. split; vm_compute; reflexivity. Qed.

Lemma filterAdsFromM3U8Default_keeps_a_clean_playlist_witness :
  JS.includes AdFilter.discontinuity AdSample.clean = false
  /\ AdFilter.filterAdsFromM3U8Default "ruyi" AdSample.clean = AdSample.clean.
Proof.
  assert (JS.includes AdFilter.discontinuity AdSample.clean = false) as Hd
    by (vm_compute; reflexivity).
  split; [exact Hd |].
  apply (filterAdsFromM3U8Default_keeps_a_clean_playlist "ruyi" AdSample.clean Hd).
  intros _ d Hin. cbn in Hin.
  repeat destruct Hin as [<- | Hin]; [vm_compute; reflexivity .. | done].
Defined.

Lemma filterAdsFromM3U8Default_drops_the_tagged_lines_witness :
  "other" <> "ruyi"
  /\ AdFilter.filterAdsFromM3U8Default "other" AdSample.withAd
     = JS.join (String "010"%char "")
         (List.filter (fun l => negb (JS.includes AdFilter.discontinuity l))
            (JS.split_lines AdSample.withAd)).
Proof.
  assert ("other" <> "ruyi") as Hne by discriminate.
  split; [exact Hne |].
  exact (filterAdsFromM3U8Default_drops_the_tagged_lines "other" AdSample.withAd Hne).
Defined.

Lemma filterAdsFromM3U8Default_drops_the_ad_and_the_next_line_witness :
  let pre := ["#EXTM3U"; "#EXTINF:9.5,"; "seg0.ts"] in
  let post := ["#EXTINF:9.5,"; "seg1.ts"; "#EXT-X-ENDLIST"] in
  AdFilter.isAdLine "ruyi" "#EXTINF:5.640000," = true
  /\ AdFilter.filterAdsFromM3U8Default "ruyi"
       (JS.join (String "010"%char "") (pre ++ "#EXTINF:5.640000," :: "ad0.ts" :: post))
     = AdFilter.filterAdsFromM3U8Default "ruyi"
         (JS.join (String "010"%char "") (pre ++ post)).
Proof.
  intros pre post.
  assert (AdFilter.isAdLine "ruyi" "#EXTINF:5.640000," = true) as Had
    by (vm_compute; reflexivity).
  split; [exact Had |].
  apply (filterAdsFromM3U8Default_drops_the_ad_and_the_next_line pre post
           "#EXTINF:5.640000," "ad0.ts").
  - repeat constructor.
  - repeat constructor.
  - exact Had.
  - vm_compute; reflexivity.
  - discriminate.
Defined.

(** ** The handlers of the route *)

Section Guard.
Import Route.

(** X18: a handler refuses a request with 403 when the feature is off and
    with 401 when the cookie names no user; the role test that follows
    refuses nobody. *)
Theorem refusal_leaves_the_role_unchecked (env : Env) (authInfo : option AuthInfo) :
  refusal env authInfo
  = if bool_decide (ENABLE_OFFLINE_DOWNLOAD env = Some "true") then
      match authInfo with
      | None => Some (refuse 401 unauthorized)
      | Some _ => None
      end
    else Some (refuse 403 disabled).
Proof.
  unfold refusal. destruct (bool_decide _); cbn [negb]; [| done].
  destruct authInfo as [a |]; [| done].
  unfold userRole. by destruct (decide _).
Qed.
End Guard.

Section Submit.
Import Route.







End Submit.

Section DeleteAndRetry.
Import Route.
Context (env : Env) (authInfo : option AuthInfo) (taskId : string) (m : Manager).
Hypothesis pass : refusal env authInfo = None.
Hypothesis named : JS.truthy taskId = true.

Lemma deleteTask_unknown : getTask m taskId = None -> deleteTask m taskId = m.
Proof. unfold deleteTask. by intros ->. Qed.

Lemma get_delete_keys (entries : list (string * nat)) :
  NoDup (mapKeys entries) -> taskId ∉ mapKeys (JsMap.delete taskId entries).
Proof.
  intros Hn. apply get_None. by apply get_delete_eq.
Qed.

(** X20: DELETE with a task id, by a user the checks let in: the answer is
    200 whether the id names a task or not; afterwards GET lists no
    task of that id, and the other ids name what they named; an id
    that named nothing leaves the manager as it was. *)
Theorem DELETE_answers_200_and_the_id_is_gone :
  storeOk m ->
  let result := DELETE env authInfo (Some taskId) m in
  result.2 = json (MessageBody deleted)
  /\ (exists listed, GET env authInfo result.1 = json (TasksBody listed)
                     /\ forall t, t ∈ listed -> Task.id t <> taskId)
  /\ (forall other, other <> taskId -> getTask result.1 other = getTask m other)
  /\ (getTask m taskId = None -> result.1 = m).
Proof.
  intros Hok result. subst result. unfold DELETE, GET. rewrite pass, named.
  cbn [negb fst snd]. split; [done |].
  assert (storeOk (deleteTask m taskId)) as Hok' by by apply storeOk_deleteTask.
  destruct (getTask m taskId) as [t |] eqn:Eg.
  - destruct (deleteTask_fields m taskId t Eg) as (Hheap & Htasks & _).
    split; [| split; [| done]].
    + eexists. split; [reflexivity |]. intros x Hx Hid.
      assert (Task.id x ∈ mapKeys (tasks (deleteTask m taskId))) as Hkey.
      { rewrite <- (taskValues_ids _ Hok'). apply list_elem_of_fmap. by exists x. }
      rewrite Htasks, Hid in Hkey. destruct Hok as (Hn & _).
      by apply (get_delete_keys _ Hn).
    + intros other Hne. unfold getTask. rewrite Hheap, Htasks.
      by rewrite get_delete_ne.
  - rewrite (deleteTask_unknown Eg). split; [| split; [done | done]].
    eexists. split; [reflexivity |]. intros x Hx Hid.
    rewrite <- Hid in Eg. by rewrite (elem_of_taskValues m x Hok Hx) in Eg.
Qed.

(** X21: PUT with a task id, by a user the checks let in: an id that names
    no task, or a task that is downloading, is answered with 500 and
    the message of retryTask, and nothing changes; any other task is
    answered with 200 and is downloading again from progress 0, its
    identity kept. *)
Theorem PUT_restarts_or_answers_500 :
  let result := PUT env authInfo (Some taskId) m in
  match getTask m taskId with
  | None => result = (m, [], refuse 500 "任务不存在")
  | Some t =>
      if Status.eqb (Task.status t) Status.downloading
      then result = (m, [], refuse 500 "任务正在下载中")
      else exists task t',
          result.2 = json (MessageBody restartedMessage)
          /\ result.1.2 = [AwaitStartSave task]
          /\ getTask result.1.1 taskId = Some t'
          /\ Task.status t' = Status.downloading
          /\ Task.progress t' = 0
          /\ Task.downloadedSize t' = 0
          /\ Task.error t' = None
          /\ sameIdentity t t'
  end.
Proof.
  intros result. subst result. unfold PUT. rewrite pass, named. cbn [negb].
  unfold getTask, retryTask.
  destruct (JsMap.get taskId (tasks m)) as [task |] eqn:Eget; [| done].
  cbn. destruct (heap m !! task) as [t |] eqn:Eheap; [| done].
  destruct (Status.eqb (Task.status t) Status.downloading); [done |].
  cbn [proceed].
  set (reset := saveMetadata _).
  assert (startDownload reset taskId
          = (saveMetadata (mutate task (Task.with_status Status.downloading) reset),
             AwaitStartSave task)) as ->.
  { unfold startDownload. change (tasks reset) with (tasks m). by rewrite Eget. }
  cbn [fst snd]. exists task.
  change (tasks (saveMetadata (mutate task (Task.with_status Status.downloading) reset)))
    with (tasks m).
  rewrite Eget. cbn [mbind option_bind].
  subst reset. unfold saveMetadata, mutate.
  cbn [tasks heap set_tasks set_heap set_metadataFile].
  rewrite !list_lookup_alter_eq, Eheap. cbn [fmap option_fmap option_map].
  eexists. split; [done |]. split; [done |]. split; [reflexivity |].
  by repeat split.
Qed.
End DeleteAndRetry.

(** ** The handlers on sample requests *)

Lemma sample_pass : Route.refusal RouteSample.env (Some RouteSample.visitor) = None.
Proof. reflexivity. Qed.





(** DELETE of the task of a finished download. *)
Lemma DELETE_answers_200_and_the_id_is_gone_witness :
  let result := Route.DELETE RouteSample.env (Some RouteSample.visitor) (Some "id-a")
                  (manager Sample.finishedWorld) in
  Route.refusal RouteSample.env (Some RouteSample.visitor) = None
  /\ JS.truthy "id-a" = true
  /\ storeOk (manager Sample.finishedWorld)
  /\ result.2 = Route.json (Route.MessageBody Route.deleted)
  /\ exists listed,
      Route.GET RouteSample.env (Some RouteSample.visitor) result.1
      = Route.json (Route.TasksBody listed)
      /\ forall t, t ∈ listed -> Task.id t <> "id-a".
Proof.
  intros result.
  split; [exact sample_pass |]. split; [reflexivity |]. split; [exact storeOk_finished |].
  destruct (DELETE_answers_200_and_the_id_is_gone RouteSample.env
              (Some RouteSample.visitor) "id-a" (manager Sample.finishedWorld)
              sample_pass eq_refl storeOk_finished) as (H1 & H2 & _).
  split; [exact H1 | exact H2].
Defined.

(** PUT of the task that failed on a network without answer. *)
Lemma PUT_restarts_or_answers_500_witness :
  let result := Route.PUT RouteSample.env (Some RouteSample.visitor) (Some "id-a")
                  Sample.afterFailure in
  Route.refusal RouteSample.env (Some RouteSample.visitor) = None
  /\ JS.truthy "id-a" = true
  /\ getTask Sample.afterFailure "id-a" = Some Sample.failedTask
  /\ exists task t',
      result.2 = Route.json (Route.MessageBody Route.restartedMessage)
      /\ result.1.2 = [AwaitStartSave task]
      /\ getTask result.1.1 "id-a" = Some t'
      /\ Task.status t' = Status.downloading
      /\ Task.progress t' = 0
      /\ Task.error t' = None.
Proof.
  intros result.
  assert (getTask Sample.afterFailure "id-a" = Some Sample.failedTask) as Hg
    by (vm_compute; reflexivity).
  split; [exact sample_pass |]. split; [reflexivity |]. split; [exact Hg |].
  pose proof (PUT_restarts_or_answers_500 RouteSample.env (Some RouteSample.visitor)
                "id-a" Sample.afterFailure sample_pass eq_refl) as H.
  cbv zeta in H. rewrite Hg in H.
  change (Status.eqb (Task.status Sample.failedTask) Status.downloading) with false in H.
  destruct H as (task & t' & H1 & H2 & H3 & H4 & H5 & _ & H6 & _).
  exists task, t'. repeat split; assumption.
Defined.

(** ** The extension of an output path *)

Section Extension.
Import JS AdFilter.

Local Abbreviation slash := ("/"%char).

Lemma string_of_uint_plain (d : Decimal.uint) :
  occurs slash (NilEmpty.string_of_uint d) = false.
Proof. induction d; cbn [NilEmpty.string_of_uint occurs Ascii.eqb]; done. Qed.

Lemma numberToString_plain (z : Z) :
  numberToString z <> "" /\ occurs slash (numberToString z) = false.
Proof.
  unfold numberToString, NilZero.string_of_int, NilZero.string_of_uint.
  destruct (Z.to_int z) as [d | d]; destruct d; cbn [occurs NilEmpty.string_of_uint];
    (split; [discriminate |]);
    cbn [Ascii.eqb orb]; try done; apply string_of_uint_plain.
Qed.

Lemma split_suffix (x w : string) :
  occurs slash w = false ->
  exists init l, split slash (x +:+ w) = (init ++ [l +:+ w])%list.
Proof.
  intros Hw. induction x as [|c x (init & l & IH)].
  - exists [], "". rewrite !app_nil. by apply split_free_line.
  - rewrite app_cons. cbn [split]. rewrite IH.
    destruct (Ascii.eqb c slash).
    + by exists ("" :: init), l.
    + destruct init as [|h init]; cbn [app].
      * exists [], (String c l). reflexivity.
      * exists (String c h :: init), l. reflexivity.
Qed.

Lemma normalizeString_suffix (x y : string) (allowAboveRoot : bool) :
  occurs slash y = false ->
  exists q, Path.normalizeString (x +:+ y +:+ ".ts") allowAboveRoot = q +:+ y +:+ ".ts".
Proof.
  intros Hy. unfold Path.normalizeString.
  assert (occurs slash (y +:+ ".ts") = false) as Hw.
  { clear -Hy. induction y as [|c y IH]; [done |].
    rewrite app_cons. cbn [occurs] in *. apply orb_false_iff in Hy as [-> Hy].
    by apply IH. }
  destruct (split_suffix x (y +:+ ".ts") Hw) as (init & l & ->).
  rewrite fold_left_app. cbn [fold_left].
  unfold Path.push_segment at 1. rewrite <- app_assoc_str.
  destruct (ts_segment_kept (l +:+ y)) as [-> ->]. cbn [rev].
  destruct (join_snoc "/" (rev (fold_left (Path.push_segment allowAboveRoot) init []))
              ((l +:+ y) +:+ ".ts")) as [pre ->].
  exists (pre +:+ l). by rewrite !app_assoc_str.
Qed.

Lemma normalize_suffix (x y : string) :
  occurs slash y = false ->
  exists q, Path.normalize (x +:+ y +:+ ".ts") = q +:+ y +:+ ".ts".
Proof.
  intros Hy. unfold Path.normalize.
  assert (endsWith ".ts" (x +:+ y +:+ ".ts") = true) as Hts
    by (rewrite <- app_assoc_str; apply endsWith_app).
  destruct (String.eqb (x +:+ y +:+ ".ts") "") eqn:E.
  { apply String.eqb_eq in E. rewrite E in Hts. discriminate. }
  rewrite (ts_not_slash _ Hts).
  destruct (normalizeString_suffix x y
              (negb (startsWith "/" (x +:+ y +:+ ".ts"))) Hy) as [q ->].
  destruct (String.eqb (q +:+ y +:+ ".ts") "") eqn:En.
  { apply String.eqb_eq in En. destruct q, y; discriminate. }
  destruct (startsWith "/" (x +:+ y +:+ ".ts")); [| by exists q].
  exists ("/" +:+ q). by rewrite !app_assoc_str.
Qed.

Lemma join_suffix (dir x y : string) :
  occurs slash y = false ->
  exists q, Path.join dir (x +:+ y +:+ ".ts") = q +:+ y +:+ ".ts".
Proof.
  intros Hy. unfold Path.join.
  assert (String.eqb (x +:+ y +:+ ".ts") "" = false) as ->.
  { apply String.eqb_neq. destruct x, y; discriminate. }
  destruct (String.eqb dir ""); [by apply normalize_suffix |].
  rewrite <- (app_assoc_str "/" x), <- (app_assoc_str dir).
  by apply normalize_suffix.
Qed.

Lemma chars_app (a b : string) :
  list_ascii_of_string (a +:+ b)
  = (list_ascii_of_string a ++ list_ascii_of_string b)%list.
Proof. induction a as [|c a IH]; [done |]. rewrite app_cons. cbn. by rewrite IH. Qed.

Lemma plain_chars (y : string) :
  occurs slash y = false ->
  Forall (fun c => Path.notSlash c = true) (list_ascii_of_string y).
Proof.
  induction y as [|c y IH]; cbn [occurs list_ascii_of_string]; [constructor |].
  intros [Hc Hy]%orb_false_iff. constructor; [| by apply IH].
  unfold Path.notSlash, Path.isSlash. by rewrite Hc.
Qed.

Lemma takeWhile_app (f : ascii -> bool) (a b : list ascii) :
  Forall (fun c => f c = true) a ->
  Path.takeWhile f (a ++ b) = (a ++ Path.takeWhile f b)%list.
Proof.
  induction 1 as [|c a Hc _ IH]; [done |]. cbn [app Path.takeWhile].
  by rewrite Hc, IH.
Qed.

Lemma extname_suffix (q y : string) :
  y <> "" -> occurs slash y = false -> Path.extname (q +:+ y +:+ ".ts") = ".ts".
Proof.
  intros Hne Hy. unfold Path.extname.
  rewrite !chars_app, !rev_app_distr.
  change (rev (list_ascii_of_string ".ts")) with ["s"; "t"; "."]%char.
  rewrite <- !app_assoc. cbn [app].
  set (tail := (rev (list_ascii_of_string y) ++ rev (list_ascii_of_string q))%list).
  change (Path.dropWhile Path.isSlash ("s" :: "t" :: "." :: tail)%char)
    with ("s" :: "t" :: "." :: tail)%char.
  change (Path.takeWhile Path.notSlash ("s" :: "t" :: "." :: tail)%char)
    with ("s" :: "t" :: "." :: Path.takeWhile Path.notSlash tail)%char.
  subst tail. rewrite takeWhile_app by (apply Forall_rev, plain_chars, Hy).
  set (before := (rev (list_ascii_of_string y) ++ _)%list).
  change (Path.takeWhile Path.notDot ("s" :: "t" :: "." :: before)%char)
    with ["s"; "t"]%char.
  cbn [List.length drop].
  assert (before <> []) as Hbefore.
  { subst before. destruct y as [|c y]; [done |]. cbn [list_ascii_of_string rev].
    intros E. apply (f_equal (@List.length ascii)) in E.
    rewrite !length_app in E. cbn in E. lia. }
  destruct before as [|c [|c' l]]; [done | reflexivity | reflexivity].
Qed.

(** The path that getOfflineVideo probes has the extension .ts. *)
Lemma extname_of_output (dir source videoId : string) (episodeIndex : Z) :
  Path.extname (Path.join dir (generateFileName source videoId episodeIndex)) = ".ts".
Proof.
  unfold generateFileName.
  destruct (numberToString_plain episodeIndex) as [Hne Hplain].
  assert (source +:+ "_" +:+ videoId +:+ "_" +:+ numberToString episodeIndex +:+ ".ts"
          = (source +:+ "_" +:+ videoId +:+ "_") +:+ numberToString episodeIndex +:+ ".ts")
    as -> by (by rewrite !app_assoc_str).
  destruct (join_suffix dir (source +:+ "_" +:+ videoId +:+ "_")
              (numberToString episodeIndex) Hplain) as [q ->].
  by apply extname_suffix.
Qed.
End Extension.

(** ** The play route *)

Section PlayRoute.
Import Route Play.
Context (parseInt : string -> option Z) (env : Env) (user : AuthInfo).
Context (source videoId episodeIndex : string) (episodeNum : Z) (m : Manager).
Hypothesis enabled : ENABLE_OFFLINE_DOWNLOAD env = Some "true".
Hypothesis given :
  JS.truthy source = true /\ JS.truthy videoId = true /\ JS.truthy episodeIndex = true.
Hypothesis parsed : parseInt episodeIndex = Some episodeNum.

(** X22: a request of a user with all three parameters, the episode a
    number: the handler sends the file at the path made of the
    download directory, source, videoId and episode, and sends it as
    video/mp2t whatever the file holds; without that file it answers
    404. *)
Theorem play_sends_the_output_file_as_mp2t :
  GET parseInt env (Some user) (Some source) (Some videoId) (Some episodeIndex) m
  = match disk m !! Path.join (downloadDir m)
                      (generateFileName source videoId episodeNum) with
    | Some videoData => Video "video/mp2t" videoData
    | None => JsonError 404 noVideo
    end.
Proof.
  destruct given as (Hs & Hv & He).
  unfold GET. rewrite bool_decide_eq_true_2 by done.
  cbn [negb default from_option id]. rewrite Hs, Hv, He, parsed. cbn [negb orb].
  unfold getOfflineVideo.
  set (path := Path.join _ _).
  destruct (decide (is_Some (disk m !! path))) as [[data Hdata] | Hnone].
  - assert (JS.truthy path = true) as ->.
    { apply ts_truthy, join_ts, generateFileName_ts. }
    cbn [negb]. rewrite Hdata. unfold contentTypeOf.
    subst path. by rewrite extname_of_output.
  - destruct (disk m !! path) eqn:E; [| done]. exfalso. apply Hnone. by eexists.
Qed.
End PlayRoute.

(** The file of the finished download, asked for by a user. *)
Lemma play_sends_the_output_file_as_mp2t_witness :
  Play.readDecimal "3" = Some 3
  /\ Play.GET Play.readDecimal RouteSample.env (Some RouteSample.visitor)
       (Some "src") (Some "42") (Some "3") (manager Sample.finishedWorld)
     = Play.Video "video/mp2t" [71; 64; 17].
Proof.
  split; [reflexivity |].
  rewrite (play_sends_the_output_file_as_mp2t Play.readDecimal RouteSample.env
             RouteSample.visitor "src" "42" "3" 3 (manager Sample.finishedWorld)
             eq_refl (conj eq_refl (conj eq_refl eq_refl)) eq_refl).
  vm_compute. reflexivity.
Defined.

(** ** The metadata file *)

Section OnFile.





End OnFile.


Section OnFileOfSteps.
Context (P : Platform) (net : Network).
















End OnFileOfSteps.

(** ** The metadata file after a finished download *)



(** ** Key discovery *)

Section Keys.
Context (P : Platform) (net : Network) (m3u8Url : URL) (baseUrl : string).

Lemma keyLine_other (k : Playlist.KeyInfo) (line : string) :
  isKeyLine line = false -> Playlist.keyLine net m3u8Url baseUrl k line = Ok k.
Proof. unfold isKeyLine, Playlist.keyLine. by intros ->. Qed.

Lemma discoverKey_app (lines rest : list string) :
  forall k,
    Playlist.discoverKey net m3u8Url baseUrl k (lines ++ rest)
    = match Playlist.discoverKey net m3u8Url baseUrl k lines with
      | Ok k' => Playlist.discoverKey net m3u8Url baseUrl k' rest
      | Throw e => Throw e
      end.
Proof.
  induction lines as [|l lines IH]; intros k; cbn [app Playlist.discoverKey]; [done |].
  destruct (Playlist.keyLine net m3u8Url baseUrl k l) as [k' | e]; cbn; [apply IH | done].
Qed.

(** X25: key discovery reads the key lines of the playlist, in their
    order, and nothing else: the other lines make no request and
    change neither key, IV nor method. *)
Theorem discoverKey_reads_the_key_lines_only (k : Playlist.KeyInfo) (lines : list string) :
  Playlist.discoverKey net m3u8Url baseUrl k lines
  = Playlist.discoverKey net m3u8Url baseUrl k (List.filter isKeyLine lines).
Proof.
  revert k. induction lines as [|l lines IH]; intros k; [done |].
  cbn [List.filter Playlist.discoverKey]. destruct (isKeyLine l) eqn:E.
  - cbn [Playlist.discoverKey].
    destruct (Playlist.keyLine net m3u8Url baseUrl k l) as [k' | e]; cbn; [apply IH | done].
  - rewrite (keyLine_other k l E). cbn. apply IH.
Qed.

(** X26: a key line of method NONE at the end of the playlist keeps
    the key found before it and switches decryption off for every
    segment of the playlist, those listed before that line
    included. *)
Theorem a_last_key_line_of_method_NONE_ends_decryption
    (k0 k : Playlist.KeyInfo) (lines : list string) (last : string) :
  Playlist.discoverKey net m3u8Url baseUrl k0 lines = Ok k ->
  isKeyLine last = true ->
  Playlist.methodMatch (JS.trim last) = Some "NONE" ->
  exists k',
    Playlist.discoverKey net m3u8Url baseUrl k0 (lines ++ [last]) = Ok k'
    /\ Playlist.aesKey k' = Playlist.aesKey k
    /\ Playlist.aesMethod k' = Some "NONE"
    /\ forall segmentBuffer i, decryptIfNeeded P k' segmentBuffer i = segmentBuffer.
Proof.
  intros Hk Hlast Hmethod. rewrite discoverKey_app, Hk.
  cbn [Playlist.discoverKey]. unfold Playlist.keyLine.
  unfold isKeyLine in Hlast. rewrite Hlast, Hmethod.
  eexists. split.
  - destruct (Playlist.uriMatch (JS.trim last)); reflexivity.
  - split; [done |]. split; [done |]. intros body i.
    unfold decryptIfNeeded. cbn. by destruct (Playlist.aesKey k).
Qed.
End Keys.

(** The key of the sample playlist is fetched and used; with the line of
    method NONE behind the segment it is fetched and left unused. *)
Lemma a_last_key_line_of_method_NONE_ends_decryption_witness :
  let found := {| Playlist.aesKey := Some Sample.sampleKey; Playlist.aesIV := None;
                  Playlist.aesMethod := Some "AES-128" |} in
  Playlist.discoverKey KeySample.keyServer Sample.playlistUrl "https://host/a/"
    Playlist.noKey KeySample.lines = Ok found
  /\ decryptIfNeeded Sample.platform found Sample.oneBlock 0 <> Sample.oneBlock
  /\ exists k',
      Playlist.discoverKey KeySample.keyServer Sample.playlistUrl "https://host/a/"
        Playlist.noKey (KeySample.lines ++ [KeySample.none]) = Ok k'
      /\ Playlist.aesKey k' = Some Sample.sampleKey
      /\ decryptIfNeeded Sample.platform k' Sample.oneBlock 0 = Sample.oneBlock.
Proof.
  intros found.
  assert (Playlist.discoverKey KeySample.keyServer Sample.playlistUrl "https://host/a/"
            Playlist.noKey KeySample.lines = Ok found) as Hfound
    by (vm_compute; reflexivity).
  split; [exact Hfound |]. split; [vm_compute; discriminate |].
  destruct (a_last_key_line_of_method_NONE_ends_decryption Sample.platform
              KeySample.keyServer Sample.playlistUrl "https://host/a/" Playlist.noKey
              found KeySample.lines KeySample.none Hfound eq_refl eq_refl)
    as (k' & H1 & H2 & _ & H3).
  exists k'. split; [exact H1 |]. split; [exact H2 | apply H3].
Defined.

(** ** The place of the output *)

Section Located.
Context (P : Platform) (net : Network) (dir : string).

Lemma located_mutate (task : nat) (f : Task.t -> Task.t) (m : Manager) :
  (forall t, locatedTask dir t -> locatedTask dir (f t)) ->
  Forall (locatedTask dir) (heap m) -> Forall (locatedTask dir) (heap (mutate task f m)).
Proof. intros Hf Hm. unfold mutate. cbn [heap set_heap]. apply Forall_alter; auto. Qed.

Lemma located_record (task : nat) (p : string) (m : Manager) :
  locatedRun dir (heap m) (AwaitWrite task p []) ->
  Forall (locatedTask dir) (heap m) ->
  Forall (locatedTask dir) (heap (mutate task (Task.with_filePath (Some p)) m)).
Proof.
  intros (t & Ht & ->) Hm. unfold mutate. cbn [heap set_heap].
  apply Forall_alter; [done |]. intros x Hx [Hname _].
  rewrite Ht in Hx. injection Hx as <-. split; [done |]. cbn. by intros ? [= <-].
Qed.

Lemma locatedRun_evolves (a b : Manager) (r : Run) :
  evolves a b -> locatedRun dir (heap a) r -> locatedRun dir (heap b) r.
Proof.
  intros [_ He] Hr.
  destruct r as [taskId | task | task controller url
                | task controller plan i buffers | task controller plan i buffers
                | task path merged | task path url
                | task path total downloaded rest err | |]; try done;
    destruct Hr as (t & Ht & ->); destruct (He task t Ht) as (t' & Ht' & Hs);
    exists t'; (split; [done |]); destruct Hs as (_ & _ & _ & _ & _ & _ & ->); done.
Qed.

Lemma located_failed (task : nat) (e : string) (m : Manager) :
  Forall (locatedTask dir) (heap m) -> Forall (locatedTask dir) (heap (failed task e m).1).
Proof.
  intros Hm. unfold failed, saveMetadata. cbn [fst heap set_metadataFile].
  by do 2 (apply located_mutate; [by intros t [? ?] |]).
Qed.

Lemma located_succeeded (task : nat) (m : Manager) :
  Forall (locatedTask dir) (heap m) -> Forall (locatedTask dir) (heap (succeeded task m).1).
Proof.
  intros Hm. unfold succeeded, saveMetadata. cbn [fst heap set_metadataFile].
  by do 2 (apply located_mutate; [by intros t [? ?] |]).
Qed.

Lemma located_startDownload (m : Manager) (taskId : string) :
  Forall (locatedTask dir) (heap m) ->
  Forall (locatedTask dir) (heap (startDownload m taskId).1)
  /\ forall h, locatedRun dir h (startDownload m taskId).2.
Proof.
  intros Hm. unfold startDownload. destruct (JsMap.get taskId (tasks m)); [| done].
  split; [| done]. unfold saveMetadata. cbn [fst heap set_metadataFile].
  apply located_mutate; [by intros t [? ?] | done].
Qed.

Lemma located_segmentLoop (m : Manager) (task controller : nat) (plan : Playlist.Plan)
    (i : nat) (buffers : list Buffer) :
  downloadDir m = dir ->
  Forall (locatedTask dir) (heap m) ->
  Forall (locatedTask dir) (heap (segmentLoop m task controller plan i buffers).1)
  /\ locatedRun dir (heap (segmentLoop m task controller plan i buffers).1)
       (segmentLoop m task controller plan i buffers).2.
Proof.
  intros Hd Hm. unfold segmentLoop. destruct (heap m !! task) as [t |] eqn:Ht; [| done].
  destruct (_ <? _)%nat.
  - destruct (default false _); [| done]. split; [| done]. by apply located_failed.
  - split; [done |]. cbn [fst snd locatedRun]. exists t. split; [done |].
    destruct (Forall_lookup_1 _ _ _ _ Hm Ht) as [-> _]. by rewrite Hd.
Qed.

Lemma located_resume (m : Manager) (r : Run) :
  downloadDir m = dir ->
  Forall (locatedTask dir) (heap m) ->
  locatedRun dir (heap m) r ->
  Forall (locatedTask dir) (heap (resume P net m r).1)
  /\ locatedRun dir (heap (resume P net m r).1) (resume P net m r).2.
Proof.
  intros Hd Hm Hr.
  pose proof (evolves_resume P net m r) as Hev.
  destruct r as [taskId | task | task controller url
                | task controller plan i buffers | task controller plan i buffers
                | task path merged | task path url
                | task path total downloaded rest err | |];
    cbn [resume] in *; try done.
  - destruct (located_startDownload m taskId Hm) as [H1 H2]. split; [done | apply H2].
  - destruct (heap m !! task) as [t |] eqn:Ht; [| done].
    destruct (JS.includes _ _); [done |]. split; [done |].
    cbn [fst snd locatedRun heap set_activeDownloads set_controllers].
    exists t. split; [done |]. by rewrite Hd.
  - destruct (heap m !! task) as [t |]; [| done].
    destruct (fetchContent net url) as [content | e];
      [| split; [by apply located_failed | done]].
    destruct (Playlist.dereferenceMaster _ _ _ _) as [url' c].
    assert (Forall (locatedTask dir) (heap (mutate task (Task.with_url url') m))) as Hm'
      by (apply located_mutate; [by intros ? [? ?] | done]).
    destruct (c ≫= _) as [plan | e]; [| split; [by apply located_failed | done]].
    apply located_segmentLoop; [done |].
    apply located_mutate; [by intros ? [? ?] | done].
  - destruct (heap m !! task) as [t |]; [| done].
    destruct (Playlist.tsUrls plan !! i) as [tsUrl |]; [| done].
    destruct (downloadSegmentToBuffer net tsUrl);
      [| split; [by apply located_failed | done]].
    split; [| done]. unfold saveMetadata. cbn [fst heap set_metadataFile].
    by do 2 (apply located_mutate; [by intros ? [? ?] |]).
  - by apply located_segmentLoop.
  - destruct (heap m !! task) as [t |]; [| done]. split; [| done].
    apply located_succeeded. unfold forget. cbn [heap set_activeDownloads].
    apply (located_record task path (set_disk _ m)); [| done].
    destruct Hr as (t0 & Ht0 & ->). by exists t0.
  - destruct (heap m !! task) as [t |]; [| done].
    destruct (get_stream net url) as [e | code body];
      [split; [by apply located_failed | done] |].
    destruct (negb _); [split; [by apply located_failed | done] |].
    split.
    + cbn [fst heap set_disk]. apply located_mutate; [by intros ? [? ?] | done].
    + eapply locatedRun_evolves; [exact Hev |]. exact Hr.
  - destruct (heap m !! task) as [t |]; [| done].
    destruct rest as [| chunk rest].
    + destruct err; [split; [by apply located_failed | done] |]. split; [| done].
      apply located_succeeded. unfold forget. cbn [heap set_activeDownloads].
      apply (located_record task path m); [| done].
      destruct Hr as (t0 & Ht0 & ->). by exists t0.
    + split.
      * cbn [fst heap set_disk].
        by do 2 (apply located_mutate; [by intros ? [? ?] |]).
      * eapply locatedRun_evolves; [exact Hev |]. exact Hr.
Qed.

Lemma located_step (w w' : World) : step P net w w' -> located dir w -> located dir w'.
Proof.
  intros Hstep (Hd & Hm & Hr).
  pose proof (evolves_step P net w w' Hstep) as Hev.
  assert (Forall (locatedRun dir (heap (manager w'))) (runs w)) as Hold.
  { eapply Forall_impl; [exact Hr |]. intros r. by apply locatedRun_evolves. }
  split; [destruct Hev as [-> _]; done |].
  destruct Hstep as [w d i n m' ret r H | w i m' r H | w i | w i r m' r' Hi H];
    cbn [manager runs] in *.
  - unfold addTask in H.
    assert (Forall (locatedTask dir) (heap (manager w) ++ [newTask d i n])) as Hnew.
    { apply Forall_app. split; [done |]. by repeat constructor. }
    destruct (find _ _) as [existing |]; [destruct (blocksResubmission _) |];
      injection H as <- <- <-; (split; [done |]);
      (apply Forall_app; split; [done | by repeat constructor]).
  - unfold retryTask in H.
    destruct (JsMap.get i (tasks (manager w))) as [task |]; [| done].
    destruct (heap (manager w) !! task); [| done]. destruct (Status.eqb _ _); [done |].
    injection H as <- <-. split.
    + unfold saveMetadata. cbn [heap set_metadataFile].
      by do 4 (apply located_mutate; [by intros ? [? ?] |]).
    + apply Forall_app. split; [done | by repeat constructor].
  - split; [by rewrite heap_deleteTask | done].
  - pose proof (located_resume (manager w) r Hd Hm (Forall_lookup_1 _ _ _ _ Hr Hi))
      as [H1 H2].
    rewrite H in H1, H2. cbn [fst snd] in *. split; [done |]. by apply Forall_insert.
Qed.

Lemma located_reachable (w : World) : reachable P net dir w -> located dir w.
Proof.
  unfold reachable. intros H.
  assert (located dir (initialWorld dir)) as H0 by (split; [done | split; constructor]).
  revert H0. induction H as [| w1 w2 w3 Hs _ IH]; [done |].
  intros H0. apply IH. by eapply located_step.
Qed.

Lemma downloadDir_deleteTask (m : Manager) (taskId : string) :
  downloadDir (deleteTask m taskId) = downloadDir m.
Proof.
  unfold deleteTask. destruct (getTask m taskId) as [t |]; [| done].
  destruct (JsMap.get taskId (activeDownloads m)); destruct (Task.filePath t) as [p |];
    try destruct (JS.truthy p); try reflexivity;
    unfold removeOutput; by destruct (JS.endsWith ".m3u8" p).
Qed.

(** X27: in every state the manager reaches from an empty store, the
    path that a task records is the one getOfflineVideo probes for the
    source, videoId and episodeIndex of the task; and after deleteTask
    of a task with a recorded path, getOfflineVideo finds no video for
    them. *)
Theorem deleteTask_makes_the_video_unavailable
    (w : World) (taskId : string) (t : Task.t) (p : string) :
  reachable P net dir w ->
  getTask (manager w) taskId = Some t ->
  Task.filePath t = Some p ->
  p = Path.join dir
        (generateFileName (Task.source t) (Task.videoId t) (Task.episodeIndex t))
  /\ getOfflineVideo (deleteTask (manager w) taskId)
       (Task.source t) (Task.videoId t) (Task.episodeIndex t) = None.
Proof.
  intros Hreach Hget Hpath.
  destruct (located_reachable w Hreach) as (Hd & Hm & _).
  assert (locatedTask dir t) as [Hname Hp].
  { unfold getTask in Hget. destruct (JsMap.get taskId _) as [ref |]; [| done].
    cbn in Hget. by eapply Forall_lookup_1. }
  pose proof (Hp p Hpath) as Heq. rewrite Hname in Heq. split; [done |].
  unfold getOfflineVideo. rewrite downloadDir_deleteTask, Hd, <- Heq.
  rewrite (disk_deleteTask _ _ _ Hget), Hpath.
  assert (JS.endsWith ".ts" p = true) as Hts.
  { rewrite Heq. apply join_ts, generateFileName_ts. }
  rewrite (ts_truthy p Hts). unfold removeOutput. rewrite (ts_not_m3u8 p Hts).
  cbn [disk set_disk]. rewrite lookup_delete_eq.
  destruct (decide (is_Some None)) as [[? ?] | _]; done.
Qed.
End Located.

(** The finished download: its file is found, and no longer after
    deleteTask. *)
Lemma deleteTask_makes_the_video_unavailable_witness :
  reachable Sample.platform Scenario.shortSite "/d" Sample.finishedWorld
  /\ getTask (manager Sample.finishedWorld) "id-a" = Some Sample.finishedTask
  /\ getOfflineVideo (manager Sample.finishedWorld) "src" "42" 3 = Some "/d/src_42_3.ts"
  /\ getOfflineVideo (deleteTask (manager Sample.finishedWorld) "id-a") "src" "42" 3 = None.
Proof.
  assert (reachable Sample.platform Scenario.shortSite "/d" Sample.finishedWorld) as Hr
    by apply reachable_schedule.
  assert (getTask (manager Sample.finishedWorld) "id-a" = Some Sample.finishedTask) as Hg
    by (vm_compute; reflexivity).
  split; [exact Hr |]. split; [exact Hg |]. split; [vm_compute; reflexivity |].
  exact (proj2 (deleteTask_makes_the_video_unavailable Sample.platform Scenario.shortSite
                  "/d" Sample.finishedWorld "id-a" Sample.finishedTask "/d/src_42_3.ts"
                  Hr Hg eq_refl)).
Defined.
